(** * Immigration document pipeline: parser heuristics and LLM orchestration

    A shallow embedding of [pdf_parser.py] (text extraction, document
    classification, confidence scoring, text chunking) and of
    [llm_service.py] (JSON-shaped prompts, per-field guidance, analysis
    confidence), together with the properties established about them.

    Python integers are [Z]; Python floats are IEEE binary64 values
    ([PrimFloat.float]); a [str] is a list of characters, a character being a
    code point of the Latin-1 range (one [ascii]); a call that may raise or loop
    has an [outcome]. *)

From Stdlib Require Import ZArith List Bool Ascii String Lia Floats.
Import ListNotations.
Local Open Scope Z_scope.

(** ** The Python operations the sources rely on *)

Module Py.

Definition str : Type := list ascii.

(** A string literal of the source. *)
Definition lit (s : string) : str := list_ascii_of_string s.

(** [len(x)] *)
Definition len {A : Type} (l : list A) : Z := Z.of_nat (List.length l).

(** How a slice bound is brought into [0 .. len]: a negative bound counts from
    the end. *)
Definition adjust (n i : Z) : Z :=
  if i <? 0 then Z.max (i + n) 0 else Z.min i n.

(** [l[a:b]] *)
Definition slice {A : Type} (l : list A) (a b : Z) : list A :=
  let lo := adjust (len l) a in
  let hi := adjust (len l) b in
  firstn (Z.to_nat (hi - lo)) (skipn (Z.to_nat lo) l).

Fixpoint rfind_from (c : ascii) (s : str) (i last : Z) : Z :=
  match s with
  | [] => last
  | x :: s' => rfind_from c s' (i + 1) (if Ascii.eqb x c then i else last)
  end.

(** [s.rfind(c)] for a one-character [c]: the highest index of [c], or -1. *)
Definition rfind (s : str) (c : ascii) : Z := rfind_from c s 0 (-1).

(** [c.isspace()] on the Latin-1 range: TAB..CR, FS..US, SPACE, NEL, NBSP. *)
Definition isspace (c : ascii) : bool :=
  let n := Z.of_N (N_of_ascii c) in
  ((9 <=? n) && (n <=? 13)) || ((28 <=? n) && (n <=? 32))
  || (n =? 133) || (n =? 160).

Fixpoint lstrip (s : str) : str :=
  match s with
  | [] => []
  | c :: s' => if isspace c then lstrip s' else s
  end.

Definition rstrip (s : str) : str := rev (lstrip (rev s)).

(** [s.strip()] *)
Definition strip (s : str) : str := rstrip (lstrip s).

(** [c.lower()] on the Latin-1 range: A..Z and the accented capitals. *)
Definition lower_char (c : ascii) : ascii :=
  let n := N_of_ascii c in
  if (((65 <=? n) && (n <=? 90)) || ((192 <=? n) && (n <=? 214))
      || ((216 <=? n) && (n <=? 222)))%N
  then ascii_of_N (n + 32) else c.

(** [s.lower()] *)
Definition lower (s : str) : str := map lower_char s.

Fixpoint startswith (s p : str) : bool :=
  match p, s with
  | [], _ => true
  | _ :: _, [] => false
  | a :: p', b :: s' => Ascii.eqb a b && startswith s' p'
  end.

(** [p in s] *)
Fixpoint contains (s p : str) : bool :=
  startswith s p ||
  match s with
  | [] => false
  | _ :: s' => contains s' p
  end.

(** [a == b] on strings *)
Definition str_eqb (a b : str) : bool :=
  if list_eq_dec ascii_dec a b then true else false.

(** [sep.join(parts)] *)
Fixpoint join (sep : str) (parts : list str) : str :=
  match parts with
  | [] => []
  | [p] => p
  | p :: rest => p ++ sep ++ join sep rest
  end.

(** [bool(l)] of a list or dict: it is not empty. *)
Definition truthy {A : Type} (l : list A) : bool :=
  match l with [] => false | _ :: _ => true end.

(** [min(a, b)] on floats: [b] when [b < a], else [a]. *)
Definition fmin (a b : float) : float := if PrimFloat.ltb b a then b else a.

(** What a call does: it returns a value, raises the named exception, or is
    still running when the fuel given to its loop is spent. *)
Inductive outcome (A : Type) : Type :=
| Returns (v : A)
| Raises (exn : string)
| OutOfFuel.

Arguments Returns {A} v.
Arguments Raises {A} exn.
Arguments OutOfFuel {A}.

Definition omap {A B : Type} (f : A -> B) (o : outcome A) : outcome B :=
  match o with
  | Returns v => Returns (f v)
  | Raises e => Raises e
  | OutOfFuel => OutOfFuel
  end.

End Py.

Import Py.

Definition period : ascii := "."%char.
Definition newline : ascii := "010"%char.

(** ** pdf_parser.py: [PDFParser.extract_text_chunks] *)

Module Chunker.

(** One pass through the loop body up to the [append]: the window cut from
    [start], shrunk to the last period or newline when the test on
    [break_point] passes, and the position where it ends. *)
Definition window (text : str) (chunk_size start : Z) : str * Z :=
  let end_ := start + chunk_size in
  let chunk := slice text start end_ in
  if end_ <? len text then
    let last_period := rfind chunk period in
    let last_newline := rfind chunk newline in
    let break_point := Z.max last_period last_newline in
    if break_point >? start + chunk_size / 2
    then (slice text start (start + break_point + 1), start + break_point + 1)
    else (chunk, end_)
  else (chunk, end_).

(** The [while start < len(text)] loop; [fuel] bounds the number of passes. *)
Fixpoint chunk_loop (fuel : nat) (text : str) (chunk_size overlap start : Z)
    (chunks : list str) : outcome (list str) :=
  match fuel with
  | O => OutOfFuel
  | S fuel' =>
      if start <? len text then
        let '(chunk, end_) := window text chunk_size start in
        chunk_loop fuel' text chunk_size overlap (end_ - overlap)
          (chunks ++ [strip chunk])
      else Returns chunks
  end.

Definition extract_text_chunks (fuel : nat) (text : str)
    (chunk_size overlap : Z) : outcome (list str) :=
  chunk_loop fuel text chunk_size overlap 0 [].

(** The untrimmed windows of the same loop, kept to state what the chunks
    cover. *)
Fixpoint window_loop (fuel : nat) (text : str) (chunk_size overlap start : Z)
    : outcome (list str) :=
  match fuel with
  | O => OutOfFuel
  | S fuel' =>
      if start <? len text then
        let '(chunk, end_) := window text chunk_size start in
        omap (cons chunk)
          (window_loop fuel' text chunk_size overlap (end_ - overlap))
      else Returns []
  end.

(** What a list of windows covers once the first [overlap] characters of every
    window after the first, which repeat the end of the window before, are left
    out. *)
Definition non_overlapping (overlap : Z) (windows : list str) : str :=
  match windows with
  | [] => []
  | w :: rest => w ++ List.concat (map (skipn (Z.to_nat overlap)) rest)
  end.

(** A 2500-character text whose only period sits at offset 1700. *)
Definition scenario_text : str :=
  repeat "a"%char 1700 ++ [period] ++ repeat "a"%char 799.

End Chunker.

Import Chunker.

(** ** pdf_parser.py: records, text extraction, classification, confidence *)

Module PdfParser.

Set Warnings "-inexact-float".

Definition rect : Type := float * float * float * float.

Record DocumentMetadata : Type := {
  title : str;
  author : str;
  subject : str;
  creator : str;
  producer : str;
  creation_date : str;
  modification_date : str;
  page_count : Z;
  file_size : Z
}.

Record FormField : Type := {
  field_name : str;
  field_type : str;
  field_value : str;
  coordinates : rect;
  page_number : Z
}.

Record TableData : Type := {
  table_text : str;
  table_data : list (list str);
  table_coordinates : rect;
  table_page_number : Z
}.

Record ImageInfo : Type := {
  image_page_number : Z;
  image_index : Z;
  width : Z;
  height : Z;
  colorspace : str;
  xref : Z
}.

Record ParsedDocument : Type := {
  metadata : DocumentMetadata;
  full_text : str;
  pages_text : list str;
  form_fields : list FormField;
  tables : list TableData;
  images_info : list ImageInfo;
  document_type : str;
  confidence_score : float
}.

(** [_extract_text]: the document is the list of what [page.get_text()] gives
    for its pages, in page order. *)
Definition _extract_text (doc : list str) : str * list str :=
  let '(full_text, pages_text) :=
    fold_left
      (fun '(full_text, pages_text) page_text =>
         (full_text ++ (page_text ++ [newline]), pages_text ++ [page_text]))
      doc ([], []) in
  (strip full_text, pages_text).

(** The registry of USCIS forms, in the order the dict literal lists them
    (the order [items()] iterates in). *)
Definition form_patterns : list (str * list str) :=
  [ (lit "I-130", [lit "i-130"; lit "petition for alien relative"]);
    (lit "I-485",
      [lit "i-485"; lit "application to register permanent residence"]);
    (lit "I-765",
      [lit "i-765"; lit "application for employment authorization"]);
    (lit "I-821D", [lit "i-821d"; lit "daca"; lit "deferred action"]);
    (lit "I-90",
      [lit "i-90"; lit "application to replace permanent resident card"]);
    (lit "N-400", [lit "n-400"; lit "application for naturalization"]);
    (lit "I-864", [lit "i-864"; lit "affidavit of support"]);
    (lit "I-693", [lit "i-693"; lit "report of medical examination"]);
    (lit "G-1145", [lit "g-1145"; lit "e-notification"]);
    (lit "I-131", [lit "i-131"; lit "application for travel document"]) ].

(** [any(pattern in text_lower for pattern in patterns)] *)
Definition any_pattern (text_lower : str) (patterns : list str) : bool :=
  existsb (fun pattern => contains text_lower pattern) patterns.

(** The [for form_type, patterns in ...items()] loop with its early return;
    [None] when the loop runs to its end. *)
Fixpoint first_form (registry : list (str * list str)) (text_lower : str)
    : option str :=
  match registry with
  | [] => None
  | (form_type, patterns) :: rest =>
      if any_pattern text_lower patterns then Some form_type
      else first_form rest text_lower
  end.

(** The [if]/[elif] chain of general document types. *)
Definition general_type (text_lower : str) : str :=
  if contains text_lower (lit "passport") then lit "Passport"
  else if contains text_lower (lit "birth certificate")
  then lit "Birth Certificate"
  else if contains text_lower (lit "marriage certificate")
  then lit "Marriage Certificate"
  else if contains text_lower (lit "divorce decree") then lit "Divorce Decree"
  else if contains text_lower (lit "employment")
          && contains text_lower (lit "authorization")
  then lit "Employment Authorization"
  else lit "Unknown Document".

Definition _classify_document (text : str) : str :=
  let text_lower := lower text in
  match first_form form_patterns text_lower with
  | Some form_type => form_type
  | None => general_type text_lower
  end.

(** Every label [_classify_document] has a [return] for. *)
Definition labels : list str :=
  map fst form_patterns
  ++ [lit "Passport"; lit "Birth Certificate"; lit "Marriage Certificate";
      lit "Divorce Decree"; lit "Employment Authorization";
      lit "Unknown Document"].

Definition _calculate_confidence (text : str) (form_fields : list FormField)
    (tables : list TableData) : float :=
  let score := 0.0%float in
  let score :=
    if len (strip text) >? 100 then (score + 0.3)%float else score in
  let score := if truthy form_fields then (score + 0.2)%float else score in
  let score := if truthy tables then (score + 0.2)%float else score in
  let score :=
    if negb (str_eqb (_classify_document text) (lit "Unknown Document"))
    then (score + 0.3)%float else score in
  fmin score 1.0%float.

(** The additive model in the words of the specification: each signal that
    holds contributes its weight, the others nothing, and the sum is clamped
    to 1.0. *)
Definition weight (signal : bool) (w : float) : float :=
  if signal then w else 0%float.

Definition confidence_model (long_text has_fields has_tables classified : bool)
    : float :=
  fmin (weight long_text 0.3 + weight has_fields 0.2
        + weight has_tables 0.2 + weight classified 0.3)%float 1.0%float.

(** A score between 0 and 1, bounds included. *)
Definition in_unit_interval (x : float) : bool :=
  (PrimFloat.leb 0 x && PrimFloat.leb x 1)%float.

End PdfParser.

Import PdfParser.

(** ** llm_service.py: provider calls, JSON-shaped prompts, confidence *)

Module LlmService.

Set Warnings "-inexact-float,-register-all".

Inductive LLMProvider : Type := OPENAI | ANTHROPIC | LOCAL.

Record LLMResponse : Type := {
  content : str;
  provider : LLMProvider;
  model : str;
  tokens_used : Z;
  processing_time : float;
  confidence : float
}.

(** What [json.loads] builds and what the service returns as dicts and
    lists. A dict is the list of its items in insertion order. *)
Inductive json : Type :=
| JNull
| JBool (b : bool)
| JInt (n : Z)
| JFloat (x : float)
| JString (s : str)
| JArray (items : list json)
| JObject (items : list (str * json)).

(** What [json.loads] does with a text: it builds a value, it raises
    [json.JSONDecodeError], or it raises something else, which
    [except json.JSONDecodeError] does not catch ([RecursionError] on brackets
    nested too deep, [ValueError] on an integer of too many digits). *)
Inductive decoding : Type :=
| Decoded (value : json)
| JSONDecodeError
| DecoderError (exn : string).

(** A prompt is an f-string: a fixed template and the values put into it.
    The template is named by the constructor; the values are kept. *)
Inductive prompt : Type :=
| KeyInformationPrompt (document_type content : str)
| FormFieldPrompt (field_name field_type field_value document_type : str)
| FaqPrompt (document_type content : str).

(** One request sent to a provider: who is asked, what, and [max_tokens]. *)
Definition call : Type := LLMProvider * prompt * Z.

(** A step of the service: it reads and extends the list of requests sent so
    far, and returns or raises. *)
Definition M (A : Type) : Type := list call -> outcome A * list call.

Definition ret {A : Type} (v : A) : M A := fun sent => (Returns v, sent).

Definition raise {A : Type} (exn : string) : M A :=
  fun sent => (Raises exn, sent).

Definition bind {A B : Type} (m : M A) (k : A -> M B) : M B :=
  fun sent =>
    match m sent with
    | (Returns v, sent') => k v sent'
    | (Raises exn, sent') => (Raises exn, sent')
    | (OutOfFuel, sent') => (OutOfFuel, sent')
    end.

Notation "x <- m ;; k" := (bind m (fun x => k))
  (at level 61, m at next level, right associativity).

Section Service.

(** The provider behind the API: what it answers to a request, given the
    requests sent before; a text with the tokens it used, or an exception. *)
Variable remote : list call -> call -> outcome (str * Z).

(** [json.loads] *)
Variable json_loads : str -> decoding.

(** [self.provider] *)
Variable self_provider : LLMProvider.

(** The [try] / [except Exception: ... raise] around the API call lets the
    exception through unchanged. *)
Definition _call_openai (p : prompt) (max_tokens : Z) : M LLMResponse :=
  fun sent =>
    let request := (OPENAI, p, max_tokens) in
    (omap (fun '(text, tokens) =>
             {| content := text; provider := OPENAI; model := lit "gpt-4";
                tokens_used := tokens; processing_time := 0.0%float;
                confidence := 0.9%float |})
          (remote sent request),
     sent ++ [request]).

Definition _call_anthropic (p : prompt) (max_tokens : Z) : M LLMResponse :=
  fun sent =>
    let request := (ANTHROPIC, p, max_tokens) in
    (omap (fun '(text, tokens) =>
             {| content := text; provider := ANTHROPIC;
                model := lit "claude-3-sonnet-20240229";
                tokens_used := tokens; processing_time := 0.0%float;
                confidence := 0.9%float |})
          (remote sent request),
     sent ++ [request]).

Definition _call_llm (p : prompt) (max_tokens : Z) : M LLMResponse :=
  match self_provider with
  | OPENAI => _call_openai p max_tokens
  | ANTHROPIC => _call_anthropic p max_tokens
  | LOCAL => raise "ValueError"
  end.

Definition _extract_key_information (parsed_doc : ParsedDocument) : M json :=
  response <-
    _call_llm (KeyInformationPrompt (document_type parsed_doc)
                 (slice (full_text parsed_doc) 0 3000)) 800 ;;
  match json_loads (content response) with
  | Decoded value => ret value
  | JSONDecodeError =>
      ret (JObject [(lit "raw_response", JString (content response))])
  | DecoderError exn => raise exn
  end.

Definition generate_faq (parsed_doc : ParsedDocument) : M json :=
  response <-
    _call_llm (FaqPrompt (document_type parsed_doc)
                 (slice (full_text parsed_doc) 0 2000)) 800 ;;
  match json_loads (content response) with
  | Decoded value => ret value
  | JSONDecodeError =>
      ret (JArray [JObject [(lit "question", JString (lit "Error parsing FAQ"));
                            (lit "answer", JString (content response))]])
  | DecoderError exn => raise exn
  end.

(** The prompt built for one form field. *)
Definition field_prompt (doc_type : str) (field : FormField) : prompt :=
  FormFieldPrompt (field_name field) (field_type field) (field_value field)
    doc_type.

(** The dict appended for one form field. *)
Definition field_record (field : FormField) (guidance : str) : json :=
  JObject [(lit "field_name", JString (field_name field));
           (lit "field_type", JString (field_type field));
           (lit "guidance", JString guidance);
           (lit "page_number", JInt (page_number field))].

(** The [for field in parsed_doc.form_fields] loop. *)
Fixpoint analyze_fields_loop (doc_type : str) (fields : list FormField)
    (form_analysis : list json) : M (list json) :=
  match fields with
  | [] => ret form_analysis
  | field :: rest =>
      response <- _call_llm (field_prompt doc_type field) 300 ;;
      analyze_fields_loop doc_type rest
        (form_analysis ++ [field_record field (content response)])
  end.

Definition _analyze_form_fields (parsed_doc : ParsedDocument)
    : M (list json) :=
  if negb (truthy (form_fields parsed_doc)) then ret []
  else analyze_fields_loop (document_type parsed_doc)
         (form_fields parsed_doc) [].

End Service.

Definition _calculate_analysis_confidence (parsed_doc : ParsedDocument)
    (summary : str) (key_info : list (str * json)) : float :=
  let score := (confidence_score parsed_doc * 0.4)%float in
  let score := if len summary >? 200 then (score + 0.2)%float else score in
  let score :=
    if truthy key_info && (len key_info >? 3)
    then (score + 0.2)%float else score in
  let score :=
    if truthy (form_fields parsed_doc) then (score + 0.1)%float else score in
  let score :=
    if negb (str_eqb (document_type parsed_doc) (lit "Unknown Document"))
    then (score + 0.1)%float else score in
  fmin score 1.0%float.

(** The same score in the words of the specification: 0.4 times the parser's
    confidence, plus each boost whose condition holds, clamped to 1.0. *)
Definition plus_if (condition : bool) (boost score : float) : float :=
  if condition then (score + boost)%float else score.

Definition analysis_confidence_model (parser_confidence : float)
    (long_summary many_entries has_fields recognised : bool) : float :=
  fmin (plus_if recognised 0.1
          (plus_if has_fields 0.1
             (plus_if many_entries 0.2
                (plus_if long_summary 0.2 (0.4 * parser_confidence)%float))))
       1.0%float.

(** The records of a run in which the provider gave [guidances] for [fields],
    one after the other. *)
Definition records_of (fields : list FormField) (guidances : list str)
    : list json :=
  map (fun '(field, guidance) => field_record field guidance)
      (combine fields guidances).

(** The request [_analyze_form_fields] sends for one field. *)
Definition field_request (who : LLMProvider) (doc_type : str)
    (field : FormField) : call :=
  (who, field_prompt doc_type field, 300).

(** [guidance] is what the provider answered to the request for [field]. *)
Definition answered_with (remote : list call -> call -> outcome (str * Z))
    (who : LLMProvider) (doc_type : str) (field : FormField) (guidance : str)
    : Prop :=
  exists sent tokens,
    remote sent (field_request who doc_type field) = Returns (guidance, tokens).

(** A provider that answers every request with the same text. *)
Definition constant_remote (answer : str) (tokens : Z)
    : list call -> call -> outcome (str * Z) :=
  fun _ _ => Returns (answer, tokens).

(** A decoder that accepts nothing, as [json.loads] does on text that is not
    JSON. *)
Definition reject_all : str -> decoding := fun _ => JSONDecodeError.

Definition blank_metadata : DocumentMetadata :=
  {| title := []; author := []; subject := []; creator := []; producer := [];
     creation_date := []; modification_date := []; page_count := 1;
     file_size := 0 |}.

Definition sample_field (name : string) (page : Z) : FormField :=
  {| field_name := lit name; field_type := lit "Text"; field_value := [];
     coordinates := (0, 0, 0, 0)%float; page_number := page |}.

(** A one-page I-130 with two text fields. *)
Definition sample_doc : ParsedDocument :=
  {| metadata := blank_metadata;
     full_text := lit "Form I-130";
     pages_text := [lit "Form I-130"];
     form_fields := [sample_field "family_name" 1; sample_field "given_name" 1];
     tables := [];
     images_info := [];
     document_type := lit "I-130";
     confidence_score := 0.5%float |}.

End LlmService.

Import LlmService.

(** ** More of the Python operations *)

From Stdlib Require Import DecimalString.

Module PyMore.

(** Neither the first nor the last character is whitespace. *)
Definition trimmed (s : str) : bool :=
  match s with
  | [] => true
  | c :: _ => negb (isspace c) && negb (isspace (last s c))
  end.

(** [s.split(sep)] for a one-character [sep] *)
Fixpoint split (s : str) (sep : ascii) : list str :=
  match s with
  | [] => [[]]
  | c :: s' =>
      if Ascii.eqb c sep then [] :: split s' sep
      else match split s' sep with
           | [] => [[c]]
           | part :: parts => (c :: part) :: parts
           end
  end.

(** [s.endswith(suffix)] *)
Definition endswith (s suffix : str) : bool :=
  startswith (rev s) (rev suffix).

(** [a or b] for an [a] that is [None] or a string *)
Definition or_else (a : option str) (b : str) : str :=
  match a with
  | Some (c :: s) => c :: s
  | _ => b
  end.

(** [str(n)] for an integer *)
Definition decimal (n : Z) : str :=
  list_ascii_of_string (NilEmpty.string_of_int (Z.to_int n)).

(** [d.get(key, default)] on a dict held as the list of its items *)
Fixpoint dict_get {V : Type} (d : list (str * V)) (key : str) (default : V)
    : V :=
  match d with
  | [] => default
  | (k, v) :: d' => if str_eqb k key then v else dict_get d' key default
  end.

(** [d.get(key)]: [None] for a missing key *)
Fixpoint dict_find {V : Type} (d : list (str * V)) (key : str) : option V :=
  match d with
  | [] => None
  | (k, v) :: d' => if str_eqb k key then Some v else dict_find d' key
  end.

(** [d[key] = value]: a key already there keeps its place and takes the new
    value, a new key goes to the end. *)
Fixpoint dict_set {V : Type} (d : list (str * V)) (key : str) (value : V)
    : list (str * V) :=
  match d with
  | [] => [(key, value)]
  | (k, v) :: d' =>
      if str_eqb k key then (k, value) :: d'
      else (k, v) :: dict_set d' key value
  end.

End PyMore.

Import PyMore.

(** ** pdf_parser.py: what is read from the PDF libraries *)

Module Extraction.

Set Warnings "-inexact-float".

Definition tab : ascii := "009"%char.

(** A form widget as PyMuPDF hands it over; a name or a value may be [None]. *)
Record Widget : Type := {
  w_field_name : option str;
  w_field_type_string : str;
  w_field_value : option str;
  w_rect : rect
}.

(** A [fitz.Pixmap]: components per pixel, alpha flag, size, colorspace. *)
Record Pixmap : Type := {
  pix_n : Z;
  pix_alpha : Z;
  pix_width : Z;
  pix_height : Z;
  pix_colorspace : option str
}.

(** An entry of [page.get_images()]: its xref ([img[0]]) and the pixmap built
    from it. *)
Record Image : Type := {
  img_xref : Z;
  img_pixmap : Pixmap
}.

Record Page : Type := {
  get_text : str;
  widgets : list Widget;
  get_images : list Image
}.

(** An open [fitz.Document]: its metadata dict and its pages;
    [doc.page_count] is the number of pages. *)
Record Document : Type := {
  doc_metadata : list (str * str);
  doc_pages : list Page
}.

Definition doc_page_count (doc : Document) : Z := len (doc_pages doc).

Definition _extract_metadata (doc : Document) : DocumentMetadata :=
  let metadata := doc_metadata doc in
  {| title := dict_get metadata (lit "title") [];
     author := dict_get metadata (lit "author") [];
     subject := dict_get metadata (lit "subject") [];
     creator := dict_get metadata (lit "creator") [];
     producer := dict_get metadata (lit "producer") [];
     creation_date := dict_get metadata (lit "creationDate") [];
     modification_date := dict_get metadata (lit "modDate") [];
     page_count := doc_page_count doc;
     file_size := 0 |}.

(** The inner [for widget in widgets] loop of [_extract_form_fields]. *)
Fixpoint page_form_fields (page_num : Z) (page_widgets : list Widget)
    (form_fields : list FormField) : list FormField :=
  match page_widgets with
  | [] => form_fields
  | widget :: rest =>
      let field :=
        {| field_name :=
             or_else (w_field_name widget)
               (lit "field_" ++ decimal (len form_fields));
           field_type := w_field_type_string widget;
           field_value := or_else (w_field_value widget) [];
           coordinates := w_rect widget;
           page_number := page_num + 1 |} in
      page_form_fields page_num rest (form_fields ++ [field])
  end.

(** The outer [for page_num in range(doc.page_count)] loop. *)
Fixpoint pages_form_fields (page_num : Z) (pages : list Page)
    (form_fields : list FormField) : list FormField :=
  match pages with
  | [] => form_fields
  | page :: rest =>
      pages_form_fields (page_num + 1) rest
        (page_form_fields page_num (widgets page) form_fields)
  end.

Definition _extract_form_fields (doc : Document) : list FormField :=
  pages_form_fields 0 (doc_pages doc) [].

(** The [for img_index, img in enumerate(image_list)] loop. *)
Fixpoint page_images_info (page_num img_index : Z) (image_list : list Image)
    (images_info : list ImageInfo) : list ImageInfo :=
  match image_list with
  | [] => images_info
  | img :: rest =>
      let xref := img_xref img in
      let pix := img_pixmap img in
      page_images_info page_num (img_index + 1) rest
        (if pix_n pix - pix_alpha pix <? 4
         then images_info ++
              [{| image_page_number := page_num + 1;
                  image_index := img_index;
                  width := pix_width pix;
                  height := pix_height pix;
                  colorspace :=
                    match pix_colorspace pix with
                    | Some name => name
                    | None => lit "Unknown"
                    end;
                  xref := xref |}]
         else images_info)
  end.

Fixpoint pages_images_info (page_num : Z) (pages : list Page)
    (images_info : list ImageInfo) : list ImageInfo :=
  match pages with
  | [] => images_info
  | page :: rest =>
      pages_images_info (page_num + 1) rest
        (page_images_info page_num 0 (get_images page) images_info)
  end.

Definition _extract_images_info (doc : Document) : list ImageInfo :=
  pages_images_info 0 (doc_pages doc) [].

(** A table as pdfplumber gives it: rows of cells, a cell being a string or
    [None]. *)
Definition raw_table : Type := list (list (option str)).

(** The cells of a row when all of them are strings; [None] when
    [sep.join(row)] raises [TypeError] on a cell that is [None]. *)
Fixpoint row_cells (row : list (option str)) : option (list str) :=
  match row with
  | [] => Some []
  | None :: _ => None
  | Some cell :: rest =>
      match row_cells rest with
      | Some cells => Some (cell :: cells)
      | None => None
      end
  end.

Fixpoint table_rows (table : raw_table) : option (list (list str)) :=
  match table with
  | [] => Some []
  | row :: rest =>
      match row_cells row, table_rows rest with
      | Some cells, Some rows => Some (cells :: rows)
      | _, _ => None
      end
  end.

(** The [for table in page_tables] loop inside the [try]: the tables gathered
    and whether the loop ran to its end ([false]: an exception left it). *)
Fixpoint page_tables_loop (page_num : Z) (page_tables : list raw_table)
    (tables : list TableData) : list TableData * bool :=
  match page_tables with
  | [] => (tables, true)
  | table :: rest =>
      if truthy table && (len table >? 1) then
        match table_rows table with
        | Some rows =>
            page_tables_loop page_num rest
              (tables ++
               [{| table_text := join [newline] (map (join [tab]) rows);
                   table_data := rows;
                   table_coordinates := (0, 0, 0, 0)%float;
                   table_page_number := page_num + 1 |}])
        | None => (tables, false)
        end
      else page_tables_loop page_num rest tables
  end.

(** The [for page_num, page in enumerate(pdf.pages)] loop; a page whose
    [extract_tables()] raises ends it. *)
Fixpoint pdf_tables_loop (page_num : Z)
    (pages : list (outcome (list raw_table))) (tables : list TableData)
    : list TableData :=
  match pages with
  | [] => tables
  | Returns page_tables :: rest =>
      let '(tables', finished) :=
        page_tables_loop page_num page_tables tables in
      if finished then pdf_tables_loop (page_num + 1) rest tables'
      else tables'
  | _ :: _ => tables
  end.

(** [_extract_tables] and [_extract_tables_from_bytes]: [pdf] is what
    [pdfplumber.open] does, and for each page what [extract_tables()] does.
    The [except] clause logs, and the tables gathered so far are returned. *)
Definition _extract_tables (pdf : outcome (list (outcome (list raw_table))))
    : list TableData :=
  match pdf with
  | Returns pages => pdf_tables_loop 0 pages []
  | _ => []
  end.

(** [parse_pdf] and [parse_pdf_from_bytes]: [opened] is what [fitz.open]
    does. The [except] clause logs and raises again. *)
Definition parse_pdf (opened : outcome Document)
    (pdf : outcome (list (outcome (list raw_table))))
    : outcome ParsedDocument :=
  match opened with
  | Returns doc =>
      let metadata := _extract_metadata doc in
      let '(full_text, pages_text) :=
        _extract_text (map get_text (doc_pages doc)) in
      let form_fields := _extract_form_fields doc in
      let tables := _extract_tables pdf in
      let images_info := _extract_images_info doc in
      let document_type := _classify_document full_text in
      let confidence_score :=
        _calculate_confidence full_text form_fields tables in
      Returns {| metadata := metadata;
                 full_text := full_text;
                 pages_text := pages_text;
                 form_fields := form_fields;
                 tables := tables;
                 images_info := images_info;
                 document_type := document_type;
                 confidence_score := confidence_score |}
  | Raises exn => Raises exn
  | OutOfFuel => OutOfFuel
  end.

(** What the fields of a document satisfy: a name that is not empty and a
    page number between [lo] and [hi]. *)
Definition field_ok (lo hi : Z) (field : FormField) : Prop :=
  field_name field <> [] /\ lo <= page_number field <= hi.

(** The test that keeps an image: gray or RGB. *)
Definition kept_image (img : Image) : bool :=
  pix_n (img_pixmap img) - pix_alpha (img_pixmap img) <? 4.

(** What the tables kept satisfy: more than one row, the placeholder box, a
    page number between 1 and [hi], and a text that is the rows joined by
    newlines, the cells of a row by tabs. *)
Definition table_ok (hi : Z) (table : TableData) : Prop :=
  len (table_data table) > 1
  /\ table_coordinates table = (0, 0, 0, 0)%float
  /\ 1 <= table_page_number table <= hi
  /\ table_text table
     = join [newline] (map (join [tab]) (table_data table)).

(** A table on which the loop raises: it passes the test on its rows and has
    a cell that is [None]. *)
Definition poisoned (table : raw_table) : bool :=
  truthy table && (len table >? 1)
  && match table_rows table with None => true | Some _ => false end.

(** Tables whose cells are all strings, as pdfplumber would hand them over,
    on pages none of which raises. *)
Definition clean_pdf (pages : list (list (list (list str))))
    : outcome (list (outcome (list raw_table))) :=
  Returns (map (fun page_tables =>
                  Returns (map (map (map (@Some str))) page_tables)) pages).

(** The dict [get_document_summary] returns. *)
Record DocumentSummary : Type := {
  summary_document_type : str;
  summary_page_count : Z;
  form_fields_count : Z;
  tables_count : Z;
  images_count : Z;
  text_length : Z;
  summary_confidence_score : float;
  has_form_fields : bool;
  has_tables : bool;
  has_images : bool
}.

Definition get_document_summary (parsed_doc : ParsedDocument)
    : DocumentSummary :=
  {| summary_document_type := document_type parsed_doc;
     summary_page_count := page_count (metadata parsed_doc);
     form_fields_count := len (form_fields parsed_doc);
     tables_count := len (tables parsed_doc);
     images_count := len (images_info parsed_doc);
     text_length := len (full_text parsed_doc);
     summary_confidence_score := confidence_score parsed_doc;
     has_form_fields := len (form_fields parsed_doc) >? 0;
     has_tables := len (tables parsed_doc) >? 0;
     has_images := len (images_info parsed_doc) >? 0 |}.




(** A document with two pages, three widgets (one unnamed) and an image. *)
Definition sample_widget (name : option str) : Widget :=
  {| w_field_name := name; w_field_type_string := lit "Text";
     w_field_value := None; w_rect := (0, 0, 10, 10)%float |}.

Definition sample_document : Document :=
  {| doc_metadata := [(lit "title", lit "I-130")];
     doc_pages :=
       [ {| get_text := lit " Form I-130 ";
            widgets := [sample_widget (Some (lit "family_name"));
                        sample_widget None];
            get_images := [] |};
         {| get_text := lit "Petition for Alien Relative";
            widgets := [sample_widget (Some [])];
            get_images :=
              [{| img_xref := 7;
                  img_pixmap :=
                    {| pix_n := 3; pix_alpha := 0; pix_width := 64;
                       pix_height := 48; pix_colorspace := None |} |}] |} ]
  |}.

(** Tables of two pages: a one-row table, a two-row table, then a table with
    an empty cell. *)
Definition sample_tables : outcome (list (outcome (list raw_table))) :=
  Returns
    [ Returns [[[Some (lit "a"); Some (lit "b")]];
               [[Some (lit "a"); Some (lit "b")];
                [Some (lit "c"); Some (lit "d")]]];
      Returns [[[Some (lit "x")]; [None]]] ].

End Extraction.

Import Extraction.

(** ** llm_service.py: the other operations and the comprehensive analysis *)

Module Orchestration.

Set Warnings "-inexact-float".

Record DocumentAnalysis : Type := {
  analysis_summary : str;
  key_information : json;
  form_fields_analysis : list json;
  recommendations : list str;
  questions_answered : list (str * str);
  analysis_confidence_score : float
}.

(** [bool(v)] of a decoded JSON value *)
Definition py_truthy (v : json) : bool :=
  match v with
  | JNull => false
  | JBool b => b
  | JInt n => negb (n =? 0)
  | JFloat x => negb (PrimFloat.eqb x 0)
  | JString s => truthy s
  | JArray items => truthy items
  | JObject items => truthy items
  end.

(** [len(v)] of a decoded JSON value: a number, a boolean and [None] have no
    length. *)
Definition py_len (v : json) : outcome Z :=
  match v with
  | JString s => Returns (len s)
  | JArray items => Returns (len items)
  | JObject items => Returns (len items)
  | _ => Raises "TypeError"
  end.

(** [_calculate_analysis_confidence] as [analyze_document] calls it: on the
    value [_extract_key_information] returned, which is whatever [json.loads]
    decoded. The test [key_info and len(key_info) > 3] takes the length only of
    a value that is truthy. *)
Definition _calculate_analysis_confidence_on (parsed_doc : ParsedDocument)
    (summary : str) (key_info : json) : outcome float :=
  let score := (confidence_score parsed_doc * 0.4)%float in
  let score := if len summary >? 200 then (score + 0.2)%float else score in
  match (if py_truthy key_info
         then omap (fun n => n >? 3) (py_len key_info)
         else Returns false) with
  | Returns many =>
      let score := if many then (score + 0.2)%float else score in
      let score :=
        if truthy (form_fields parsed_doc)
        then (score + 0.1)%float else score in
      let score :=
        if negb (str_eqb (document_type parsed_doc) (lit "Unknown Document"))
        then (score + 0.1)%float else score in
      Returns (fmin score 1.0%float)
  | Raises exn => Raises exn
  | OutOfFuel => OutOfFuel
  end.

(** A step keeps to a plan of requests: whatever happens it has sent the
    first few requests of the plan and nothing else, and when it returns it
    has sent them all. *)
Definition sends {A : Type} (plan : list call) (m : M A) : Prop :=
  forall sent,
    (exists k, snd (m sent) = sent ++ firstn k plan)
    /\ (forall v, fst (m sent) = Returns v -> snd (m sent) = sent ++ plan).

(** A step that only computes. *)
Definition of_outcome {A : Type} (o : outcome A) : M A := fun sent => (o, sent).

(** [_setup_provider]: [getenv] is [os.getenv]; a key that is missing or empty
    is refused. *)
Definition _setup_provider (who : LLMProvider) (getenv : str -> option str)
    : outcome unit :=
  match who with
  | OPENAI =>
      match getenv (lit "OPENAI_API_KEY") with
      | Some (_ :: _) => Returns tt
      | _ => Raises "ValueError"
      end
  | ANTHROPIC =>
      match getenv (lit "ANTHROPIC_API_KEY") with
      | Some (_ :: _) => Returns tt
      | _ => Raises "ValueError"
      end
  | LOCAL => Returns tt
  end.

Section Analysis.

Variable remote : list call -> call -> outcome (str * Z).
Variable json_loads : str -> decoding.
Variable self_provider : LLMProvider.

(** The prompts of the operations below. What they say plays no part in what
    is proved here, so each is left open: any prompt built from the document,
    and from the question or the language where there is one. *)
Variable summary_prompt : ParsedDocument -> prompt.
Variable recommendations_prompt : ParsedDocument -> prompt.
Variable question_prompt : ParsedDocument -> str -> prompt.
Variable translation_prompt : ParsedDocument -> str -> prompt.
Variable simplify_prompt : ParsedDocument -> prompt.

Definition _generate_summary (parsed_doc : ParsedDocument) : M str :=
  response <- _call_llm remote self_provider (summary_prompt parsed_doc) 1000 ;;
  ret (content response).

Definition _generate_recommendations (parsed_doc : ParsedDocument)
    : M (list str) :=
  response <-
    _call_llm remote self_provider (recommendations_prompt parsed_doc) 600 ;;
  ret (split (content response) newline).

Definition _answer_question (parsed_doc : ParsedDocument) (question : str)
    : M str :=
  response <-
    _call_llm remote self_provider (question_prompt parsed_doc question) 400 ;;
  ret (content response).

Definition translate_document (parsed_doc : ParsedDocument)
    (target_language : str) : M str :=
  response <-
    _call_llm remote self_provider
      (translation_prompt parsed_doc target_language) 1000 ;;
  ret (content response).

Definition simplify_language (parsed_doc : ParsedDocument) : M str :=
  response <-
    _call_llm remote self_provider (simplify_prompt parsed_doc) 1000 ;;
  ret (content response).

(** The [for question in questions] loop of [analyze_document]. *)
Fixpoint answer_questions (parsed_doc : ParsedDocument) (questions : list str)
    (answered : list (str * str)) : M (list (str * str)) :=
  match questions with
  | [] => ret answered
  | question :: rest =>
      answer <- _answer_question parsed_doc question ;;
      answer_questions parsed_doc rest (dict_set answered question answer)
  end.

(** [analyze_document]; [questions] is [None] or a list. The [except] clause
    logs and raises again. *)
Definition analyze_document (parsed_doc : ParsedDocument)
    (questions : option (list str)) : M DocumentAnalysis :=
  summary <- _generate_summary parsed_doc ;;
  key_info <-
    _extract_key_information remote json_loads self_provider parsed_doc ;;
  form_analysis <- _analyze_form_fields remote self_provider parsed_doc ;;
  recs <- _generate_recommendations parsed_doc ;;
  answered <-
    match questions with
    | Some (question :: rest) =>
        answer_questions parsed_doc (question :: rest) []
    | _ => ret []
    end ;;
  confidence <-
    of_outcome (_calculate_analysis_confidence_on parsed_doc summary key_info) ;;
  ret {| analysis_summary := summary;
         key_information := key_info;
         form_fields_analysis := form_analysis;
         recommendations := recs;
         questions_answered := answered;
         analysis_confidence_score := confidence |}.

(** The requests of a comprehensive analysis, in the order the source makes
    them. *)
Definition analysis_plan (parsed_doc : ParsedDocument)
    (questions : option (list str)) : list call :=
  [(self_provider, summary_prompt parsed_doc, 1000);
   (self_provider,
    KeyInformationPrompt (document_type parsed_doc)
      (slice (full_text parsed_doc) 0 3000), 800)]
  ++ map (field_request self_provider (document_type parsed_doc))
       (form_fields parsed_doc)
  ++ [(self_provider, recommendations_prompt parsed_doc, 600)]
  ++ map (fun question =>
            (self_provider, question_prompt parsed_doc question, 400))
       (match questions with Some qs => qs | None => [] end).

End Analysis.

(** A provider that answers the first [n] requests and then fails. *)
Definition failing_after (n : nat) (answer : str)
    : list call -> call -> outcome (str * Z) :=
  fun sent _ =>
    if (List.length sent <? n)%nat then Returns (answer, 1)
    else Raises "ProviderError".

(** Stand-ins for the prompts left open, for the examples. *)
Definition sample_prompt (tag : string) (parsed_doc : ParsedDocument)
    : prompt :=
  FaqPrompt (lit tag) (document_type parsed_doc).

Definition sample_question_prompt (parsed_doc : ParsedDocument)
    (question : str) : prompt :=
  FaqPrompt question (document_type parsed_doc).

End Orchestration.

Import Orchestration.

(** ** api.py: the handlers around the two caches *)

Module Api.

Set Warnings "-inexact-float".

(** [del d[key]] on a dict held as the list of its items *)
Definition dict_del {V : Type} (d : list (str * V)) (key : str)
    : list (str * V) :=
  filter (fun item => negb (str_eqb (fst item) key)) d.

(** What a handler can raise: an [HTTPException] with its status code, or any
    other exception. The detail text is left out. *)
Inductive raised : Type :=
| HTTPException (status_code : Z)
| OtherException (exn : string).

(** What a handler does: it answers, it raises, or it is still waiting for a
    provider that never answers. *)
Inductive attempt (A : Type) : Type :=
| Done (body : A)
| Raised (e : raised)
| Unfinished.

Arguments Done {A} body.
Arguments Raised {A} e.
Arguments Unfinished {A}.

(** [except Exception as e: raise HTTPException(status_code=500, ...)] around
    a handler's body: [HTTPException] is an [Exception] too. *)
Definition reraise_500 {A : Type} (body : attempt A) : attempt A :=
  match body with
  | Raised _ => Raised (HTTPException 500)
  | other => other
  end.

(** An entry of [document_cache]. *)
Record DocumentEntry : Type := {
  entry_parsed_doc : ParsedDocument;
  entry_filename : str;
  entry_upload_time : str;
  entry_file_size : Z
}.

(** What an analysis holds, by analysis type. *)
Inductive analysis_data : Type :=
| ComprehensiveData (analysis : DocumentAnalysis)
| SummaryData (summary : str)
| AnswersData (answered : list (str * str)).

(** An entry of [analysis_cache]. *)
Record AnalysisEntry : Type := {
  entry_document_id : str;
  entry_analysis_type : str;
  entry_analysis_data : analysis_data;
  entry_timestamp : str
}.

(** The two module-level dicts. *)
Record Caches : Type := {
  document_cache : list (str * DocumentEntry);
  analysis_cache : list (str * AnalysisEntry)
}.

Record DocumentUploadResponse : Type := {
  upload_document_id : str;
  upload_status : str;
  upload_message : str;
  upload_document_type : str;
  upload_page_count : Z;
  upload_confidence_score : float
}.

(** [upload_pdf]: [document_id] is what [uuid.uuid4()] gave, [now] what
    [datetime.now().isoformat()] gave, [content] the bytes read from the
    file. *)
Definition upload_pdf (parse_pdf_from_bytes : str -> outcome ParsedDocument)
    (document_id now : str) (file_name content : str) (st : Caches)
    : attempt DocumentUploadResponse * Caches :=
  let '(body, st') :=
    if negb (endswith (lower file_name) (lit ".pdf"))
    then (Raised (HTTPException 400), st)
    else if len content >? 50 * 1024 * 1024
    then (Raised (HTTPException 400), st)
    else
      match parse_pdf_from_bytes content with
      | Returns parsed_doc =>
          (Done {| upload_document_id := document_id;
                   upload_status := lit "success";
                   upload_message :=
                     lit "Document uploaded and parsed successfully";
                   upload_document_type := document_type parsed_doc;
                   upload_page_count := page_count (metadata parsed_doc);
                   upload_confidence_score := confidence_score parsed_doc |},
           {| document_cache :=
                dict_set (document_cache st) document_id
                  {| entry_parsed_doc := parsed_doc;
                     entry_filename := file_name;
                     entry_upload_time := now;
                     entry_file_size := len content |};
              analysis_cache := analysis_cache st |})
      | Raises exn => (Raised (OtherException exn), st)
      | OutOfFuel => (Unfinished, st)
      end in
  (reraise_500 body, st').

Record DocumentStatus : Type := {
  status_document_id : str;
  status_filename : str;
  status_upload_time : str;
  status_file_size : Z;
  status_document_type : str;
  status_page_count : Z;
  status_confidence_score : float;
  status_summary : DocumentSummary;
  status_has_form_fields : bool;
  status_has_tables : bool;
  status_has_images : bool
}.

Definition get_document_status (document_id : str) (st : Caches)
    : attempt DocumentStatus :=
  reraise_500
    match dict_find (document_cache st) document_id with
    | None => Raised (HTTPException 404)
    | Some doc_info =>
        let parsed_doc := entry_parsed_doc doc_info in
        Done {| status_document_id := document_id;
                status_filename := entry_filename doc_info;
                status_upload_time := entry_upload_time doc_info;
                status_file_size := entry_file_size doc_info;
                status_document_type := document_type parsed_doc;
                status_page_count := page_count (metadata parsed_doc);
                status_confidence_score := confidence_score parsed_doc;
                status_summary := get_document_summary parsed_doc;
                status_has_form_fields := len (form_fields parsed_doc) >? 0;
                status_has_tables := len (tables parsed_doc) >? 0;
                status_has_images := len (images_info parsed_doc) >? 0 |}
    end.

(** [delete_document]: the document goes, then every analysis of it. *)
Definition delete_document (document_id : str) (st : Caches)
    : attempt unit * Caches :=
  let '(body, st') :=
    match dict_find (document_cache st) document_id with
    | None => (Raised (HTTPException 404), st)
    | Some _ =>
        let documents := dict_del (document_cache st) document_id in
        let analyses_to_remove :=
          map fst
            (filter (fun item =>
                       str_eqb (entry_document_id (snd item)) document_id)
               (analysis_cache st)) in
        let analyses :=
          fold_left (fun cache analysis_id => dict_del cache analysis_id)
            analyses_to_remove (analysis_cache st) in
        (Done tt, {| document_cache := documents;
                     analysis_cache := analyses |})
    end in
  (reraise_500 body, st').

Record QuestionResponse : Type := {
  answer : str;
  question_confidence : float;
  source : str
}.

Record AnalysisRequest : Type := {
  request_document_id : str;
  request_questions : option (list str);
  request_analysis_type : str
}.

Record AnalysisResponse : Type := {
  analysis_id : str;
  response_document_id : str;
  response_status : str;
  response_analysis : option analysis_data;
  response_error : option raised
}.

Section Handlers.

(** The provider, [json.loads] and the prompts of the service; the module
    builds its service for OPENAI. *)
Variable remote : list call -> call -> outcome (str * Z).
Variable json_loads : str -> decoding.
Variable summary_prompt : ParsedDocument -> prompt.
Variable recommendations_prompt : ParsedDocument -> prompt.
Variable question_prompt : ParsedDocument -> str -> prompt.

(** A step of the service seen from a handler's [try] body. *)
Definition awaited {A : Type} (m : M A) (sent : list call)
    : attempt A * list call :=
  match m sent with
  | (Returns v, sent') => (Done v, sent')
  | (Raises exn, sent') => (Raised (OtherException exn), sent')
  | (OutOfFuel, sent') => (Unfinished, sent')
  end.

Definition ask_question (document_id question : str) (st : Caches)
    (sent : list call) : attempt QuestionResponse * list call :=
  let '(body, sent') :=
    match dict_find (document_cache st) document_id with
    | None => (Raised (HTTPException 404), sent)
    | Some doc_info =>
        let parsed_doc := entry_parsed_doc doc_info in
        match awaited (_answer_question remote OPENAI question_prompt
                         parsed_doc question) sent with
        | (Done text, sent') =>
            (Done {| answer := text;
                     question_confidence :=
                       (confidence_score parsed_doc * 0.8)%float;
                     source := lit "document_analysis" |}, sent')
        | (Raised e, sent') => (Raised e, sent')
        | (Unfinished, sent') => (Unfinished, sent')
        end
    end in
  (reraise_500 body, sent').

(** The [if]/[elif] chain of [analyze_document] on the analysis type. *)
Definition perform_analysis (request : AnalysisRequest)
    (parsed_doc : ParsedDocument) (sent : list call)
    : attempt analysis_data * list call :=
  if str_eqb (request_analysis_type request) (lit "comprehensive") then
    match awaited (Orchestration.analyze_document remote json_loads OPENAI
                     summary_prompt recommendations_prompt question_prompt
                     parsed_doc (request_questions request)) sent with
    | (Done analysis, sent') => (Done (ComprehensiveData analysis), sent')
    | (Raised e, sent') => (Raised e, sent')
    | (Unfinished, sent') => (Unfinished, sent')
    end
  else if str_eqb (request_analysis_type request) (lit "summary") then
    match awaited (_generate_summary remote OPENAI summary_prompt parsed_doc)
            sent with
    | (Done summary, sent') => (Done (SummaryData summary), sent')
    | (Raised e, sent') => (Raised e, sent')
    | (Unfinished, sent') => (Unfinished, sent')
    end
  else
    match request_questions request with
    | Some (question :: rest) =>
        if str_eqb (request_analysis_type request) (lit "qa") then
          match awaited (answer_questions remote OPENAI question_prompt
                           parsed_doc (question :: rest) []) sent with
          | (Done answered, sent') => (Done (AnswersData answered), sent')
          | (Raised e, sent') => (Raised e, sent')
          | (Unfinished, sent') => (Unfinished, sent')
          end
        else (Raised (HTTPException 400), sent)
    | _ => (Raised (HTTPException 400), sent)
    end.

(** [analyze_document] of api.py: [new_id] is what [uuid.uuid4()] gave. Its
    [except] clause answers with an error response instead of raising. *)
Definition analyze_document (request : AnalysisRequest) (new_id now : str)
    (st : Caches) (sent : list call)
    : attempt AnalysisResponse * Caches * list call :=
  let '(body, st', sent') :=
    match dict_find (document_cache st) (request_document_id request) with
    | None => (Raised (HTTPException 404), st, sent)
    | Some doc_info =>
        match perform_analysis request (entry_parsed_doc doc_info) sent with
        | (Done data, sent') =>
            (Done {| analysis_id := new_id;
                     response_document_id := request_document_id request;
                     response_status := lit "completed";
                     response_analysis := Some data;
                     response_error := None |},
             {| document_cache := document_cache st;
                analysis_cache :=
                  dict_set (analysis_cache st) new_id
                    {| entry_document_id := request_document_id request;
                       entry_analysis_type := request_analysis_type request;
                       entry_analysis_data := data;
                       entry_timestamp := now |} |},
             sent')
        | (Raised e, sent') => (Raised e, st, sent')
        | (Unfinished, sent') => (Unfinished, st, sent')
        end
    end in
  match body with
  | Raised e =>
      (Done {| analysis_id := [];
               response_document_id := request_document_id request;
               response_status := lit "error";
               response_analysis := None;
               response_error := Some e |}, st', sent')
  | other => (other, st', sent')
  end.

End Handlers.

(** A cache with one document and two analyses, one of them of that
    document. *)
Definition sample_entry : DocumentEntry :=
  {| entry_parsed_doc := sample_doc; entry_filename := lit "i130.pdf";
     entry_upload_time := lit "2024-01-01T00:00:00"; entry_file_size := 1024 |}.

Definition sample_analysis (doc_id : string) : AnalysisEntry :=
  {| entry_document_id := lit doc_id; entry_analysis_type := lit "summary";
     entry_analysis_data := SummaryData (lit "A petition.");
     entry_timestamp := lit "2024-01-01T00:00:01" |}.

Definition sample_caches : Caches :=
  {| document_cache := [(lit "doc-1", sample_entry)];
     analysis_cache := [(lit "an-1", sample_analysis "doc-1");
                        (lit "an-2", sample_analysis "doc-2")] |}.

End Api.

(** ** api_demo.py: the handlers that answer from canned analyses *)

Module ApiDemo.

Set Warnings "-inexact-float".

Definition strings (items : list str) : json :=
  JArray (map JString items).

(** The module-level dict of canned analyses, as the list of its items. *)
Definition MOCK_RESPONSES : list (str * list (str * json)) :=
  [ (lit "I-130",
     [ (lit "summary",
        JString (lit "Form I-130 is a Petition for Alien Relative. This form is used by U.S. citizens and lawful permanent residents to establish a qualifying relationship with a foreign national who wishes to immigrate to the United States."));
       (lit "key_information",
        JObject
          [ (lit "form_number", JString (lit "I-130"));
            (lit "deadlines",
             strings [lit "Submit within 30 days of qualifying event"]);
            (lit "required_documents",
             strings [lit "Birth certificates"; lit "Marriage certificates";
                      lit "Passport photos"]);
            (lit "fees", strings [lit "$535 filing fee"]);
            (lit "eligibility_requirements",
             strings [lit "Must be U.S. citizen or LPR";
                      lit "Must have qualifying relationship"]);
            (lit "processing_time", JString (lit "6-12 months")) ]);
       (lit "recommendations",
        strings [lit "Gather all required supporting documents before filing";
                 lit "Ensure all forms are completed accurately";
                 lit "Consider hiring an immigration attorney for complex cases";
                 lit "Keep copies of all submitted documents";
                 lit "Monitor case status online"]) ]);
    (lit "I-485",
     [ (lit "summary",
        JString (lit "Form I-485 is an Application to Register Permanent Residence or Adjust Status. This form allows eligible individuals to apply for a green card while remaining in the United States."));
       (lit "key_information",
        JObject
          [ (lit "form_number", JString (lit "I-485"));
            (lit "deadlines", strings [lit "File before current status expires"]);
            (lit "required_documents",
             strings [lit "I-693 medical exam"; lit "I-864 affidavit of support";
                      lit "Passport photos"]);
            (lit "fees", strings [lit "$1,140 filing fee"; lit "$85 biometrics fee"]);
            (lit "eligibility_requirements",
             strings [lit "Must be physically present in US";
                      lit "Must have qualifying basis"]);
            (lit "processing_time", JString (lit "8-14 months")) ]);
       (lit "recommendations",
        strings [lit "Complete medical examination before filing";
                 lit "Ensure all supporting documents are current";
                 lit "File concurrently with other required forms";
                 lit "Maintain valid status during processing";
                 lit "Prepare for biometrics appointment"]) ]);
    (lit "I-765",
     [ (lit "summary",
        JString (lit "Form I-765 is an Application for Employment Authorization Document (EAD). This form allows certain non-citizens to work legally in the United States."));
       (lit "key_information",
        JObject
          [ (lit "form_number", JString (lit "I-765"));
            (lit "deadlines",
             strings [lit "File 90 days before current EAD expires"]);
            (lit "required_documents",
             strings [lit "Passport photos"; lit "Current EAD (if renewing)";
                      lit "Supporting documents"]);
            (lit "fees", strings [lit "$410 filing fee"]);
            (lit "eligibility_requirements",
             strings [lit "Must have valid immigration status";
                      lit "Must be eligible for employment authorization"]);
            (lit "processing_time", JString (lit "3-5 months")) ]);
       (lit "recommendations",
        strings [lit "File renewal applications early";
                 lit "Include all required supporting documents";
                 lit "Keep track of expiration dates";
                 lit "Consider premium processing for urgent cases";
                 lit "Notify employer of status changes"]) ]) ].

(** An entry of the demo's [document_cache]. *)
Record DocumentInfo : Type := {
  info_filename : str;
  info_document_type : str;
  info_upload_time : str;
  info_page_count : Z;
  info_confidence_score : float
}.

(** An entry of the demo's [analysis_cache]. *)
Record AnalysisInfo : Type := {
  info_document_id : str;
  info_analysis_type : str;
  info_analysis_data : list (str * json);
  info_timestamp : str
}.

Record Caches : Type := {
  document_cache : list (str * DocumentInfo);
  analysis_cache : list (str * AnalysisInfo)
}.

Record DocumentUploadResponse : Type := {
  upload_document_id : str;
  upload_status : str;
  upload_message : str;
  upload_document_type : str;
  upload_page_count : Z;
  upload_confidence_score : float
}.

(** [upload_pdf] of the demo: nothing is read or parsed; the type comes from
    the file name. [document_id] is what [uuid.uuid4()] gave, [now] what
    [datetime.now().isoformat()] gave. *)
Definition upload_pdf (document_id now file_name : str) (st : Caches)
    : Api.attempt DocumentUploadResponse * Caches :=
  let '(body, st') :=
    if negb (endswith (lower file_name) (lit ".pdf"))
    then (Api.Raised (Api.HTTPException 400), st)
    else
      let document_type :=
        if contains (lower file_name) (lit "485") then lit "I-485"
        else if contains (lower file_name) (lit "765") then lit "I-765"
        else lit "I-130" in
      (Api.Done
         {| upload_document_id := document_id;
            upload_status := lit "success";
            upload_message :=
              lit "Document uploaded and parsed successfully (DEMO MODE)";
            upload_document_type := document_type;
            upload_page_count := 5;
            upload_confidence_score := 0.95%float |},
       {| document_cache :=
            dict_set (document_cache st) document_id
              {| info_filename := file_name;
                 info_document_type := document_type;
                 info_upload_time := now;
                 info_page_count := 5;
                 info_confidence_score := 0.95%float |};
          analysis_cache := analysis_cache st |}) in
  (Api.reraise_500 body, st').

(** The f-string stored for a question of an analysis. *)
Definition detailed_answer (document_type question : str) : str :=
  lit "Based on " ++ document_type
  ++ lit ", here's a detailed answer to your question: " ++ question
  ++ lit ". This is a mock response for demonstration purposes.".

(** The loop that fills [analysis_data["questions_answered"]]. *)
Definition answer_all (document_type : str) (questions : list str)
    : list (str * json) :=
  fold_left
    (fun answered question =>
       dict_set answered question
         (JString (detailed_answer document_type question)))
    questions [].

Record AnalysisResponse : Type := {
  analysis_id : str;
  response_document_id : str;
  response_status : str;
  response_analysis : option (list (str * json));
  response_error : option Api.raised
}.

(** [analyze_document] of the demo. The canned dict is copied, and the key
    "questions_answered" is set on the copy only, so [MOCK_RESPONSES] stays
    as it is. The [except] clause answers with an error response. *)
Definition analyze_document (request : Api.AnalysisRequest)
    (new_id now : str) (st : Caches)
    : Api.attempt AnalysisResponse * Caches :=
  let document_id := Api.request_document_id request in
  let '(body, st') :=
    match dict_find (document_cache st) document_id with
    | None => (Api.Raised (Api.HTTPException 404), st)
    | Some doc_info =>
        let document_type := info_document_type doc_info in
        match dict_find MOCK_RESPONSES (lit "I-130") with
        | None => (Api.Raised (Api.OtherException "KeyError"), st)
        | Some fallback =>
            let copied := dict_get MOCK_RESPONSES document_type fallback in
            let analysis_data :=
              match Api.request_questions request with
              | Some (question :: rest) =>
                  dict_set copied (lit "questions_answered")
                    (JObject (answer_all document_type (question :: rest)))
              | _ => copied
              end in
            (Api.Done {| analysis_id := new_id;
                         response_document_id := document_id;
                         response_status := lit "completed";
                         response_analysis := Some analysis_data;
                         response_error := None |},
             {| document_cache := document_cache st;
                analysis_cache :=
                  dict_set (analysis_cache st) new_id
                    {| info_document_id := document_id;
                       info_analysis_type :=
                         Api.request_analysis_type request;
                       info_analysis_data := analysis_data;
                       info_timestamp := now |} |})
        end
    end in
  match body with
  | Api.Raised e =>
      (Api.Done {| analysis_id := [];
                   response_document_id := document_id;
                   response_status := lit "error";
                   response_analysis := None;
                   response_error := Some e |}, st')
  | other => (other, st')
  end.

Record QuestionResponse : Type := {
  answer : str;
  question_confidence : float;
  source : str
}.

(** The f-string [ask_question] answers with. *)
Definition mock_answer (document_type question : str) : str :=
  lit "Based on the " ++ document_type
  ++ lit " document, here's my answer: " ++ question
  ++ lit ". This is a mock response demonstrating how the AI would analyze your document and provide helpful guidance.".

Definition ask_question (document_id question : str) (st : Caches)
    : Api.attempt QuestionResponse :=
  Api.reraise_500
    match dict_find (document_cache st) document_id with
    | None => Api.Raised (Api.HTTPException 404)
    | Some doc_info =>
        Api.Done
          {| answer := mock_answer (info_document_type doc_info) question;
             question_confidence := 0.9%float;
             source := lit "mock_document_analysis" |}
    end.

Record DocumentStatus : Type := {
  status_document_id : str;
  status_filename : str;
  status_upload_time : str;
  status_document_type : str;
  status_page_count : Z;
  status_confidence_score : float;
  status_status : str;
  status_mode : str
}.

Definition get_document_status (document_id : str) (st : Caches)
    : Api.attempt DocumentStatus :=
  Api.reraise_500
    match dict_find (document_cache st) document_id with
    | None => Api.Raised (Api.HTTPException 404)
    | Some doc_info =>
        Api.Done {| status_document_id := document_id;
                    status_filename := info_filename doc_info;
                    status_upload_time := info_upload_time doc_info;
                    status_document_type := info_document_type doc_info;
                    status_page_count := info_page_count doc_info;
                    status_confidence_score := info_confidence_score doc_info;
                    status_status := lit "processed";
                    status_mode := lit "DEMO" |}
    end.

(** The caches of a server that has just started. *)
Definition empty_caches : Caches :=
  {| document_cache := []; analysis_cache := [] |}.

(** The caches the server can come to hold: only [upload_pdf] and
    [analyze_document] write to them, and the demo has no handler that
    deletes. *)
Inductive reachable : Caches -> Prop :=
| reach_start : reachable empty_caches
| reach_upload (st : Caches) (document_id now file_name : str) :
    reachable st ->
    reachable (snd (upload_pdf document_id now file_name st))
| reach_analyze (st : Caches) (request : Api.AnalysisRequest)
    (new_id now : str) :
    reachable st ->
    reachable (snd (analyze_document request new_id now st)).

(** Every cached document has a type for which there is a canned analysis,
    and the page count and confidence every upload stores. *)
Definition known_types (st : Caches) : Prop :=
  Forall (fun item =>
            In (info_document_type (snd item)) (map fst MOCK_RESPONSES)
            /\ info_page_count (snd item) = 5
            /\ info_confidence_score (snd item) = 0.95%float)
    (document_cache st).

End ApiDemo.

(** ** Facts about the Python operations *)

Module PyFacts.

Lemma len_nonneg {A : Type} (l : list A) : 0 <= len l.
Proof. unfold len; lia. Qed.

Lemma len_app {A : Type} (l1 l2 : list A) : len (l1 ++ l2) = len l1 + len l2.
Proof. unfold len; rewrite length_app; lia. Qed.

Lemma len_nil_inv {A : Type} (l : list A) : len l <= 0 -> l = [].
Proof. destruct l; [reflexivity | unfold len; simpl; lia]. Qed.

(** A slice is never longer than the distance between its bounds. *)
Lemma slice_len_le {A : Type} (l : list A) (a b : Z) :
  a <= b -> len (slice l a b) <= b - a.
Proof.
  intros Hab. unfold slice, len, adjust.
  rewrite length_firstn.
  destruct (Z.ltb_spec a 0), (Z.ltb_spec b 0); lia.
Qed.

(** With bounds that are not negative a slice is a [firstn] of a [skipn]. *)
Lemma slice_nonneg {A : Type} (l : list A) (a b : Z) :
  0 <= a -> 0 <= b ->
  slice l a b = firstn (Z.to_nat b - Z.to_nat a) (skipn (Z.to_nat a) l).
Proof.
  intros Ha Hb. unfold slice, adjust, len.
  destruct (Z.ltb_spec a 0); [lia |]. destruct (Z.ltb_spec b 0); [lia |].
  destruct (Z_le_gt_dec a (Z.of_nat (List.length l))) as [Hle | Hgt].
  - rewrite (Z.min_l a) by lia.
    destruct (Z_le_gt_dec b (Z.of_nat (List.length l))) as [Hb' | Hb'].
    + rewrite (Z.min_l b) by lia. f_equal. lia.
    + rewrite (Z.min_r b) by lia.
      rewrite !firstn_all2; [reflexivity | rewrite length_skipn; lia ..].
  - rewrite (Z.min_r a) by lia.
    rewrite !skipn_all2 by lia. now rewrite !firstn_nil.
Qed.

Lemma slice_app_skipn {A : Type} (l : list A) (a b : Z) :
  0 <= a <= b ->
  slice l a b ++ skipn (Z.to_nat b) l = skipn (Z.to_nat a) l.
Proof.
  intros [Ha Hab]. rewrite slice_nonneg by lia.
  replace (skipn (Z.to_nat b) l)
    with (skipn (Z.to_nat b - Z.to_nat a) (skipn (Z.to_nat a) l)).
  - apply firstn_skipn.
  - rewrite skipn_skipn. f_equal. lia.
Qed.

Lemma skipn_slice {A : Type} (l : list A) (a b k : Z) :
  0 <= a -> 0 <= k -> 0 <= b ->
  skipn (Z.to_nat k) (slice l a b) = slice l (a + k) b.
Proof.
  intros Ha Hk Hb. rewrite !slice_nonneg by lia.
  rewrite skipn_firstn_comm, skipn_skipn. f_equal; [lia | f_equal; lia].
Qed.

(** [rfind] answers -1 or an index of the string. *)
Lemma rfind_from_bound (c : ascii) (s : str) (i last : Z) :
  rfind_from c s i last = last \/
  i <= rfind_from c s i last < i + len s.
Proof.
  revert i last. induction s as [| x s IH]; intros i last; simpl.
  - now left.
  - pose proof (len_nonneg s) as Hs.
    replace (len (x :: s)) with (1 + len s)
      by (unfold len; simpl List.length; lia).
    destruct (IH (i + 1) (if Ascii.eqb x c then i else last)) as [-> | H].
    + destruct (Ascii.eqb x c); [right; lia | now left].
    + right; lia.
Qed.

Lemma rfind_bound (s : str) (c : ascii) : -1 <= rfind s c < len s.
Proof.
  unfold rfind. pose proof (len_nonneg s).
  destruct (rfind_from_bound c s 0 (-1)) as [-> | H']; lia.
Qed.

End PyFacts.

(** ** Facts about the chunking loop *)

Module ChunkerFacts.
Import PyFacts.

(** Shrunk or not, the window is the slice from [start] to its end. *)
Lemma window_is_slice (text : str) (cs s : Z) :
  fst (window text cs s) = slice text s (snd (window text cs s)).
Proof.
  unfold window.
  destruct (s + cs <? len text); [| reflexivity].
  destruct (Z.max _ _ >? s + cs / 2); reflexivity.
Qed.

(** A window never ends past [start + chunk_size]. *)
Lemma window_end_le (text : str) (cs s : Z) :
  0 <= cs -> snd (window text cs s) <= s + cs.
Proof.
  intros Hcs. unfold window.
  destruct (s + cs <? len text); [| simpl; lia].
  pose proof (rfind_bound (slice text s (s + cs)) period) as Hp.
  pose proof (rfind_bound (slice text s (s + cs)) newline) as Hn.
  pose proof (slice_len_le text s (s + cs)) as Hl.
  destruct (Z.max _ _ >? s + cs / 2); simpl; lia.
Qed.

(** With an overlap of at most half the chunk size plus one, the next start
    lies strictly after the current one. *)
Lemma window_progress (text : str) (cs ov s : Z) :
  0 <= s -> ov <= cs / 2 + 1 -> ov < cs ->
  s < snd (window text cs s) - ov.
Proof.
  intros Hs Hhalf Hlt. unfold window.
  destruct (s + cs <? len text); [| simpl; lia].
  destruct (Z.gtb_spec
              (Z.max (rfind (slice text s (s + cs)) period)
                     (rfind (slice text s (s + cs)) newline))
              (s + cs / 2)); simpl; lia.
Qed.

Lemma chunk_loop_acc (fuel : nat) (text : str) (cs ov s : Z)
    (acc : list str) :
  chunk_loop fuel text cs ov s acc
  = omap (app acc) (chunk_loop fuel text cs ov s []).
Proof.
  revert s acc. induction fuel as [| fuel IH]; intros s acc; simpl.
  - reflexivity.
  - destruct (s <? len text); [| simpl; now rewrite app_nil_r].
    destruct (window text cs s) as [chunk e].
    rewrite (IH _ (acc ++ [strip chunk])), (IH _ ([] ++ [strip chunk])).
    destruct (chunk_loop fuel text cs ov (e - ov) []); simpl;
      try reflexivity.
    now rewrite <- app_assoc.
Qed.

(** The chunks are the trimmed windows. *)
Lemma chunk_loop_windows (fuel : nat) (text : str) (cs ov s : Z) :
  chunk_loop fuel text cs ov s []
  = omap (map strip) (window_loop fuel text cs ov s).
Proof.
  revert s. induction fuel as [| fuel IH]; intros s; simpl.
  - reflexivity.
  - destruct (s <? len text); [| reflexivity].
    destruct (window text cs s) as [chunk e].
    rewrite chunk_loop_acc, IH. simpl.
    now destruct (window_loop fuel text cs ov (e - ov)).
Qed.

(** More fuel does not change an answer already given. *)
Lemma window_loop_more_fuel (fuel k : nat) (text : str) (cs ov s : Z)
    (ws : list str) :
  window_loop fuel text cs ov s = Returns ws ->
  window_loop (fuel + k) text cs ov s = Returns ws.
Proof.
  revert s ws. induction fuel as [| fuel IH]; intros s ws; simpl.
  - discriminate.
  - destruct (s <? len text); [| trivial].
    destruct (window text cs s) as [chunk e].
    destruct (window_loop fuel text cs ov (e - ov)) as [v | |] eqn:E;
      try discriminate.
    now rewrite (IH _ _ E).
Qed.

(** The loop has no [raise]: whatever the configuration, no run ends in an
    exception. *)
Lemma window_loop_no_raise (fuel : nat) (text : str) (cs ov s : Z)
    (exn : string) :
  window_loop fuel text cs ov s = Raises exn -> False.
Proof.
  revert s. induction fuel as [| fuel IH]; intros s; simpl.
  - discriminate.
  - destruct (s <? len text); [| discriminate].
    destruct (window text cs s) as [chunk e].
    destruct (window_loop fuel text cs ov (e - ov)) eqn:E; try discriminate.
    simpl. intros H; injection H as ->. exact (IH _ E).
Qed.

(** When the overlap is not smaller than a chunk size that is not negative,
    the start never moves forward, so on a text that is not empty the loop
    runs for ever. *)
Lemma window_loop_stuck (fuel : nat) (text : str) (cs ov s : Z) :
  0 <= cs -> cs <= ov -> s <= 0 -> text <> [] ->
  window_loop fuel text cs ov s = OutOfFuel.
Proof.
  intros Hcs Hov. revert s. induction fuel as [| fuel IH]; intros s Hs Hne.
  - reflexivity.
  - simpl.
    assert (0 < len text) as Hlen
      by (destruct text; [congruence | unfold len; simpl; lia]).
    destruct (Z.ltb_spec s (len text)); [| lia].
    pose proof (window_end_le text cs s Hcs) as He.
    destruct (window text cs s) as [chunk e]. simpl in He.
    rewrite IH; [reflexivity | lia | assumption].
Qed.

Lemma window_loop_S (fuel : nat) (text : str) (cs ov s : Z) :
  window_loop (S fuel) text cs ov s
  = if s <? len text then
      omap (cons (fst (window text cs s)))
        (window_loop fuel text cs ov (snd (window text cs s) - ov))
    else Returns [].
Proof. simpl. now destruct (window text cs s). Qed.

(** With an overlap of at most half the chunk size plus one, [len text - start]
    passes are enough. *)
Lemma window_loop_terminates (text : str) (cs ov : Z) :
  ov <= cs / 2 + 1 -> ov < cs ->
  forall (n : nat) (s : Z), 0 <= s -> len text - s <= Z.of_nat n ->
  exists ws, window_loop (S n) text cs ov s = Returns ws.
Proof.
  intros Hhalf Hlt. induction n as [| n IH]; intros s Hs Hn.
  - simpl. destruct (Z.ltb_spec s (len text)); [lia |]. now exists [].
  - rewrite window_loop_S.
    destruct (Z.ltb_spec s (len text)); [| now exists []].
    pose proof (window_progress text cs ov s Hs Hhalf Hlt) as Hp.
    destruct (IH (snd (window text cs s) - ov)) as [ws Hws]; [lia | lia |].
    rewrite Hws. now eexists.
Qed.

End ChunkerFacts.

(** ** The chunker's claims *)

Module ChunkerClaims.
Import PyFacts ChunkerFacts.

Lemma window_loop_fresh (text : str) (cs ov : Z) :
  0 <= ov -> ov <= cs / 2 + 1 -> ov < cs ->
  forall (fuel : nat) (s : Z) (ws : list str),
  0 <= s -> window_loop fuel text cs ov s = Returns ws ->
  List.concat (map (skipn (Z.to_nat ov)) ws) = skipn (Z.to_nat (s + ov)) text.
Proof.
  intros Hov Hhalf Hlt. induction fuel as [| fuel IH]; intros s ws Hs.
  - discriminate.
  - rewrite window_loop_S.
    destruct (Z.ltb_spec s (len text)) as [Hin | Hout].
    + pose proof (window_progress text cs ov s Hs Hhalf Hlt) as Hp.
      destruct (window_loop fuel text cs ov (snd (window text cs s) - ov))
        as [rest | |] eqn:E; try discriminate.
      simpl. intros H; injection H as <-.
      simpl.
      rewrite (IH (snd (window text cs s) - ov) rest ltac:(lia) E).
      rewrite window_is_slice, skipn_slice by lia.
      replace (snd (window text cs s) - ov + ov)
        with (snd (window text cs s)) by lia.
      apply slice_app_skipn. lia.
    + intros H; injection H as <-. simpl.
      symmetry. apply skipn_all2. unfold len in Hout. lia.
Qed.

(** The loop has no check of its configuration and no [raise]. With
    [overlap >= chunk_size >= 0] no run ends in an exception: the empty text
    gives the empty list at once, and on any other text the loop is still
    running whatever fuel it gets. *)
Lemma overlap_at_least_chunk_size (text : str) (cs ov : Z) :
  cs <= ov ->
  (forall fuel exn, extract_text_chunks fuel text cs ov = Raises exn -> False)
  /\ (text = [] -> extract_text_chunks 1 text cs ov = Returns [])
  /\ (0 <= cs -> text <> [] ->
      forall fuel, extract_text_chunks fuel text cs ov = OutOfFuel).
Proof.
  intros Hov. unfold extract_text_chunks. repeat split.
  - intros fuel exn. rewrite chunk_loop_windows.
    destruct (window_loop fuel text cs ov 0) eqn:E; simpl; try discriminate.
    intros _. exact (window_loop_no_raise _ _ _ _ _ _ E).
  - intros ->. reflexivity.
  - intros Hcs Hne fuel. rewrite chunk_loop_windows.
    now rewrite window_loop_stuck by (assumption || lia).
Qed.

(** C1 (the code at the failing input). With [chunk_size = overlap = 1000]
    the call on "abc" is not refused: no run raises, [InvalidChunkConfig] or
    other. The first window ends at 1000 and holds the whole text, and the
    next start is 1000 - 1000 = 0 again: no amount of fuel lets the call
    return. *)
Theorem extract_text_chunks_overlap_stalls :
  (forall fuel exn,
      extract_text_chunks fuel (lit "abc") 1000 1000 <> Raises exn)
  /\ (forall fuel, extract_text_chunks fuel (lit "abc") 1000 1000 = OutOfFuel).
Proof.
  destruct (overlap_at_least_chunk_size (lit "abc") 1000 1000 ltac:(lia))
    as (Hraise & _ & Hloop).
  split.
  - intros fuel exn H. exact (Hraise fuel exn H).
  - apply Hloop; [lia | discriminate].
Qed.

(** C2 (the code at the failing input). With [chunk_size = 5] and
    [overlap = 4], so [0 <= overlap < chunk_size], the first window of
    "abc.efgh" is shrunk to "abc." and the next start is 0 again: no amount of
    fuel lets the call return. *)
Theorem extract_text_chunks_stalls :
  forall fuel, extract_text_chunks fuel (lit "abc.efgh") 5 4 = OutOfFuel.
Proof.
  unfold extract_text_chunks. intros fuel. generalize (@nil str).
  induction fuel as [| fuel IH]; intros acc; [reflexivity |].
  change (chunk_loop (S fuel) (lit "abc.efgh") 5 4 0 acc)
    with (chunk_loop fuel (lit "abc.efgh") 5 4 0
            (acc ++ [strip (lit "abc.")])).
  apply IH.
Qed.

(** The empty text is answered with the empty list for every configuration. *)
Lemma extract_text_chunks_empty (fuel : nat) (cs ov : Z) :
  extract_text_chunks (S fuel) [] cs ov = Returns [].
Proof. reflexivity. Qed.

(** With [overlap <= chunk_size / 2 + 1] and [overlap < chunk_size] the call
    returns, after at most [len text] passes. *)
Lemma extract_text_chunks_returns (text : str) (cs ov : Z) :
  ov <= cs / 2 + 1 -> ov < cs ->
  exists chunks,
    extract_text_chunks (S (Z.to_nat (len text))) text cs ov = Returns chunks.
Proof.
  intros Hhalf Hlt. unfold extract_text_chunks. rewrite chunk_loop_windows.
  destruct (window_loop_terminates text cs ov Hhalf Hlt
              (Z.to_nat (len text)) 0) as [ws Hws];
    [lia | pose proof (len_nonneg text); lia |].
  rewrite Hws. now eexists.
Qed.

(** C3 (the code at the failing input). The test on [break_point] compares an
    index inside the chunk with [start + chunk_size // 2], an offset in the
    text. On the 2500-character scenario with [chunk_size = 1000] and
    [overlap = 200], the second window starts at 800 and holds a period at
    index 900, in its back half, yet it is kept whole: the chunk is the full
    window and ends in "a". *)
Theorem extract_text_chunks_misses_boundary :
  len scenario_text = 2500
  /\ rfind (slice scenario_text 800 1800) period = 900
  /\ (900 >? 1000 / 2) = true
  /\ window scenario_text 1000 800 = (slice scenario_text 800 1800, 1800)
  /\ extract_text_chunks 5 scenario_text 1000 200
     = Returns [slice scenario_text 0 1000; slice scenario_text 800 1800;
                slice scenario_text 1600 2500; slice scenario_text 2400 2500]
  /\ last (slice scenario_text 800 1800) period = "a"%char.
Proof. repeat split; vm_compute; reflexivity. Qed.

(** At offset 0 the same test is the one the comment describes: a window that
    stops short of the end of the text is shrunk exactly when its last period
    or newline lies past the middle of the window. *)
Lemma window_at_zero (text : str) (cs : Z) :
  cs < len text ->
  let chunk := slice text 0 cs in
  let break_point := Z.max (rfind chunk period) (rfind chunk newline) in
  window text cs 0
  = if break_point >? cs / 2
    then (slice text 0 (break_point + 1), break_point + 1)
    else (chunk, cs).
Proof.
  intros Hlt. unfold window. simpl.
  destruct (Z.ltb_spec cs (len text)); [reflexivity | lia].
Qed.

(** C4, the claim as written, fails: with [overlap = 0] and [chunk_size = 3]
    the chunks of "ab cd" are "ab" and "cd", which no longer hold the space. *)
Lemma extract_text_chunks_tiling_counterexample :
  extract_text_chunks 3 (lit "ab cd") 3 0 = Returns [lit "ab"; lit "cd"]
  /\ List.concat [lit "ab"; lit "cd"] <> lit "ab cd".
Proof. split; [reflexivity | discriminate]. Qed.

(** C4 (as the code has it). With [0 <= overlap <= chunk_size / 2 + 1] and
    [overlap < chunk_size] the call returns the windows of the loop, each
    trimmed of its leading and trailing whitespace. The untrimmed windows cover
    the text: the first one followed by every later one without its first
    [overlap] characters is the text itself, and with [overlap = 0] the windows
    in order tile it. *)
Theorem extract_text_chunks_trimmed_cover (text : str) (cs ov : Z) :
  0 <= ov -> ov <= cs / 2 + 1 -> ov < cs ->
  exists fuel windows,
    window_loop fuel text cs ov 0 = Returns windows
    /\ extract_text_chunks fuel text cs ov = Returns (map strip windows)
    /\ non_overlapping ov windows = text
    /\ (ov = 0 -> List.concat windows = text).
Proof.
  intros Hov Hhalf Hlt.
  destruct (window_loop_terminates text cs ov Hhalf Hlt
              (Z.to_nat (len text)) 0) as [ws Hws];
    [lia | pose proof (len_nonneg text); lia |].
  exists (S (Z.to_nat (len text))), ws.
  assert (non_overlapping ov ws = text) as Hcover.
  { rewrite window_loop_S in Hws.
    destruct (Z.ltb_spec 0 (len text)) as [Hin | Hout].
    - pose proof (window_progress text cs ov 0 ltac:(lia) Hhalf Hlt) as Hp.
      destruct (window_loop (Z.to_nat (len text)) text cs ov
                  (snd (window text cs 0) - ov)) as [rest | |] eqn:E;
        try discriminate.
      simpl in Hws. injection Hws as <-. simpl.
      rewrite (window_loop_fresh text cs ov Hov Hhalf Hlt _
                 (snd (window text cs 0) - ov) rest ltac:(lia) E).
      replace (snd (window text cs 0) - ov + ov)
        with (snd (window text cs 0)) by lia.
      rewrite window_is_slice.
      now rewrite slice_app_skipn by lia.
    - injection Hws as <-. simpl. symmetry.
      apply len_nil_inv. lia. }
  repeat split.
  - exact Hws.
  - unfold extract_text_chunks. now rewrite chunk_loop_windows, Hws.
  - exact Hcover.
  - intros ->. rewrite <- Hcover. destruct ws as [| w rest]; [reflexivity |].
    simpl. now rewrite map_id.
Qed.

Lemma extract_text_chunks_trimmed_cover_witness :
  exists fuel windows,
    window_loop fuel (lit "ab cd") 3 0 0 = Returns windows
    /\ extract_text_chunks fuel (lit "ab cd") 3 0
       = Returns (map strip windows)
    /\ non_overlapping 0 windows = lit "ab cd"
    /\ (0 = 0 -> List.concat windows = lit "ab cd").
Proof.
  apply (extract_text_chunks_trimmed_cover (lit "ab cd") 3 0);
    [lia | vm_compute; discriminate | lia].
Defined.

End ChunkerClaims.

(** ** The parser's claims *)

Module ParserClaims.
Import PyFacts.

Set Warnings "-inexact-float".

(** *** Trimming *)

Lemma rstrip_app_space (s : str) (c : ascii) :
  isspace c = true -> rstrip (s ++ [c]) = rstrip s.
Proof.
  intros Hc. unfold rstrip. rewrite rev_app_distr. simpl. now rewrite Hc.
Qed.

(** A whitespace character added at the end is trimmed away. *)
Lemma strip_app_space (s : str) (c : ascii) :
  isspace c = true -> strip (s ++ [c]) = strip s.
Proof.
  intros Hc. unfold strip. induction s as [| x s IH]; simpl.
  - now rewrite Hc.
  - destruct (isspace x); [exact IH |].
    now rewrite app_comm_cons, rstrip_app_space.
Qed.

(** *** Text extraction *)

Lemma extract_text_fold (doc : list str) (full : str) (pages : list str) :
  fold_left
    (fun '(full_text, pages_text) page_text =>
       (full_text ++ (page_text ++ [newline]), pages_text ++ [page_text]))
    doc (full, pages)
  = (full ++ List.concat (map (fun page => page ++ [newline]) doc),
     pages ++ doc).
Proof.
  revert full pages. induction doc as [| page doc IH]; intros full pages.
  - simpl. now rewrite !app_nil_r.
  - simpl. rewrite IH. now rewrite <- !app_assoc.
Qed.

Lemma concat_lines_join (doc : list str) :
  doc <> [] ->
  List.concat (map (fun page => page ++ [newline]) doc)
  = join [newline] doc ++ [newline].
Proof.
  induction doc as [| page doc IH]; [congruence | intros _].
  destruct doc as [| page' doc].
  - simpl. now rewrite app_nil_r.
  - change (List.concat (map (fun p => p ++ [newline]) (page :: page' :: doc)))
      with ((page ++ [newline])
            ++ List.concat (map (fun p => p ++ [newline]) (page' :: doc))).
    rewrite IH by discriminate.
    change (join [newline] (page :: page' :: doc))
      with (page ++ [newline] ++ join [newline] (page' :: doc)).
    now rewrite <- !app_assoc.
Qed.

(** C9 (as the code has it). The per-page list holds the pages' texts in page
    order, and the full text is those texts joined by one newline with the
    whitespace at both ends, leading as well as trailing, trimmed. *)
Theorem extract_text_is_trimmed_join (doc : list str) :
  snd (_extract_text doc) = doc
  /\ fst (_extract_text doc) = strip (join [newline] doc).
Proof.
  unfold _extract_text. rewrite extract_text_fold. simpl. split.
  - reflexivity.
  - destruct doc as [| page doc]; [reflexivity |].
    rewrite concat_lines_join by discriminate.
    now apply strip_app_space.
Qed.

(** C9, the claim as written, fails: a first page that starts with a space
    loses it, which trimming the end alone would keep. *)
Lemma extract_text_counterexample :
  fst (_extract_text [lit " a"]) = lit "a"
  /\ rstrip (join [newline] [lit " a"]) = lit " a"
  /\ lit "a" <> lit " a".
Proof. repeat split; [discriminate]. Qed.

(** *** Classification *)

Lemma startswith_map (f : ascii -> ascii) (s p : str) :
  startswith s p = true -> startswith (map f s) (map f p) = true.
Proof.
  revert s. induction p as [| a p IH]; intros s; [now destruct s |].
  destruct s as [| b s]; simpl; [discriminate |].
  rewrite !andb_true_iff, !Ascii.eqb_eq. intros [-> H]. auto.
Qed.

Lemma contains_map (f : ascii -> ascii) (s p : str) :
  contains s p = true -> contains (map f s) (map f p) = true.
Proof.
  induction s as [| b s IH]; simpl; rewrite !orb_true_iff.
  - intros [H | H]; [| discriminate]. left.
    exact (startswith_map f [] p H).
  - intros [H | H]; [left | right; auto].
    exact (startswith_map f (b :: s) p H).
Qed.

(** A pattern found in the text is found, lowered, in the lowered text. *)
Lemma contains_lower (text p : str) :
  contains text p = true -> contains (lower text) (lower p) = true.
Proof. apply contains_map. Qed.

Lemma first_form_label (registry : list (str * list str)) (t label : str) :
  first_form registry t = Some label -> In label (map fst registry).
Proof.
  induction registry as [| [form_type patterns] rest IH]; simpl.
  - discriminate.
  - destruct (any_pattern t patterns).
    + intros H; injection H as ->. now left.
    + intros H. right. auto.
Qed.

(** The loop returns at the first entry one of whose patterns matches. *)
Lemma first_form_first (pre post : list (str * list str))
    (form_type : str) (patterns : list str) (t : str) :
  (forall entry, In entry pre -> any_pattern t (snd entry) = false) ->
  any_pattern t patterns = true ->
  first_form (pre ++ (form_type, patterns) :: post) t = Some form_type.
Proof.
  intros Hpre Hhit. induction pre as [| [l ps] pre IH]; simpl.
  - now rewrite Hhit.
  - pose proof (Hpre (l, ps) (or_introl eq_refl)) as Hl. simpl in Hl.
    rewrite Hl. apply IH. intros entry Hin. apply Hpre. now right.
Qed.


Lemma general_type_label (t : str) :
  In (general_type t)
     [lit "Passport"; lit "Birth Certificate"; lit "Marriage Certificate";
      lit "Divorce Decree"; lit "Employment Authorization";
      lit "Unknown Document"].
Proof.
  unfold general_type.
  repeat match goal with
         | |- context [if ?b then _ else _] => destruct b
         end; simpl; auto 10.
Qed.

Lemma classify_i130 (text : str) :
  contains text (lit "I-130") = true -> _classify_document text = lit "I-130".
Proof.
  intros H. apply contains_lower in H.
  unfold _classify_document.
  change form_patterns
    with ([] ++ (lit "I-130", [lit "i-130"; lit "petition for alien relative"])
             :: tl form_patterns).
  rewrite first_form_first; [reflexivity | intros ? [] |].
  unfold any_pattern. cbn [existsb].
  change (lit "i-130") with (lower (lit "I-130")). now rewrite H.
Qed.



(** The empty text has no label but the unknown one. *)
Lemma classify_document_empty : _classify_document [] = lit "Unknown Document".
Proof. reflexivity. Qed.

(** *** Confidence *)

Lemma str_eqb_refl (a : str) : str_eqb a a = true.
Proof. unfold str_eqb. now destruct (list_eq_dec ascii_dec a a). Qed.

(** C5 (as the code has it). The score is the sum of the weights of the
    signals that hold (0.3 for more than 100 characters of trimmed text, 0.2
    for a form field, 0.2 for a table, 0.3 for a label other than the unknown
    one), clamped to 1.0. It always lies in [0, 1] and is exactly 1.0 when all
    four signals hold. For a text that holds "I-130", with no field and no
    table, it is exactly 0.6 when the trimmed text has more than 100
    characters, and exactly 0.3 when it has not. *)
Theorem calculate_confidence_additive (text : str)
    (fields : list FormField) (tbls : list TableData) :
  let long_text := len (strip text) >? 100 in
  let classified :=
    negb (str_eqb (_classify_document text) (lit "Unknown Document")) in
  _calculate_confidence text fields tbls
  = confidence_model long_text (truthy fields) (truthy tbls) classified
  /\ in_unit_interval (_calculate_confidence text fields tbls) = true
  /\ (long_text = true -> truthy fields = true -> truthy tbls = true ->
      classified = true ->
      _calculate_confidence text fields tbls = 1.0%float)
  /\ (contains text (lit "I-130") = true -> fields = [] -> tbls = [] ->
      _calculate_confidence text fields tbls
      = if long_text then 0.6%float else 0.3%float).
Proof.
  intros long_text classified.
  assert (_calculate_confidence text fields tbls
          = confidence_model long_text (truthy fields) (truthy tbls)
              classified) as Hmodel.
  { unfold _calculate_confidence. fold long_text. fold classified.
    destruct long_text, (truthy fields), (truthy tbls), classified;
      reflexivity. }
  repeat split.
  - exact Hmodel.
  - rewrite Hmodel.
    destruct long_text, (truthy fields), (truthy tbls), classified;
      reflexivity.
  - intros -> Hf Ht ->. rewrite Hmodel, Hf, Ht. reflexivity.
  - intros H130 -> ->. rewrite Hmodel.
    assert (classified = true) as ->.
    { unfold classified. now rewrite (classify_i130 text H130). }
    now destruct long_text.
Qed.

Lemma calculate_confidence_additive_witness :
  _calculate_confidence
    (lit "Form I-130, Petition for Alien Relative" ++ repeat "x"%char 100)
    [] []
  = 0.6%float.
Proof.
  exact (proj2 (proj2 (proj2
    (calculate_confidence_additive
       (lit "Form I-130, Petition for Alien Relative" ++ repeat "x"%char 100)
       [] [])))
    eq_refl eq_refl eq_refl).
Defined.

(** C5, the claim as written, fails: the text "I-130" alone, with no field and
    no table, scores 0.3, since its five characters earn nothing for length. *)
Lemma calculate_confidence_counterexample :
  contains (lit "I-130") (lit "I-130") = true
  /\ _calculate_confidence (lit "I-130") [] [] = 0.3%float
  /\ PrimFloat.eqb (_calculate_confidence (lit "I-130") [] []) 0.6 = false.
Proof. repeat split. Qed.

(** The empty text with no field and no table scores 0.0. *)
Lemma calculate_confidence_empty : _calculate_confidence [] [] [] = 0.0%float.
Proof. reflexivity. Qed.

End ParserClaims.

(** ** The service's claims *)

Module ServiceClaims.
Import PyFacts.

Set Warnings "-inexact-float".

Section Calls.

Variable remote : list call -> call -> outcome (str * Z).
Variable who : LLMProvider.

(** A call that returns has sent exactly one request, to a provider the
    service supports, and carries the text the provider answered. *)
Lemma call_llm_returned (p : prompt) (max_tokens : Z) (sent sent' : list call)
    (response : LLMResponse) :
  _call_llm remote who p max_tokens sent = (Returns response, sent') ->
  sent' = sent ++ [(who, p, max_tokens)]
  /\ exists tokens,
       remote sent (who, p, max_tokens) = Returns (content response, tokens).
Proof.
  unfold _call_llm, _call_openai, _call_anthropic, raise.
  destruct who; try discriminate;
    (destruct (remote sent _) as [[text tokens] | exn |] eqn:E; simpl;
     try discriminate;
     intros H; injection H as <- <-; split; [reflexivity |];
     exists tokens; reflexivity).
Qed.

(** With a supported provider that answers, the call returns that answer. *)
Lemma call_llm_answered (p : prompt) (max_tokens : Z) (sent : list call)
    (text : str) (tokens : Z) :
  who <> LOCAL ->
  remote sent (who, p, max_tokens) = Returns (text, tokens) ->
  exists response,
    _call_llm remote who p max_tokens sent
    = (Returns response, sent ++ [(who, p, max_tokens)])
    /\ content response = text.
Proof.
  intros Hwho Hans. unfold _call_llm, _call_openai, _call_anthropic.
  destruct who; try congruence; rewrite Hans; simpl; eexists;
    (split; [reflexivity | reflexivity]).
Qed.

Lemma analyze_fields_loop_returned (doc_type : str) (fields : list FormField) :
  forall (acc : list json) (sent sent' : list call) (records : list json),
  analyze_fields_loop remote who doc_type fields acc sent
  = (Returns records, sent') ->
  exists guidances,
    List.length guidances = List.length fields
    /\ records = acc ++ records_of fields guidances
    /\ sent' = sent ++ map (field_request who doc_type) fields
    /\ Forall2 (answered_with remote who doc_type) fields guidances.
Proof.
  induction fields as [| field rest IH]; intros acc sent sent' records.
  - simpl. unfold ret. intros H; injection H as <- <-.
    exists []. rewrite !app_nil_r. repeat split. constructor.
  - simpl. unfold bind.
    destruct (_call_llm remote who (field_prompt doc_type field) 300 sent)
      as [[response | exn |] sent1] eqn:E; try discriminate.
    intros Hrest. apply call_llm_returned in E as [-> [tokens Hanswer]].
    apply IH in Hrest as (guidances & Hlen & -> & -> & Hall).
    exists (content response :: guidances). simpl.
    rewrite Hlen, <- !app_assoc. repeat split.
    constructor; [| exact Hall]. now exists sent, tokens.
Qed.

Lemma analyze_fields_loop_answered (doc_type : str) (fields : list FormField) :
  who <> LOCAL ->
  (forall sent request, exists answer, remote sent request = Returns answer) ->
  forall (acc : list json) (sent : list call),
  exists records sent',
    analyze_fields_loop remote who doc_type fields acc sent
    = (Returns records, sent').
Proof.
  intros Hwho Hans. induction fields as [| field rest IH]; intros acc sent.
  - simpl. now eexists _, _.
  - simpl. unfold bind.
    destruct (Hans sent (who, field_prompt doc_type field, 300))
      as [[text tokens] Htext].
    destruct (call_llm_answered _ _ _ _ _ Hwho Htext) as (response & -> & _).
    apply IH.
Qed.

(** The records built for [fields] from guidances the provider gave: each is
    the dict of its own field. *)
Lemma records_of_carry (doc_type : str) (fields : list FormField)
    (guidances : list str) :
  Forall2 (answered_with remote who doc_type) fields guidances ->
  Forall2
    (fun field record =>
       exists guidance,
         answered_with remote who doc_type field guidance
         /\ record
            = JObject [(lit "field_name", JString (field_name field));
                       (lit "field_type", JString (field_type field));
                       (lit "guidance", JString guidance);
                       (lit "page_number", JInt (page_number field))])
    fields (records_of fields guidances).
Proof.
  induction 1 as [| field guidance fields guidances Hfirst _ IH].
  - constructor.
  - unfold records_of. cbn [combine map]. constructor; [| exact IH].
    exists guidance. split; [exact Hfirst | reflexivity].
Qed.

End Calls.

(** C10. Without form fields the answer is the empty list and nothing is sent
    to the provider. A run that returns gives one record per form field, in the
    order of the document's list: the record of a field is a dict with that
    field's name under "field_name", its type under "field_type", its page
    number under "page_number", and under "guidance" what the provider
    answered to the request made for that field; one request per field has
    been sent. With a supported provider that answers every request, the run
    returns. *)
Theorem analyze_form_fields_one_record_per_field
    (remote : list call -> call -> outcome (str * Z)) (who : LLMProvider)
    (parsed_doc : ParsedDocument) (sent : list call) :
  (form_fields parsed_doc = [] ->
   _analyze_form_fields remote who parsed_doc sent = (Returns [], sent))
  /\ (forall records sent',
        _analyze_form_fields remote who parsed_doc sent
        = (Returns records, sent') ->
        exists guidances,
          List.length guidances = List.length (form_fields parsed_doc)
          /\ List.length records = List.length (form_fields parsed_doc)
          /\ records = records_of (form_fields parsed_doc) guidances
          /\ sent' = sent ++ map (field_request who (document_type parsed_doc))
                               (form_fields parsed_doc)
          /\ Forall2
               (fun field record =>
                  exists guidance,
                    answered_with remote who (document_type parsed_doc) field
                      guidance
                    /\ record
                       = JObject
                           [(lit "field_name", JString (field_name field));
                            (lit "field_type", JString (field_type field));
                            (lit "guidance", JString guidance);
                            (lit "page_number", JInt (page_number field))])
               (form_fields parsed_doc) records)
  /\ (who <> LOCAL ->
      (forall sent0 request,
          exists answer, remote sent0 request = Returns answer) ->
      exists records sent',
        _analyze_form_fields remote who parsed_doc sent
        = (Returns records, sent')).
Proof.
  unfold _analyze_form_fields. repeat split.
  - intros ->. reflexivity.
  - intros records sent' Hrun.
    destruct (form_fields parsed_doc) as [| field rest] eqn:Hfields.
    + simpl in Hrun. unfold ret in Hrun. injection Hrun as <- <-.
      exists []. rewrite app_nil_r. repeat split. constructor.
    + cbn [truthy negb] in Hrun.
      apply analyze_fields_loop_returned in Hrun
        as (guidances & Hlen & -> & -> & Hall).
      exists guidances. repeat split; try assumption.
      * unfold records_of. cbn [app].
        now rewrite length_map, length_combine, Hlen, Nat.min_id.
      * cbn [app]. now apply records_of_carry.
  - intros Hwho Hans.
    destruct (truthy (form_fields parsed_doc)); cbn [negb].
    + now apply analyze_fields_loop_answered.
    + now eexists _, _.
Qed.

Lemma analyze_form_fields_one_record_per_field_witness :
  exists records sent',
    _analyze_form_fields (constant_remote (lit "Use capital letters") 12)
      OPENAI sample_doc [] = (Returns records, sent')
    /\ List.length records = 2%nat
    /\ Forall2
         (fun field record =>
            exists guidance,
              answered_with (constant_remote (lit "Use capital letters") 12)
                OPENAI (lit "I-130") field guidance
              /\ record
                 = JObject [(lit "field_name", JString (field_name field));
                            (lit "field_type", JString (field_type field));
                            (lit "guidance", JString guidance);
                            (lit "page_number", JInt (page_number field))])
         [sample_field "family_name" 1; sample_field "given_name" 1] records.
Proof.
  destruct (analyze_form_fields_one_record_per_field
              (constant_remote (lit "Use capital letters") 12)
              OPENAI sample_doc []) as (_ & Hshape & Hruns).
  destruct (Hruns ltac:(discriminate)
              ltac:(intros; eexists; reflexivity)) as (records & sent' & Hrun).
  exists records, sent'. split; [exact Hrun |].
  destruct (Hshape records sent' Hrun) as (_ & _ & Hlen & _ & _ & Hall).
  split; [exact Hlen | exact Hall].
Defined.

(** What [json.loads] raises other than [json.JSONDecodeError] is not caught:
    it leaves both operations, after the request has been sent. *)
Lemma json_decoder_errors_propagate
    (remote : list call -> call -> outcome (str * Z))
    (json_loads : str -> decoding) (who : LLMProvider)
    (parsed_doc : ParsedDocument) (sent : list call) (text : str)
    (tokens : Z) (exn : string) :
  who <> LOCAL ->
  (forall request, remote sent request = Returns (text, tokens)) ->
  json_loads text = DecoderError exn ->
  fst (_extract_key_information remote json_loads who parsed_doc sent)
  = Raises exn
  /\ fst (generate_faq remote json_loads who parsed_doc sent) = Raises exn.
Proof.
  intros Hwho Hans Hbad. unfold _extract_key_information, generate_faq, bind.
  split.
  - destruct (call_llm_answered remote who
                (KeyInformationPrompt (document_type parsed_doc)
                   (slice (full_text parsed_doc) 0 3000))
                800 sent text tokens Hwho (Hans _))
      as (response & -> & Hcontent).
    now rewrite Hcontent, Hbad.
  - destruct (call_llm_answered remote who
                (FaqPrompt (document_type parsed_doc)
                   (slice (full_text parsed_doc) 0 2000))
                800 sent text tokens Hwho (Hans _))
      as (response & -> & Hcontent).
    now rewrite Hcontent, Hbad.
Qed.

(** C7 (as the code has it). With a supported provider on whose answer
    [json.loads] raises [json.JSONDecodeError], neither operation raises.
    Key-information extraction returns the answer under the key
    "raw_response"; FAQ generation returns a one-entry list whose entry has
    the question "Error parsing FAQ" and the answer as its "answer". *)
Theorem json_decode_fallbacks
    (remote : list call -> call -> outcome (str * Z))
    (json_loads : str -> decoding) (who : LLMProvider)
    (parsed_doc : ParsedDocument) (sent : list call) :
  who <> LOCAL ->
  let key_request :=
    (who, KeyInformationPrompt (document_type parsed_doc)
            (slice (full_text parsed_doc) 0 3000), 800) in
  let faq_request :=
    (who, FaqPrompt (document_type parsed_doc)
            (slice (full_text parsed_doc) 0 2000), 800) in
  (forall text tokens,
      remote sent key_request = Returns (text, tokens) ->
      json_loads text = JSONDecodeError ->
      _extract_key_information remote json_loads who parsed_doc sent
      = (Returns (JObject [(lit "raw_response", JString text)]),
         sent ++ [key_request]))
  /\ (forall text tokens,
        remote sent faq_request = Returns (text, tokens) ->
        json_loads text = JSONDecodeError ->
        generate_faq remote json_loads who parsed_doc sent
        = (Returns
             (JArray
                [JObject
                   [(lit "question", JString (lit "Error parsing FAQ"));
                    (lit "answer", JString text)]]),
           sent ++ [faq_request])).
Proof.
  intros Hwho key_request faq_request. split; intros text tokens Hans Hbad.
  - unfold _extract_key_information, bind.
    destruct (call_llm_answered remote who _ _ _ _ _ Hwho Hans)
      as (response & -> & Hcontent).
    now rewrite Hcontent, Hbad.
  - unfold generate_faq, bind.
    destruct (call_llm_answered remote who _ _ _ _ _ Hwho Hans)
      as (response & -> & Hcontent).
    now rewrite Hcontent, Hbad.
Qed.

Lemma json_decode_fallbacks_witness :
  fst (_extract_key_information (constant_remote (lit "not json") 5)
         reject_all ANTHROPIC sample_doc [])
  = Returns (JObject [(lit "raw_response", JString (lit "not json"))]).
Proof.
  rewrite (proj1 (json_decode_fallbacks (constant_remote (lit "not json") 5)
                    reject_all ANTHROPIC sample_doc []
                    ltac:(discriminate))
             (lit "not json") 5 eq_refl eq_refl).
  reflexivity.
Defined.

(** C7, the claim as written, fails for FAQ generation: on an answer that is
    not JSON it returns a list holding a question and answer pair, not the
    answer under "raw_response". *)
Lemma generate_faq_counterexample :
  reject_all (lit "not json") = JSONDecodeError
  /\ fst (generate_faq (constant_remote (lit "not json") 5) reject_all OPENAI
            sample_doc [])
     = Returns
         (JArray
            [JObject [(lit "question", JString (lit "Error parsing FAQ"));
                      (lit "answer", JString (lit "not json"))]])
  /\ fst (generate_faq (constant_remote (lit "not json") 5) reject_all OPENAI
            sample_doc [])
     <> Returns (JObject [(lit "raw_response", JString (lit "not json"))]).
Proof. repeat split. discriminate. Qed.

(** *** Analysis confidence *)

Lemma float_mul_comm (x y : float) : (x * y)%float = (y * x)%float.
Proof.
  apply Prim2SF_inj. rewrite !mul_spec. unfold SF64mul, SFmul.
  destruct (Prim2SF x) as [sx | sx | | sx mx ex],
           (Prim2SF y) as [sy | sy | | sy my ey];
    try reflexivity; rewrite (xorb_comm sx sy); try reflexivity.
  now rewrite Pos.mul_comm, Z.add_comm.
Qed.

Lemma fmin_le_one (score : float) :
  PrimFloat.ltb 1.0 (fmin score 1.0) = false.
Proof.
  unfold fmin. destruct (PrimFloat.ltb 1.0 score) eqn:E; [reflexivity | exact E].
Qed.

(** C8. The overall confidence is 0.4 times the parser's confidence, plus 0.2
    for a summary longer than 200, plus 0.2 for more than 3 entries of key
    information, plus 0.1 for a form field, plus 0.1 for a type other than
    the unknown one, clamped to 1.0: it never exceeds 1.0. *)
Theorem analysis_confidence_formula (parsed_doc : ParsedDocument)
    (summary : str) (key_info : list (str * json)) :
  _calculate_analysis_confidence parsed_doc summary key_info
  = analysis_confidence_model (confidence_score parsed_doc)
      (len summary >? 200) (len key_info >? 3)
      (truthy (form_fields parsed_doc))
      (negb (str_eqb (document_type parsed_doc) (lit "Unknown Document")))
  /\ PrimFloat.ltb 1.0
       (_calculate_analysis_confidence parsed_doc summary key_info) = false.
Proof.
  split; [| apply fmin_le_one].
  unfold _calculate_analysis_confidence, analysis_confidence_model, plus_if.
  rewrite (float_mul_comm 0.4).
  replace (truthy key_info && (len key_info >? 3)) with (len key_info >? 3)
    by now destruct key_info.
  reflexivity.
Qed.

(** A parser confidence of 1.0 with every boost gives exactly 1.0, and the
    sample document, with no summary and no key information, gives 0.4. *)
Lemma analysis_confidence_examples :
  analysis_confidence_model 1.0 true true true true = 1.0%float
  /\ _calculate_analysis_confidence sample_doc [] [] = 0.4%float.
Proof. split; reflexivity. Qed.

End ServiceClaims.

(** ** More about the chunker *)

Module ChunkerCoverage.
Import PyFacts ChunkerFacts.

(** *** Trimming *)

Lemma lstrip_length (s : str) : (List.length (lstrip s) <= List.length s)%nat.
Proof.
  induction s as [| c s IH]; simpl; [lia |].
  destruct (isspace c); simpl; lia.
Qed.

Lemma strip_length (s : str) : len (strip s) <= len s.
Proof.
  unfold strip, rstrip, len. rewrite length_rev.
  pose proof (lstrip_length (rev (lstrip s))) as H1.
  rewrite length_rev in H1. pose proof (lstrip_length s). lia.
Qed.

Lemma lstrip_head (s : str) :
  match lstrip s with [] => True | c :: _ => isspace c = false end.
Proof.
  induction s as [| c s IH]; simpl; [exact I |].
  destruct (isspace c) eqn:E; [exact IH | exact E].
Qed.

Lemma lstrip_app_solid (s : str) (c : ascii) :
  isspace c = false -> lstrip (s ++ [c]) = lstrip s ++ [c].
Proof.
  intros Hc. induction s as [| x s IH]; simpl.
  - now rewrite Hc.
  - destruct (isspace x); [exact IH | reflexivity].
Qed.

(** What [strip] returns has no whitespace at either end. *)
Lemma strip_trimmed (s : str) : trimmed (strip s) = true.
Proof.
  unfold strip, rstrip.
  pose proof (lstrip_head s) as Hhead.
  destruct (lstrip s) as [| c t]; [reflexivity |].
  change (rev (c :: t)) with (rev t ++ [c]).
  rewrite (lstrip_app_solid _ _ Hhead), rev_app_distr.
  change (rev [c] ++ rev (lstrip (rev t))) with (c :: rev (lstrip (rev t))).
  pose proof (lstrip_head (rev t)) as Hlast.
  unfold trimmed. rewrite Hhead.
  destruct (lstrip (rev t)) as [| d u]; [simpl; now rewrite Hhead |].
  change (rev (d :: u)) with (rev u ++ [d]).
  rewrite app_comm_cons, last_last. now rewrite Hlast.
Qed.

(** *** Windows *)

(** A window is never longer than the chunk size. *)
Lemma window_len_le (text : str) (cs s : Z) :
  0 <= cs -> len (fst (window text cs s)) <= cs.
Proof.
  intros Hcs. unfold window.
  pose proof (slice_len_le text s (s + cs) ltac:(lia)) as Hfull.
  destruct (s + cs <? len text); [| simpl; lia].
  pose proof (rfind_bound (slice text s (s + cs)) period) as Hp.
  pose proof (rfind_bound (slice text s (s + cs)) newline) as Hn.
  destruct (Z.max _ _ >? s + cs / 2); simpl; [| lia].
  pose proof (slice_len_le text s
    (s + Z.max (rfind (slice text s (s + cs)) period)
               (rfind (slice text s (s + cs)) newline) + 1) ltac:(lia)).
  lia.
Qed.

Lemma window_loop_windows_le (text : str) (cs ov : Z) :
  0 <= cs ->
  forall (fuel : nat) (s : Z) (ws : list str),
  window_loop fuel text cs ov s = Returns ws ->
  Forall (fun w => len w <= cs) ws.
Proof.
  intros Hcs. induction fuel as [| fuel IH]; intros s ws; [discriminate |].
  rewrite window_loop_S. destruct (s <? len text).
  - destruct (window_loop fuel text cs ov (snd (window text cs s) - ov))
      as [rest | |] eqn:E; try discriminate.
    simpl. intros H; injection H as <-. constructor.
    + now apply window_len_le.
    + exact (IH _ _ E).
  - intros H; injection H as <-. constructor.
Qed.

(** With a start that moves forward at every pass, there are at most as many
    windows as characters left. *)
Lemma window_loop_count (text : str) (cs ov : Z) :
  ov <= cs / 2 + 1 -> ov < cs ->
  forall (fuel : nat) (s : Z) (ws : list str),
  0 <= s -> window_loop fuel text cs ov s = Returns ws ->
  len ws <= Z.max 0 (len text - s).
Proof.
  intros Hhalf Hlt. induction fuel as [| fuel IH]; intros s ws Hs;
    [discriminate |].
  rewrite window_loop_S. destruct (Z.ltb_spec s (len text)).
  - pose proof (window_progress text cs ov s Hs Hhalf Hlt) as Hp.
    destruct (window_loop fuel text cs ov (snd (window text cs s) - ov))
      as [rest | |] eqn:E; try discriminate.
    simpl. intros Hws; injection Hws as <-.
    pose proof (IH (snd (window text cs s) - ov) rest ltac:(lia) E) as Hrest.
    unfold len in *. simpl List.length. lia.
  - intros Hws; injection Hws as <-. unfold len. simpl. lia.
Qed.

(** X1. With [overlap <= chunk_size // 2 + 1] and [overlap < chunk_size] the
    call returns after at most [len(text)] passes, with at most [len(text)]
    chunks. *)
Theorem extract_text_chunks_terminates (text : str) (cs ov : Z) :
  ov <= cs / 2 + 1 -> ov < cs ->
  exists chunks,
    extract_text_chunks (S (Z.to_nat (len text))) text cs ov = Returns chunks
    /\ len chunks <= len text.
Proof.
  intros Hhalf Hlt. unfold extract_text_chunks. rewrite chunk_loop_windows.
  pose proof (len_nonneg text) as Hn.
  destruct (window_loop_terminates text cs ov Hhalf Hlt
              (Z.to_nat (len text)) 0) as [ws Hws]; [lia | lia |].
  rewrite Hws. exists (map strip ws). split; [reflexivity |].
  pose proof (window_loop_count text cs ov Hhalf Hlt _ 0 ws ltac:(lia) Hws).
  unfold len in *. rewrite length_map. lia.
Qed.

Lemma extract_text_chunks_terminates_witness :
  exists chunks,
    extract_text_chunks
      (S (Z.to_nat (len (lit "One. Two. Three. Four. Five. Six."))))
      (lit "One. Two. Three. Four. Five. Six.") 12 4 = Returns chunks
    /\ len chunks <= len (lit "One. Two. Three. Four. Five. Six.").
Proof.
  apply (extract_text_chunks_terminates
           (lit "One. Two. Three. Four. Five. Six.") 12 4);
    [vm_compute; discriminate | lia].
Defined.

(** X2. Whatever the overlap, a chunk never has more than [chunk_size]
    characters. *)
Theorem extract_text_chunks_size_bound (fuel : nat) (text : str) (cs ov : Z)
    (chunks : list str) :
  0 <= cs ->
  extract_text_chunks fuel text cs ov = Returns chunks ->
  Forall (fun chunk => len chunk <= cs) chunks.
Proof.
  intros Hcs. unfold extract_text_chunks. rewrite chunk_loop_windows.
  destruct (window_loop fuel text cs ov 0) as [ws | |] eqn:E;
    try discriminate.
  simpl. intros H; injection H as <-.
  pose proof (window_loop_windows_le text cs ov Hcs _ _ _ E) as Hws.
  apply Forall_map. eapply Forall_impl; [| exact Hws].
  intros w Hw. simpl in Hw. pose proof (strip_length w). lia.
Qed.

Lemma extract_text_chunks_size_bound_witness :
  Forall (fun chunk => len chunk <= 12)
    [lit "One. Two."; lit "Two. Three."; lit "ee. Four. Fi";
     lit ". Five. Six."; lit "Six."].
Proof.
  apply (extract_text_chunks_size_bound 10
           (lit "One. Two. Three. Four. Five. Six.") 12 4);
    [lia | reflexivity].
Defined.

(** X3. No chunk starts or ends with whitespace. *)
Theorem extract_text_chunks_trimmed (fuel : nat) (text : str) (cs ov : Z)
    (chunks : list str) :
  extract_text_chunks fuel text cs ov = Returns chunks ->
  Forall (fun chunk => trimmed chunk = true) chunks.
Proof.
  unfold extract_text_chunks. rewrite chunk_loop_windows.
  destruct (window_loop fuel text cs ov 0) as [ws | |]; try discriminate.
  simpl. intros H; injection H as <-.
  apply Forall_map, Forall_forall. intros w _. apply strip_trimmed.
Qed.

Lemma extract_text_chunks_trimmed_witness :
  Forall (fun chunk => trimmed chunk = true) [lit "ab"; lit "cd"].
Proof.
  apply (extract_text_chunks_trimmed 3 (lit "ab cd") 3 0). reflexivity.
Defined.

(** X4. A text that is not empty and no longer than [chunk_size - overlap],
    nor than [chunk_size], comes back as one chunk: the text trimmed. *)
Theorem extract_text_chunks_short_text (text : str) (cs ov : Z) :
  text <> [] -> len text <= cs -> len text <= cs - ov ->
  extract_text_chunks 2 text cs ov = Returns [strip text].
Proof.
  intros Hne Hcs Hov. unfold extract_text_chunks.
  assert (0 < len text) as Hpos
    by (destruct text; [congruence | unfold len; simpl; lia]).
  cbn [chunk_loop].
  destruct (Z.ltb_spec 0 (len text)); [| lia].
  assert (window text cs 0 = (text, cs)) as ->.
  { unfold window. simpl. destruct (Z.ltb_spec cs (len text)); [lia |].
    rewrite slice_nonneg by lia. simpl.
    rewrite Nat.sub_0_r, firstn_all2; [reflexivity | unfold len in *; lia]. }
  destruct (Z.ltb_spec (cs - ov) (len text)); [lia | reflexivity].
Qed.

Lemma extract_text_chunks_short_text_witness :
  extract_text_chunks 2 (lit "  Form I-130  ") 1000 200
  = Returns [lit "Form I-130"].
Proof.
  apply (extract_text_chunks_short_text (lit "  Form I-130  ") 1000 200);
    [discriminate | vm_compute; discriminate | vm_compute; discriminate].
Defined.

End ChunkerCoverage.

(** ** More about classification and confidence *)

Module ClassifierCoverage.
Import PyFacts ParserClaims.

Set Warnings "-inexact-float".



Lemma keys_functional {V : Type} (d : list (str * V)) (k : str) (v1 v2 : V) :
  NoDup (map fst d) -> In (k, v1) d -> In (k, v2) d -> v1 = v2.
Proof.
  induction d as [| [k' v'] d IH]; simpl; [tauto |].
  intros Hnd. inversion Hnd as [| ? ? Hnotin Hrest]; subst.
  intros [H1 | H1] [H2 | H2].
  - congruence.
  - injection H1 as -> ->. exfalso. apply Hnotin.
    change k with (fst (k, v2)). now apply in_map.
  - injection H2 as -> ->. exfalso. apply Hnotin.
    change k with (fst (k, v1)). now apply in_map.
  - now apply IH.
Qed.








Lemma lower_char_idempotent (c : ascii) :
  lower_char (lower_char c) = lower_char c.
Proof.
  destruct c as [[] [] [] [] [] [] [] []]; reflexivity.
Qed.

Lemma lower_idempotent (s : str) : lower (lower s) = lower s.
Proof.
  unfold lower. rewrite map_map. apply map_ext. apply lower_char_idempotent.
Qed.

(** X7. Letter case does not count: lowering a text first, as a caller might,
    changes nothing, and two texts that differ only in case get the same
    label. *)
Theorem classify_document_ignores_case (text : str) :
  _classify_document (lower text) = _classify_document text
  /\ (forall other, lower other = lower text ->
                    _classify_document other = _classify_document text).
Proof.
  unfold _classify_document. split.
  - now rewrite lower_idempotent.
  - now intros other ->.
Qed.

Lemma classify_document_ignores_case_witness :
  _classify_document (lit "petition for alien relative")
  = _classify_document (lit "Petition for Alien Relative").
Proof.
  apply (proj2 (classify_document_ignores_case
                  (lit "Petition for Alien Relative"))).
  reflexivity.
Defined.

(** X8. More evidence never lowers the score: a further form field or table
    leaves it or raises it, and no input scores below the bare text. *)
Theorem calculate_confidence_monotone (text : str)
    (fields : list FormField) (tbls : list TableData)
    (field : FormField) (table : TableData) :
  PrimFloat.leb (_calculate_confidence text fields tbls)
                (_calculate_confidence text (field :: fields) tbls) = true
  /\ PrimFloat.leb (_calculate_confidence text fields tbls)
                   (_calculate_confidence text fields (table :: tbls)) = true
  /\ PrimFloat.leb (_calculate_confidence text [] [])
                   (_calculate_confidence text fields tbls) = true.
Proof.
  unfold _calculate_confidence. cbn [truthy].
  destruct (len (strip text) >? 100),
           (negb (str_eqb (_classify_document text) (lit "Unknown Document"))),
           (truthy fields), (truthy tbls);
    repeat split; reflexivity.
Qed.

End ClassifierCoverage.

(** ** More about extraction *)

Module ExtractionCoverage.
Import PyFacts ParserClaims.

Set Warnings "-inexact-float".

(** *** Form fields *)

Lemma or_else_nonempty (a : option str) (b : str) :
  b <> [] -> or_else a b <> [].
Proof. destruct a as [[| c s] |]; simpl; congruence. Qed.

Lemma page_form_fields_spec (page_num : Z) (page_widgets : list Widget) :
  forall form_fields,
  exists added,
    page_form_fields page_num page_widgets form_fields = form_fields ++ added
    /\ map field_type added = map w_field_type_string page_widgets
    /\ Forall (field_ok (page_num + 1) (page_num + 1)) added.
Proof.
  induction page_widgets as [| widget rest IH]; intros form_fields.
  - exists []. simpl. now rewrite app_nil_r.
  - cbn [page_form_fields].
    match goal with
    | |- context [page_form_fields _ _ ?acc] =>
        destruct (IH acc) as (added & -> & Htypes & Hok)
    end.
    eexists (_ :: added). rewrite <- app_assoc. split; [reflexivity |].
    split; [simpl; now rewrite Htypes |].
    constructor; [| exact Hok].
    split; simpl; [| lia]. apply or_else_nonempty. discriminate.
Qed.

Lemma pages_form_fields_spec (pages : list Page) :
  forall page_num form_fields,
  exists added,
    pages_form_fields page_num pages form_fields = form_fields ++ added
    /\ map field_type added
       = flat_map (fun page => map w_field_type_string (widgets page)) pages
    /\ Forall (field_ok (page_num + 1) (page_num + len pages)) added.
Proof.
  induction pages as [| page rest IH]; intros page_num form_fields; simpl.
  - exists []. now rewrite app_nil_r.
  - destruct (page_form_fields_spec page_num (widgets page) form_fields)
      as (first & -> & Hfirst & Hok1).
    destruct (IH (page_num + 1) (form_fields ++ first))
      as (more & -> & Hmore & Hok2).
    exists (first ++ more). rewrite <- app_assoc. split; [reflexivity |].
    split; [now rewrite map_app, Hfirst, Hmore |].
    replace (len (page :: rest)) with (1 + len rest)
      by (unfold len; simpl List.length; lia).
    pose proof (len_nonneg rest).
    apply Forall_app. split.
    + eapply Forall_impl; [| exact Hok1]. unfold field_ok. intuition lia.
    + eapply Forall_impl; [| exact Hok2]. unfold field_ok. intuition lia.
Qed.

(** The fields added for the widgets of one page: the field at position [j]
    is made from the widget at position [j], and its default name counts the
    fields gathered before it. *)
Lemma page_form_fields_nth (page_num : Z) (page_widgets : list Widget) :
  forall form_fields,
  exists added,
    page_form_fields page_num page_widgets form_fields = form_fields ++ added
    /\ List.length added = List.length page_widgets
    /\ forall (j : nat) (widget : Widget),
         nth_error page_widgets j = Some widget ->
         exists field,
           nth_error added j = Some field
           /\ field_name field
              = match w_field_name widget with
                | Some (c :: s) => c :: s
                | _ => lit "field_"
                       ++ decimal (Z.of_nat (List.length form_fields + j))
                end
           /\ field_type field = w_field_type_string widget
           /\ field_value field
              = match w_field_value widget with
                | Some value => value
                | None => []
                end
           /\ coordinates field = w_rect widget
           /\ page_number field = page_num + 1.
Proof.
  induction page_widgets as [| widget rest IH]; intros form_fields.
  - exists []. simpl. rewrite app_nil_r. repeat split.
    intros [| j] w; discriminate.
  - cbn [page_form_fields].
    match goal with
    | |- context [page_form_fields _ _ (_ ++ [?f])] =>
        destruct (IH (form_fields ++ [f])) as (added & -> & Hlen & Hnth);
        exists (f :: added)
    end.
    rewrite <- app_assoc. split; [reflexivity |].
    split; [simpl; now rewrite Hlen |].
    intros [| j] w Hw.
    + injection Hw as <-. eexists. split; [reflexivity |].
      cbn [field_name field_type field_value coordinates page_number].
      rewrite Nat.add_0_r. unfold or_else, len.
      repeat split. now destruct (w_field_value widget) as [[| c v] |].
    + destruct (Hnth j w Hw) as (field & Hfield & Hname & Hrest).
      exists field. split; [exact Hfield |]. split; [| exact Hrest].
      rewrite Hname, length_app. cbn [List.length].
      now replace (List.length form_fields + 1 + j)%nat
        with (List.length form_fields + S j)%nat by lia.
Qed.

(** The same for the pages of a document: the widget at position [j] of the
    page at index [p] gives the field that comes after the fields of all the
    widgets of the pages before. *)
Lemma pages_form_fields_nth (pages : list Page) :
  forall page_num form_fields,
  exists added,
    pages_form_fields page_num pages form_fields = form_fields ++ added
    /\ List.length added = List.length (flat_map widgets pages)
    /\ forall (p j : nat) (page : Page) (widget : Widget),
         nth_error pages p = Some page ->
         nth_error (widgets page) j = Some widget ->
         let position :=
           (List.length (flat_map widgets (firstn p pages)) + j)%nat in
         exists field,
           nth_error added position = Some field
           /\ field_name field
              = match w_field_name widget with
                | Some (c :: s) => c :: s
                | _ => lit "field_"
                       ++ decimal
                            (Z.of_nat (List.length form_fields + position))
                end
           /\ field_type field = w_field_type_string widget
           /\ field_value field
              = match w_field_value widget with
                | Some value => value
                | None => []
                end
           /\ coordinates field = w_rect widget
           /\ page_number field = page_num + Z.of_nat p + 1.
Proof.
  induction pages as [| first rest IH]; intros page_num form_fields.
  - exists []. simpl. rewrite app_nil_r. repeat split.
    intros [| p] j page w; discriminate.
  - cbn [pages_form_fields].
    destruct (page_form_fields_nth page_num (widgets first) form_fields)
      as (added1 & -> & Hlen1 & Hnth1).
    destruct (IH (page_num + 1) (form_fields ++ added1))
      as (added2 & -> & Hlen2 & Hnth2).
    exists (added1 ++ added2). rewrite <- app_assoc. split; [reflexivity |].
    split.
    { cbn [flat_map]. now rewrite !length_app, Hlen1, Hlen2. }
    intros [| p] j page w Hpage Hw.
    + injection Hpage as <-. cbn [firstn flat_map List.length Nat.add].
      destruct (Hnth1 j w Hw) as (field & Hfield & Hname & Hrest).
      exists field. split.
      { rewrite nth_error_app1; [exact Hfield |].
        rewrite Hlen1. apply nth_error_Some. congruence. }
      split; [exact Hname |].
      destruct Hrest as (Htype & Hvalue & Hbox & Hpage).
      repeat split; try assumption. rewrite Hpage. simpl. lia.
    + cbn [nth_error] in Hpage.
      destruct (Hnth2 p j page w Hpage Hw)
        as (field & Hfield & Hname & Htype & Hvalue & Hbox & Hnum).
      exists field. cbn [firstn flat_map]. rewrite length_app. split.
      { rewrite nth_error_app2 by (rewrite Hlen1; lia).
        rewrite <- Hfield. f_equal. rewrite Hlen1. lia. }
      split.
      { rewrite Hname, length_app, Hlen1.
        now replace (List.length form_fields + List.length (widgets first)
                     + (List.length (flat_map widgets (firstn p rest)) + j))%nat
          with (List.length form_fields
                + (List.length (widgets first)
                   + List.length (flat_map widgets (firstn p rest)) + j))%nat
          by lia. }
      repeat split; try assumption. rewrite Hnum. lia.
Qed.

(** X9. There is one form field per widget, in page order and in the order of
    the widgets on each page, and each field is made from its own widget: the
    widget at position [j] of the page at index [p] gives the field at the
    position that counts the widgets of the earlier pages and the [j] before
    it. That field has the widget's name, or "field_" followed by its position
    in the list when the widget has no name or an empty one; the widget's type
    and box; the widget's value, or the empty string; and the page number
    [p + 1]. So every name is not empty and every page number lies between 1
    and the page count. *)
Theorem extract_form_fields_shape (doc : Document) :
  map field_type (_extract_form_fields doc)
  = flat_map (fun page => map w_field_type_string (widgets page))
      (doc_pages doc)
  /\ len (_extract_form_fields doc)
     = len (flat_map widgets (doc_pages doc))
  /\ Forall (field_ok 1 (doc_page_count doc)) (_extract_form_fields doc)
  /\ (forall (p j : nat) (page : Page) (widget : Widget),
        nth_error (doc_pages doc) p = Some page ->
        nth_error (widgets page) j = Some widget ->
        let position :=
          (List.length (flat_map widgets (firstn p (doc_pages doc))) + j)%nat in
        exists field,
          nth_error (_extract_form_fields doc) position = Some field
          /\ field_name field
             = match w_field_name widget with
               | Some (c :: s) => c :: s
               | _ => lit "field_" ++ decimal (Z.of_nat position)
               end
          /\ field_type field = w_field_type_string widget
          /\ field_value field
             = match w_field_value widget with
               | Some value => value
               | None => []
               end
          /\ coordinates field = w_rect widget
          /\ page_number field = Z.of_nat p + 1).
Proof.
  split; [| split; [| split]].
  - unfold _extract_form_fields.
    destruct (pages_form_fields_spec (doc_pages doc) 0 [])
      as (added & -> & Htypes & _). exact Htypes.
  - unfold _extract_form_fields.
    destruct (pages_form_fields_nth (doc_pages doc) 0 [])
      as (added & -> & Hlen & _). unfold len. cbn [app]. now rewrite Hlen.
  - unfold _extract_form_fields, doc_page_count.
    destruct (pages_form_fields_spec (doc_pages doc) 0 [])
      as (added & -> & _ & Hok). exact Hok.
  - intros p j page widget Hpage Hwidget position.
    unfold _extract_form_fields.
    destruct (pages_form_fields_nth (doc_pages doc) 0 [])
      as (added & -> & _ & Hnth).
    destruct (Hnth p j page widget Hpage Hwidget)
      as (field & Hfield & Hname & Htype & Hvalue & Hbox & Hnum).
    exists field. cbn [app]. repeat split; assumption.
Qed.

Lemma extract_form_fields_shape_witness :
  exists field,
    nth_error (_extract_form_fields sample_document) 1 = Some field
    /\ field_name field = lit "field_1"
    /\ page_number field = 1.
Proof.
  destruct (proj2 (proj2 (proj2 (extract_form_fields_shape sample_document)))
              0%nat 1%nat _ (sample_widget None) eq_refl eq_refl)
    as (field & Hfield & Hname & _ & _ & _ & Hnum).
  exists field. split; [exact Hfield |]. split; [exact Hname | exact Hnum].
Defined.

(** *** Images *)

Lemma page_images_info_spec (page_num : Z) (image_list : list Image) :
  forall img_index images_info,
  exists added,
    page_images_info page_num img_index image_list images_info
    = images_info ++ added
    /\ map xref added = map img_xref (filter kept_image image_list)
    /\ Forall (fun info => image_page_number info = page_num + 1) added.
Proof.
  induction image_list as [| img rest IH]; intros img_index images_info.
  - exists []. simpl. now rewrite app_nil_r.
  - cbn [page_images_info filter]. fold (kept_image img).
    destruct (kept_image img).
    + match goal with
      | |- context [page_images_info _ _ _ ?acc] =>
          destruct (IH (img_index + 1) acc) as (added & -> & Hx & Hp)
      end.
      eexists (_ :: added). rewrite <- app_assoc. split; [reflexivity |].
      split; [simpl; now rewrite Hx | now constructor].
    + destruct (IH (img_index + 1) images_info) as (added & -> & Hx & Hp).
      now exists added.
Qed.

Lemma pages_images_info_spec (pages : list Page) :
  forall page_num images_info,
  exists added,
    pages_images_info page_num pages images_info = images_info ++ added
    /\ map xref added
       = map img_xref (filter kept_image (flat_map get_images pages))
    /\ Forall (fun info =>
                 page_num + 1 <= image_page_number info
                              <= page_num + len pages) added.
Proof.
  induction pages as [| page rest IH]; intros page_num images_info; simpl.
  - exists []. now rewrite app_nil_r.
  - destruct (page_images_info_spec page_num (get_images page) 0 images_info)
      as (first & -> & Hfirst & Hp1).
    destruct (IH (page_num + 1) (images_info ++ first))
      as (more & -> & Hmore & Hp2).
    exists (first ++ more). rewrite <- app_assoc. split; [reflexivity |].
    split; [now rewrite filter_app, !map_app, Hfirst, Hmore |].
    replace (len (page :: rest)) with (1 + len rest)
      by (unfold len; simpl List.length; lia).
    pose proof (len_nonneg rest).
    apply Forall_app. split.
    + eapply Forall_impl; [| exact Hp1].
      intros info Hinfo. cbv beta in *. lia.
    + eapply Forall_impl; [| exact Hp2].
      intros info Hinfo. cbv beta in *. lia.
Qed.

(** X10. The image inventory lists, in document order, exactly the images
    whose pixmap has fewer than four colour components besides alpha; each
    entry has a page number between 1 and the page count. *)
Theorem extract_images_info_kept (doc : Document) :
  map xref (_extract_images_info doc)
  = map img_xref (filter kept_image (flat_map get_images (doc_pages doc)))
  /\ Forall (fun info => 1 <= image_page_number info <= doc_page_count doc)
       (_extract_images_info doc).
Proof.
  unfold _extract_images_info, doc_page_count.
  destruct (pages_images_info_spec (doc_pages doc) 0 [])
    as (added & -> & Hx & Hp).
  simpl. split; [exact Hx | exact Hp].
Qed.

End ExtractionCoverage.

(** ** More about tables and the parsed document *)

Module ParseCoverage.
Import PyFacts ParserClaims ChunkerCoverage.

Set Warnings "-inexact-float".

(** *** Tables *)

Lemma table_rows_length (table : raw_table) (rows : list (list str)) :
  table_rows table = Some rows -> List.length rows = List.length table.
Proof.
  revert rows. induction table as [| row rest IH]; intros rows; simpl.
  - intros H; injection H as <-. reflexivity.
  - destruct (row_cells row); [| discriminate].
    destruct (table_rows rest) as [rows' |]; [| discriminate].
    intros H; injection H as <-. simpl. f_equal. now apply IH.
Qed.

Lemma row_cells_clean (row : list str) :
  row_cells (map (@Some str) row) = Some row.
Proof. induction row as [| c row IH]; simpl; [| rewrite IH]; reflexivity. Qed.

Lemma table_rows_clean (table : list (list str)) :
  table_rows (map (map (@Some str)) table) = Some table.
Proof.
  induction table as [| row rest IH]; simpl; [reflexivity |].
  now rewrite row_cells_clean, IH.
Qed.

Lemma page_tables_loop_spec (page_num : Z) (page_tables : list raw_table) :
  0 <= page_num ->
  forall tables,
  exists added,
    fst (page_tables_loop page_num page_tables tables) = tables ++ added
    /\ Forall (table_ok (page_num + 1)) added.
Proof.
  intros Hpos. induction page_tables as [| table rest IH]; intros tables.
  - exists []. simpl. now rewrite app_nil_r.
  - cbn [page_tables_loop].
    destruct (truthy table && (len table >? 1)) eqn:Hkeep.
    + destruct (table_rows table) as [rows |] eqn:Hrows.
      * match goal with
        | |- context [page_tables_loop _ _ ?acc] =>
            destruct (IH acc) as (added & -> & Hok)
        end.
        eexists (_ :: added). rewrite <- app_assoc. split; [reflexivity |].
        constructor; [| exact Hok].
        apply andb_true_iff in Hkeep as [_ Hlen].
        apply Z.gtb_lt in Hlen.
        unfold table_ok, len in *. simpl.
        rewrite (table_rows_length _ _ Hrows).
        repeat split; try reflexivity; lia.
      * exists []. simpl. now rewrite app_nil_r.
    + apply IH.
Qed.

Lemma pdf_tables_loop_spec (pages : list (outcome (list raw_table))) :
  forall page_num tables,
  0 <= page_num ->
  exists added,
    pdf_tables_loop page_num pages tables = tables ++ added
    /\ Forall (table_ok (page_num + len pages)) added.
Proof.
  induction pages as [| page rest IH]; intros page_num tables Hpos.
  - exists []. simpl. now rewrite app_nil_r.
  - replace (len (page :: rest)) with (1 + len rest)
      by (unfold len; simpl List.length; lia).
    pose proof (len_nonneg rest) as Hrest.
    assert (forall added, Forall (table_ok (page_num + 1)) added ->
                          Forall (table_ok (page_num + (1 + len rest))) added)
      as Hwiden.
    { intros added H. eapply Forall_impl; [| exact H].
      unfold table_ok. intuition lia. }
    cbn [pdf_tables_loop].
    destruct page as [page_tables | exn |];
      try (exists []; now rewrite app_nil_r).
    destruct (page_tables_loop_spec page_num page_tables Hpos tables)
      as (first & Hfirst & Hok1).
    destruct (page_tables_loop page_num page_tables tables)
      as [tables' finished]. simpl in Hfirst. subst tables'.
    destruct finished.
    + destruct (IH (page_num + 1) (tables ++ first) ltac:(lia))
        as (more & -> & Hok2).
      exists (first ++ more). rewrite <- app_assoc. split; [reflexivity |].
      apply Forall_app. split; [now apply Hwiden |].
      now replace (page_num + (1 + len rest)) with (page_num + 1 + len rest)
        by lia.
    + exists first. split; [reflexivity | now apply Hwiden].
Qed.

(** X11. Every table kept has more than one row, the placeholder box
    (0, 0, 0, 0), a page number between 1 and the number of pages, and as text
    its rows joined by newlines with the cells of a row joined by tabs. When
    [pdfplumber.open] raises, the answer is the empty list. *)
Theorem extract_tables_retained
    (pdf : outcome (list (outcome (list raw_table)))) :
  match pdf with
  | Returns pages => Forall (table_ok (len pages)) (_extract_tables pdf)
  | _ => _extract_tables pdf = []
  end.
Proof.
  destruct pdf as [pages | exn |]; try reflexivity.
  unfold _extract_tables.
  destruct (pdf_tables_loop_spec pages 0 [] ltac:(lia)) as (added & -> & Hok).
  exact Hok.
Qed.

Lemma page_tables_loop_poisoned (page_num : Z)
    (before after : list raw_table) (bad : raw_table) :
  poisoned bad = true ->
  forall tables,
  page_tables_loop page_num (before ++ bad :: after) tables
  = (fst (page_tables_loop page_num before tables), false).
Proof.
  intros Hbad. unfold poisoned in Hbad.
  apply andb_true_iff in Hbad as [Hkeep Hnone].
  induction before as [| table rest IH]; intros tables.
  - cbn [app page_tables_loop fst]. rewrite Hkeep.
    now destruct (table_rows bad).
  - cbn [app page_tables_loop].
    destruct (truthy table && (len table >? 1)); [| apply IH].
    destruct (table_rows table); [apply IH | reflexivity].
Qed.

Lemma pdf_tables_loop_poisoned (pre post : list (outcome (list raw_table)))
    (before after : list raw_table) (bad : raw_table) :
  poisoned bad = true ->
  forall page_num tables,
  pdf_tables_loop page_num (pre ++ Returns (before ++ bad :: after) :: post)
    tables
  = pdf_tables_loop page_num (pre ++ [Returns before]) tables.
Proof.
  intros Hbad. induction pre as [| page rest IH]; intros page_num tables.
  - cbn [app pdf_tables_loop].
    rewrite (page_tables_loop_poisoned _ _ _ _ Hbad).
    destruct (page_tables_loop page_num before tables) as [kept finished].
    now destruct finished.
  - cbn [app pdf_tables_loop]. destruct page as [page_tables | exn |];
      try reflexivity.
    destruct (page_tables_loop page_num page_tables tables)
      as [kept finished].
    destruct finished; [apply IH | reflexivity].
Qed.

(** X12. A cell that is [None] in a table with more than one row ends the
    extraction without an error: that table, the tables after it on the page
    and the tables of every later page are left out, as if the document ended
    just before it. *)
Theorem extract_tables_stops_at_empty_cell
    (pre post : list (outcome (list raw_table)))
    (before after : list raw_table) (bad : raw_table) :
  poisoned bad = true ->
  _extract_tables (Returns (pre ++ Returns (before ++ bad :: after) :: post))
  = _extract_tables (Returns (pre ++ [Returns before])).
Proof.
  intros Hbad. unfold _extract_tables.
  now apply pdf_tables_loop_poisoned.
Qed.

Lemma extract_tables_stops_at_empty_cell_witness :
  _extract_tables
    (Returns
       ([Returns [[[Some (lit "a")]; [Some (lit "b")]]]]
        ++ Returns ([] ++ [[Some (lit "x")]; [None]]
                       :: [[[Some (lit "c")]; [Some (lit "d")]]])
        :: [Returns [[[Some (lit "e")]; [Some (lit "f")]]]]))
  = _extract_tables
      (Returns ([Returns [[[Some (lit "a")]; [Some (lit "b")]]]]
                ++ [Returns []])).
Proof.
  apply (extract_tables_stops_at_empty_cell
           [Returns [[[Some (lit "a")]; [Some (lit "b")]]]]
           [Returns [[[Some (lit "e")]; [Some (lit "f")]]]]
           [] [[[Some (lit "c")]; [Some (lit "d")]]]
           [[Some (lit "x")]; [None]]).
  reflexivity.
Defined.

Lemma page_tables_loop_clean (page_num : Z)
    (page_tables : list (list (list str))) :
  forall tables,
  exists added,
    page_tables_loop page_num (map (map (map (@Some str))) page_tables) tables
    = (tables ++ added, true)
    /\ map table_data added
       = filter (fun table => len table >? 1) page_tables.
Proof.
  induction page_tables as [| table rest IH]; intros tables.
  - exists []. simpl. now rewrite app_nil_r.
  - cbn [map page_tables_loop filter].
    replace (truthy (map (map (@Some str)) table)
             && (len (map (map (@Some str)) table) >? 1))
      with (len table >? 1)
      by (unfold len; rewrite length_map; now destruct table).
    destruct (len table >? 1).
    + rewrite table_rows_clean.
      match goal with
      | |- context [page_tables_loop _ _ ?acc] =>
          destruct (IH acc) as (added & -> & Hdata)
      end.
      eexists (_ :: added). rewrite <- app_assoc. split; [reflexivity |].
      simpl. now rewrite Hdata.
    + apply IH.
Qed.

Lemma pdf_tables_loop_clean (pages : list (list (list (list str)))) :
  forall page_num tables,
  exists added,
    pdf_tables_loop page_num
      (map (fun page_tables =>
              Returns (map (map (map (@Some str))) page_tables)) pages)
      tables
    = tables ++ added
    /\ map table_data added
       = filter (fun table => len table >? 1) (List.concat pages).
Proof.
  induction pages as [| page rest IH]; intros page_num tables.
  - exists []. simpl. now rewrite app_nil_r.
  - cbn [map pdf_tables_loop List.concat].
    destruct (page_tables_loop_clean page_num page tables)
      as (first & -> & Hfirst).
    destruct (IH (page_num + 1) (tables ++ first)) as (more & -> & Hmore).
    exists (first ++ more). rewrite <- app_assoc. split; [reflexivity |].
    now rewrite filter_app, map_app, Hfirst, Hmore.
Qed.

(** X13. When every cell is a string and nothing raises, the tables kept are
    exactly the tables with more than one row, in document order, with their
    rows unchanged: a table of one row, or of none, is dropped. *)
Theorem extract_tables_keeps_multi_row
    (pages : list (list (list (list str)))) :
  map table_data (_extract_tables (clean_pdf pages))
  = filter (fun table => len table >? 1) (List.concat pages).
Proof.
  unfold _extract_tables, clean_pdf.
  destruct (pdf_tables_loop_clean pages 0 []) as (added & -> & Hdata).
  exact Hdata.
Qed.

(** *** The parsed document *)

Lemma rev_head_last (s : str) (c d : ascii) :
  exists rest, rev (c :: s) = last (c :: s) d :: rest.
Proof.
  destruct (exists_last (l := c :: s) ltac:(discriminate)) as (body & z & E).
  rewrite E, last_last, rev_app_distr. simpl. now eexists.
Qed.

(** Trimming a text that has no whitespace at its ends changes nothing. *)
Lemma strip_of_trimmed (s : str) : trimmed s = true -> strip s = s.
Proof.
  destruct s as [| c s]; [reflexivity |].
  unfold trimmed. rewrite andb_true_iff, !negb_true_iff. intros [Hc Hlast].
  unfold strip, rstrip. cbn [lstrip]. rewrite Hc.
  destruct (rev_head_last s c c) as (rest & E). rewrite E.
  cbn [lstrip]. rewrite Hlast, <- E. apply rev_involutive.
Qed.

Lemma extract_text_spec (texts : list str) :
  _extract_text texts = (strip (join [newline] texts), texts).
Proof.
  unfold _extract_text. rewrite extract_text_fold. simpl.
  destruct texts as [| page rest]; [reflexivity |].
  rewrite concat_lines_join by discriminate.
  now rewrite strip_app_space.
Qed.

(** X14. Once [fitz.open] has returned, parsing returns a document whose
    parts agree: the per-page texts are the pages' texts and their number is
    the page count; the full text is their join by newlines, trimmed at both
    ends; the type is the label of that full text, one of the known labels;
    the file size is 0; and the confidence, a value in [0, 1], is the
    weighted sum of four facts visible on the document itself: a full text
    longer than 100, a form field, a table, a type other than the unknown
    one. *)
Theorem parse_pdf_consistent (doc : Document)
    (pdf : outcome (list (outcome (list raw_table)))) :
  exists parsed,
    parse_pdf (Returns doc) pdf = Returns parsed
    /\ pages_text parsed = map get_text (doc_pages doc)
    /\ len (pages_text parsed) = page_count (metadata parsed)
    /\ full_text parsed = strip (join [newline] (pages_text parsed))
    /\ trimmed (full_text parsed) = true
    /\ document_type parsed = _classify_document (full_text parsed)
    /\ In (document_type parsed) labels
    /\ file_size (metadata parsed) = 0
    /\ confidence_score parsed
       = confidence_model (len (full_text parsed) >? 100)
           (truthy (form_fields parsed)) (truthy (tables parsed))
           (negb (str_eqb (document_type parsed) (lit "Unknown Document")))
    /\ in_unit_interval (confidence_score parsed) = true.
Proof.
  unfold parse_pdf. rewrite extract_text_spec.
  eexists. split; [reflexivity |]. cbn [pages_text full_text metadata
    document_type confidence_score form_fields tables].
  set (full := strip (join [newline] (map get_text (doc_pages doc)))).
  assert (_calculate_confidence full (_extract_form_fields doc)
            (_extract_tables pdf)
          = confidence_model (len full >? 100)
              (truthy (_extract_form_fields doc))
              (truthy (_extract_tables pdf))
              (negb (str_eqb (_classify_document full)
                       (lit "Unknown Document")))) as Hscore.
  { unfold _calculate_confidence.
    rewrite (strip_of_trimmed full (strip_trimmed _)).
    destruct (len full >? 100), (truthy (_extract_form_fields doc)),
             (truthy (_extract_tables pdf)),
             (negb (str_eqb (_classify_document full)
                      (lit "Unknown Document"))); reflexivity. }
  repeat split.
  - unfold _extract_metadata, doc_page_count, len. simpl.
    now rewrite length_map.
  - apply strip_trimmed.
  - unfold _classify_document, labels. apply in_or_app.
    destruct (first_form form_patterns (lower full)) as [label |] eqn:E.
    + left. exact (first_form_label _ _ _ E).
    + right. apply general_type_label.
  - exact Hscore.
  - rewrite Hscore.
    destruct (len full >? 100), (truthy (_extract_form_fields doc)),
             (truthy (_extract_tables pdf)),
             (negb (str_eqb (_classify_document full)
                      (lit "Unknown Document"))); reflexivity.
Qed.

End ParseCoverage.

(** ** More about the service *)

Module ServiceCoverage.
Import PyFacts ServiceClaims.

Set Warnings "-inexact-float".

(** *** Splitting into lines *)

Lemma split_nonempty (s : str) (sep : ascii) : split s sep <> [].
Proof.
  destruct s as [| c s]; simpl; [discriminate |].
  destruct (Ascii.eqb c sep); [discriminate |].
  destruct (split s sep); discriminate.
Qed.

Lemma join_cons (sep part : str) (parts : list str) :
  parts <> [] -> join sep (part :: parts) = part ++ sep ++ join sep parts.
Proof. destruct parts; [congruence | reflexivity]. Qed.

Lemma join_split (s : str) (sep : ascii) : join [sep] (split s sep) = s.
Proof.
  induction s as [| c s IH]; [reflexivity |].
  pose proof (split_nonempty s sep) as Hne.
  cbn [split]. destruct (Ascii.eqb_spec c sep) as [-> | Hc].
  - rewrite join_cons by assumption. simpl. now rewrite IH.
  - destruct (split s sep) as [| part parts]; [congruence |].
    destruct parts as [| part' parts].
    + simpl in *. now rewrite IH.
    + change (join [sep] ((c :: part) :: part' :: parts))
        with (c :: join [sep] (part :: part' :: parts)).
      now rewrite IH.
Qed.

Lemma split_no_sep (s : str) (sep : ascii) :
  Forall (fun part => ~ In sep part) (split s sep).
Proof.
  induction s as [| c s IH]; simpl.
  - constructor; [tauto | constructor].
  - destruct (Ascii.eqb_spec c sep) as [-> | Hc].
    + constructor; [tauto | exact IH].
    + destruct (split s sep) as [| part parts].
      * constructor; [| constructor]. simpl. intuition congruence.
      * inversion IH as [| ? ? Hpart Hparts]; subst.
        constructor; [| exact Hparts]. simpl. intuition congruence.
Qed.

(** *** Steps and their requests *)

Lemma firstn_app_short {A : Type} (k : nat) (l1 l2 : list A) :
  firstn k l1 = firstn (Nat.min k (List.length l1)) (l1 ++ l2).
Proof.
  rewrite firstn_app.
  replace (Nat.min k (List.length l1) - List.length l1)%nat with 0%nat by lia.
  rewrite firstn_O, app_nil_r.
  destruct (Nat.le_ge_cases k (List.length l1)).
  - now rewrite Nat.min_l.
  - rewrite Nat.min_r by assumption. now rewrite !firstn_all2 by lia.
Qed.

Lemma sends_ret {A : Type} (v : A) : sends [] (ret v).
Proof.
  intros sent. unfold ret. simpl. split.
  - exists 0%nat. now rewrite app_nil_r.
  - intros _ _. now rewrite app_nil_r.
Qed.

Lemma sends_of_outcome {A : Type} (o : outcome A) : sends [] (of_outcome o).
Proof.
  intros sent. unfold of_outcome. simpl. split.
  - exists 0%nat. now rewrite app_nil_r.
  - intros _ _. now rewrite app_nil_r.
Qed.

Lemma sends_raise {A : Type} (exn : string) : sends [] (@raise A exn).
Proof.
  intros sent. unfold raise. simpl. split.
  - exists 0%nat. now rewrite app_nil_r.
  - discriminate.
Qed.

Lemma sends_bind {A B : Type} (plan1 plan2 : list call) (m : M A)
    (k : A -> M B) :
  sends plan1 m -> (forall v, sends plan2 (k v)) ->
  sends (plan1 ++ plan2) (bind m k).
Proof.
  intros Hm Hk sent. unfold bind.
  destruct (Hm sent) as [[n Hn] Hall].
  destruct (m sent) as [[v | exn |] sent1] eqn:E; simpl in *.
  - rewrite (Hall v eq_refl).
    destruct (Hk v (sent ++ plan1)) as [[n2 Hn2] Hall2].
    split.
    + exists (List.length plan1 + n2)%nat. rewrite Hn2, <- app_assoc. f_equal.
      rewrite firstn_app, (firstn_all2 plan1) by lia. f_equal. f_equal. lia.
    + intros w Hw. rewrite (Hall2 w Hw). now rewrite app_assoc.
  - split; [| discriminate].
    exists (Nat.min n (List.length plan1)). subst sent1.
    now rewrite <- firstn_app_short.
  - split; [| discriminate].
    exists (Nat.min n (List.length plan1)). subst sent1.
    now rewrite <- firstn_app_short.
Qed.

Section Steps.

Variable remote : list call -> call -> outcome (str * Z).
Variable json_loads : str -> decoding.
Variable who : LLMProvider.

Lemma sends_call_llm (p : prompt) (max_tokens : Z) :
  sends [(who, p, max_tokens)] (_call_llm remote who p max_tokens).
Proof.
  intros sent. unfold _call_llm, _call_openai, _call_anthropic, raise.
  destruct who; simpl.
  - split; [now exists 1%nat | reflexivity].
  - split; [now exists 1%nat | reflexivity].
  - split; [exists 0%nat; now rewrite app_nil_r | discriminate].
Qed.

Lemma sends_call_then {A : Type} (p : prompt) (max_tokens : Z)
    (f : LLMResponse -> A) :
  sends [(who, p, max_tokens)]
    (bind (_call_llm remote who p max_tokens) (fun r => ret (f r))).
Proof.
  rewrite <- (app_nil_r [(who, p, max_tokens)]).
  apply sends_bind; [apply sends_call_llm | intros; apply sends_ret].
Qed.

Lemma sends_extract_key_information (parsed_doc : ParsedDocument) :
  sends [(who, KeyInformationPrompt (document_type parsed_doc)
                 (slice (full_text parsed_doc) 0 3000), 800)]
    (_extract_key_information remote json_loads who parsed_doc).
Proof.
  unfold _extract_key_information.
  match goal with |- sends ?plan _ => rewrite <- (app_nil_r plan) end.
  apply sends_bind; [apply sends_call_llm |].
  intros r.
  destruct (json_loads (content r));
    [apply sends_ret | apply sends_ret | apply sends_raise].
Qed.

Lemma sends_generate_faq (parsed_doc : ParsedDocument) :
  sends [(who, FaqPrompt (document_type parsed_doc)
                 (slice (full_text parsed_doc) 0 2000), 800)]
    (generate_faq remote json_loads who parsed_doc).
Proof.
  unfold generate_faq.
  match goal with |- sends ?plan _ => rewrite <- (app_nil_r plan) end.
  apply sends_bind; [apply sends_call_llm |].
  intros r.
  destruct (json_loads (content r));
    [apply sends_ret | apply sends_ret | apply sends_raise].
Qed.

Lemma sends_analyze_fields_loop (doc_type : str) (fields : list FormField) :
  forall acc,
  sends (map (field_request who doc_type) fields)
    (analyze_fields_loop remote who doc_type fields acc).
Proof.
  induction fields as [| field rest IH]; intros acc.
  - apply sends_ret.
  - cbn [analyze_fields_loop map].
    change (field_request who doc_type field
            :: map (field_request who doc_type) rest)
      with ([field_request who doc_type field]
            ++ map (field_request who doc_type) rest).
    apply sends_bind; [apply sends_call_llm | intros r; apply IH].
Qed.

Lemma sends_analyze_form_fields (parsed_doc : ParsedDocument) :
  sends (map (field_request who (document_type parsed_doc))
           (form_fields parsed_doc))
    (_analyze_form_fields remote who parsed_doc).
Proof.
  unfold _analyze_form_fields.
  destruct (form_fields parsed_doc) as [| field rest] eqn:E.
  - apply sends_ret.
  - cbn [truthy negb]. apply sends_analyze_fields_loop.
Qed.

End Steps.

End ServiceCoverage.

(** ** More about the comprehensive analysis *)

Module AnalysisCoverage.
Import PyFacts ServiceClaims ServiceCoverage.

Set Warnings "-inexact-float".

(** A [bind] that returns went through both of its steps. *)
Lemma bind_returned {A B : Type} (m : M A) (k : A -> M B)
    (sent sent' : list call) (w : B) :
  bind m k sent = (Returns w, sent') ->
  exists v sent1, m sent = (Returns v, sent1) /\ k v sent1 = (Returns w, sent').
Proof.
  unfold bind. destruct (m sent) as [[v | exn |] sent1]; try discriminate.
  intros H. now exists v, sent1.
Qed.

Lemma call_llm_raised (remote : list call -> call -> outcome (str * Z))
    (who : LLMProvider) (p : prompt) (max_tokens : Z) (sent : list call)
    (exn : string) :
  who <> LOCAL ->
  remote sent (who, p, max_tokens) = Raises exn ->
  _call_llm remote who p max_tokens sent
  = (Raises exn, sent ++ [(who, p, max_tokens)]).
Proof.
  intros Hwho Hexn. unfold _call_llm, _call_openai, _call_anthropic.
  destruct who; try congruence; now rewrite Hexn.
Qed.

Lemma slice_prefix {A : Type} (l : list A) (n : Z) :
  0 <= n -> slice l 0 n = firstn (Z.to_nat n) l /\ len (slice l 0 n) <= n.
Proof.
  intros Hn. split.
  - rewrite slice_nonneg by lia. simpl. now rewrite Nat.sub_0_r.
  - pose proof (slice_len_le l 0 n Hn). lia.
Qed.

(** The first [n] characters of a text: all of it when it is no longer than
    [n], and otherwise exactly [n] characters, which is not all of it. *)
Lemma firstn_cases {A : Type} (n : nat) (l : list A) :
  (len l <= Z.of_nat n -> firstn n l = l)
  /\ (len l > Z.of_nat n ->
      len (firstn n l) = Z.of_nat n /\ firstn n l <> l).
Proof.
  unfold len. split.
  - intros H. apply firstn_all2. lia.
  - intros H.
    assert (List.length (firstn n l) = n) as Hlen
      by (rewrite length_firstn; lia).
    split; [now rewrite Hlen |].
    intros Heq. rewrite Heq in Hlen. lia.
Qed.

Lemma sends_one {A : Type} (request : call) (m : M A) (sent : list call) :
  sends [request] m ->
  snd (m sent) = sent \/ snd (m sent) = sent ++ [request].
Proof.
  intros H. destruct (H sent) as [[[| k] Hk] _]; rewrite Hk.
  - left. simpl. now rewrite app_nil_r.
  - right. simpl. now rewrite firstn_nil.
Qed.

(** X15. The recommendations are the lines of the provider's answer: the list
    is never empty, no item holds a newline, and joining the items with
    newlines gives the answer back, blank lines included. *)
Theorem generate_recommendations_lines
    (remote : list call -> call -> outcome (str * Z)) (who : LLMProvider)
    (recommendations_prompt : ParsedDocument -> prompt)
    (parsed_doc : ParsedDocument) (sent sent' : list call)
    (recs : list str) :
  _generate_recommendations remote who recommendations_prompt parsed_doc sent
  = (Returns recs, sent') ->
  exists answer tokens,
    remote sent (who, recommendations_prompt parsed_doc, 600)
    = Returns (answer, tokens)
    /\ join [newline] recs = answer
    /\ recs <> []
    /\ Forall (fun line => ~ In newline line) recs.
Proof.
  unfold _generate_recommendations. intros Hrun.
  apply bind_returned in Hrun as (response & sent1 & Hcall & Hret).
  apply call_llm_returned in Hcall as [_ [tokens Hanswer]].
  unfold ret in Hret. injection Hret as <- _.
  exists (content response), tokens. repeat split.
  - exact Hanswer.
  - apply join_split.
  - apply split_nonempty.
  - apply split_no_sep.
Qed.

Lemma generate_recommendations_lines_witness :
  exists answer tokens,
    constant_remote (lit "1. File early" ++ [newline] ++ lit "2. Keep copies")
      9 [] (OPENAI, sample_prompt "recommend" sample_doc, 600)
    = Returns (answer, tokens)
    /\ join [newline] [lit "1. File early"; lit "2. Keep copies"] = answer
    /\ [lit "1. File early"; lit "2. Keep copies"] <> []
    /\ Forall (fun line => ~ In newline line)
         [lit "1. File early"; lit "2. Keep copies"].
Proof.
  apply (generate_recommendations_lines
           (constant_remote
              (lit "1. File early" ++ [newline] ++ lit "2. Keep copies") 9)
           OPENAI (sample_prompt "recommend") sample_doc []
           [(OPENAI, sample_prompt "recommend" sample_doc, 600)]).
  reflexivity.
Defined.

Lemma analyze_fields_loop_raised
    (remote : list call -> call -> outcome (str * Z)) (who : LLMProvider)
    (doc_type : str) (field : FormField) (post : list FormField)
    (exn : string) :
  who <> LOCAL ->
  (forall sent0, remote sent0 (field_request who doc_type field) = Raises exn) ->
  forall pre,
  (forall sent0 earlier, In earlier pre ->
     exists answer,
       remote sent0 (field_request who doc_type earlier) = Returns answer) ->
  forall acc sent,
  analyze_fields_loop remote who doc_type (pre ++ field :: post) acc sent
  = (Raises exn,
     sent ++ map (field_request who doc_type) (pre ++ [field])).
Proof.
  intros Hwho Hfail. induction pre as [| earlier pre IH];
    intros Hpre acc sent; cbn [app analyze_fields_loop map]; unfold bind.
  - fold (field_request who doc_type field).
    unfold field_request at 1.
    now rewrite (call_llm_raised remote who _ _ sent exn Hwho (Hfail sent)).
  - destruct (Hpre sent earlier (or_introl eq_refl)) as [[text tokens] Hans].
    destruct (call_llm_answered remote who _ _ _ _ _ Hwho Hans)
      as (response & Hcall & _).
    unfold field_request in Hcall. rewrite Hcall.
    rewrite IH by (intros sent0 e He; apply Hpre; now right).
    now rewrite <- app_assoc.
Qed.

(** X16. Per-field guidance is all or nothing: when the provider answers for
    the fields before one and raises on that one, the call raises the same
    exception, keeps none of the guidance gathered, and has sent a request for
    each of the earlier fields and for the failing one, but none after. *)
Theorem analyze_form_fields_aborts
    (remote : list call -> call -> outcome (str * Z)) (who : LLMProvider)
    (parsed_doc : ParsedDocument) (pre post : list FormField)
    (field : FormField) (exn : string) (sent : list call) :
  who <> LOCAL ->
  form_fields parsed_doc = pre ++ field :: post ->
  (forall sent0 earlier, In earlier pre ->
     exists answer,
       remote sent0 (field_request who (document_type parsed_doc) earlier)
       = Returns answer) ->
  (forall sent0,
     remote sent0 (field_request who (document_type parsed_doc) field)
     = Raises exn) ->
  _analyze_form_fields remote who parsed_doc sent
  = (Raises exn,
     sent ++ map (field_request who (document_type parsed_doc))
               (pre ++ [field])).
Proof.
  intros Hwho Hfields Hpre Hfail. unfold _analyze_form_fields.
  rewrite Hfields.
  replace (negb (truthy (pre ++ field :: post))) with false
    by now destruct pre.
  now apply analyze_fields_loop_raised.
Qed.

Lemma analyze_form_fields_aborts_witness :
  _analyze_form_fields
    (fun sent request =>
       if Z.eqb (snd request) 300
          && str_eqb (match snd (fst request) with
                      | FormFieldPrompt name _ _ _ => name
                      | _ => []
                      end) (lit "given_name")
       then Raises "RateLimitError"
       else Returns (lit "Use capital letters", 7))
    OPENAI sample_doc []
  = (Raises "RateLimitError",
     [] ++ map (field_request OPENAI (document_type sample_doc))
             ([sample_field "family_name" 1] ++ [sample_field "given_name" 1])).
Proof.
  apply (analyze_form_fields_aborts _ OPENAI sample_doc
           [sample_field "family_name" 1] [] (sample_field "given_name" 1)).
  - discriminate.
  - reflexivity.
  - intros sent0 earlier [<- | []]. eexists. reflexivity.
  - reflexivity.
Defined.

(** X17. The JSON-shaped prompts carry a bounded part of the document:
    whatever happens, key-information extraction sends nothing or one request
    holding the first 3000 characters of the full text, and FAQ generation
    nothing or one request holding the first 2000. That is the whole text when
    it is no longer than the bound, and otherwise exactly as many characters
    as the bound, the rest of the document being left out. *)
Theorem json_prompts_bounded
    (remote : list call -> call -> outcome (str * Z))
    (json_loads : str -> decoding) (who : LLMProvider)
    (parsed_doc : ParsedDocument) (sent : list call) :
  (exists content,
      content = firstn 3000 (full_text parsed_doc)
      /\ len content <= 3000
      /\ (len (full_text parsed_doc) <= 3000 -> content = full_text parsed_doc)
      /\ (len (full_text parsed_doc) > 3000 ->
          len content = 3000 /\ content <> full_text parsed_doc)
      /\ (snd (_extract_key_information remote json_loads who parsed_doc sent)
          = sent
          \/ snd (_extract_key_information remote json_loads who parsed_doc
                    sent)
             = sent ++ [(who, KeyInformationPrompt (document_type parsed_doc)
                                content, 800)]))
  /\ (exists content,
        content = firstn 2000 (full_text parsed_doc)
        /\ len content <= 2000
        /\ (len (full_text parsed_doc) <= 2000 ->
            content = full_text parsed_doc)
        /\ (len (full_text parsed_doc) > 2000 ->
            len content = 2000 /\ content <> full_text parsed_doc)
        /\ (snd (generate_faq remote json_loads who parsed_doc sent) = sent
            \/ snd (generate_faq remote json_loads who parsed_doc sent)
               = sent ++ [(who, FaqPrompt (document_type parsed_doc) content,
                           800)])).
Proof.
  split.
  - destruct (slice_prefix (full_text parsed_doc) 3000 ltac:(lia))
      as [Heq Hlen].
    destruct (firstn_cases 3000 (full_text parsed_doc)) as [Hshort Hlong].
    exists (slice (full_text parsed_doc) 0 3000).
    split; [exact Heq |]. split; [exact Hlen |]. rewrite Heq.
    split; [exact Hshort |]. split; [exact Hlong |].
    rewrite <- Heq. apply sends_one, sends_extract_key_information.
  - destruct (slice_prefix (full_text parsed_doc) 2000 ltac:(lia))
      as [Heq Hlen].
    destruct (firstn_cases 2000 (full_text parsed_doc)) as [Hshort Hlong].
    exists (slice (full_text parsed_doc) 0 2000).
    split; [exact Heq |]. split; [exact Hlen |]. rewrite Heq.
    split; [exact Hshort |]. split; [exact Hlong |].
    rewrite <- Heq. apply sends_one, sends_generate_faq.
Qed.

Lemma json_prompts_bounded_witness :
  (exists content,
      content = full_text sample_doc
      /\ (snd (_extract_key_information (constant_remote (lit "{}") 2)
                 reject_all OPENAI sample_doc []) = []
          \/ snd (_extract_key_information (constant_remote (lit "{}") 2)
                    reject_all OPENAI sample_doc [])
             = [] ++ [(OPENAI, KeyInformationPrompt (lit "I-130") content,
                       800)]))
  /\ len (firstn 2000 (repeat "x"%char 2001)) = 2000.
Proof.
  destruct (json_prompts_bounded (constant_remote (lit "{}") 2) reject_all
              OPENAI sample_doc [])
    as [(content & _ & _ & Hshort & _ & Hsent) _].
  destruct (json_prompts_bounded (constant_remote (lit "{}") 2) reject_all
              OPENAI
              {| metadata := blank_metadata;
                 full_text := repeat "x"%char 2001;
                 pages_text := []; form_fields := []; tables := [];
                 images_info := []; document_type := lit "I-130";
                 confidence_score := 0.5%float |} [])
    as [_ (long & Hlong & _ & _ & Hcut & _)].
  cbn [full_text] in Hlong, Hcut. subst long. split.
  - exists content. split; [apply Hshort; vm_compute; discriminate |].
    exact Hsent.
  - apply Hcut. vm_compute. reflexivity.
Defined.

(** X18. A service for the LOCAL provider is set up without any check of the
    environment, and then every operation fails with [ValueError] before a
    single request is sent; only per-field guidance on a document without
    form fields still returns, with the empty list. *)
Theorem local_provider_always_fails
    (remote : list call -> call -> outcome (str * Z))
    (json_loads : str -> decoding) (getenv : str -> option str)
    (summary_prompt recommendations_prompt simplify_prompt
       : ParsedDocument -> prompt)
    (question_prompt translation_prompt : ParsedDocument -> str -> prompt)
    (parsed_doc : ParsedDocument) (questions : option (list str))
    (language : str) (sent : list call) :
  _setup_provider LOCAL getenv = Returns tt
  /\ analyze_document remote json_loads LOCAL summary_prompt
       recommendations_prompt question_prompt parsed_doc questions sent
     = (Raises "ValueError", sent)
  /\ _extract_key_information remote json_loads LOCAL parsed_doc sent
     = (Raises "ValueError", sent)
  /\ generate_faq remote json_loads LOCAL parsed_doc sent
     = (Raises "ValueError", sent)
  /\ translate_document remote LOCAL translation_prompt parsed_doc language
       sent
     = (Raises "ValueError", sent)
  /\ simplify_language remote LOCAL simplify_prompt parsed_doc sent
     = (Raises "ValueError", sent)
  /\ _analyze_form_fields remote LOCAL parsed_doc sent
     = if truthy (form_fields parsed_doc) then (Raises "ValueError", sent)
       else (Returns [], sent).
Proof.
  repeat split.
  unfold _analyze_form_fields.
  now destruct (form_fields parsed_doc).
Qed.

End AnalysisCoverage.

(** ** More about the analysis as a whole *)

Module CompositionCoverage.
Import PyFacts ParserClaims ChunkerCoverage ServiceClaims ServiceCoverage
  AnalysisCoverage ParseCoverage.

Set Warnings "-inexact-float".

Section Plan.

Variable remote : list call -> call -> outcome (str * Z).
Variable json_loads : str -> decoding.
Variable who : LLMProvider.
Variable summary_prompt : ParsedDocument -> prompt.
Variable recommendations_prompt : ParsedDocument -> prompt.
Variable question_prompt : ParsedDocument -> str -> prompt.

Lemma sends_answer_questions (parsed_doc : ParsedDocument)
    (questions : list str) :
  forall answered,
  sends (map (fun question =>
                (who, question_prompt parsed_doc question, 400)) questions)
    (answer_questions remote who question_prompt parsed_doc questions
       answered).
Proof.
  induction questions as [| question rest IH]; intros answered.
  - apply sends_ret.
  - cbn [answer_questions map].
    match goal with
    | |- sends (?request :: ?plan) _ =>
        change (request :: plan) with ([request] ++ plan)
    end.
    apply sends_bind; [| intros answer; apply IH].
    unfold _answer_question. apply sends_call_then.
Qed.

Lemma sends_analyze_document (parsed_doc : ParsedDocument)
    (questions : option (list str)) :
  sends (analysis_plan who summary_prompt recommendations_prompt
           question_prompt parsed_doc questions)
    (analyze_document remote json_loads who summary_prompt
       recommendations_prompt question_prompt parsed_doc questions).
Proof.
  unfold analysis_plan, analyze_document.
  match goal with
  | |- sends ([?s; ?k] ++ ?F ++ [?r] ++ ?Q) _ =>
      replace ([s; k] ++ F ++ [r] ++ Q)
        with ([s] ++ [k] ++ F ++ [r] ++ Q ++ [] ++ [])
        by (now rewrite !app_nil_r)
  end.
  apply sends_bind; [apply sends_call_then | intros summary].
  apply sends_bind; [apply sends_extract_key_information | intros key_info].
  apply sends_bind; [apply sends_analyze_form_fields | intros form_analysis].
  apply sends_bind; [apply sends_call_then | intros recs].
  apply sends_bind.
  - destruct questions as [[| question rest] |].
    + apply sends_ret.
    + apply sends_answer_questions.
    + apply sends_ret.
  - intros answered.
    apply sends_bind; [apply sends_of_outcome | intros; apply sends_ret].
Qed.

End Plan.

(** X19. A comprehensive analysis makes its requests in a fixed order: the
    summary, the key information, one per form field in the order of the
    document, the recommendations, one per question in the order asked.
    Whatever happens, what it has sent is the first few of these and nothing
    else; when it returns an analysis it has sent them all, which is
    3 plus the number of fields plus the number of questions. *)
Theorem analyze_document_requests
    (remote : list call -> call -> outcome (str * Z))
    (json_loads : str -> decoding) (who : LLMProvider)
    (summary_prompt recommendations_prompt : ParsedDocument -> prompt)
    (question_prompt : ParsedDocument -> str -> prompt)
    (parsed_doc : ParsedDocument) (questions : option (list str))
    (sent : list call) :
  let plan :=
    analysis_plan who summary_prompt recommendations_prompt question_prompt
      parsed_doc questions in
  let run :=
    analyze_document remote json_loads who summary_prompt
      recommendations_prompt question_prompt parsed_doc questions sent in
  (exists k, snd run = sent ++ firstn k plan)
  /\ (forall analysis, fst run = Returns analysis -> snd run = sent ++ plan)
  /\ len plan
     = 3 + len (form_fields parsed_doc)
       + len (match questions with Some qs => qs | None => [] end).
Proof.
  intros plan run.
  destruct (sends_analyze_document remote json_loads who summary_prompt
              recommendations_prompt question_prompt parsed_doc questions sent)
    as [Hprefix Hall].
  split; [exact Hprefix |]. split; [exact Hall |].
  unfold plan, analysis_plan, len.
  rewrite !length_app, !length_map. cbn [List.length]. lia.
Qed.

Lemma analyze_document_requests_witness :
  snd (analyze_document (constant_remote (lit "ok") 3) reject_all OPENAI
         (sample_prompt "summary") (sample_prompt "recommend")
         sample_question_prompt sample_doc (Some [lit "When?"]) [])
  = [] ++ analysis_plan OPENAI (sample_prompt "summary")
            (sample_prompt "recommend") sample_question_prompt sample_doc
            (Some [lit "When?"]).
Proof.
  eapply (proj1 (proj2 (analyze_document_requests
                          (constant_remote (lit "ok") 3) reject_all OPENAI
                          (sample_prompt "summary") (sample_prompt "recommend")
                          sample_question_prompt sample_doc
                          (Some [lit "When?"]) []))).
  reflexivity.
Defined.

(** *** Questions and answers *)

Lemma str_eqb_eq (a b : str) : str_eqb a b = true <-> a = b.
Proof.
  unfold str_eqb. destruct (list_eq_dec ascii_dec a b); split;
    congruence.
Qed.

Lemma dict_find_set {V : Type} (d : list (str * V)) (key other : str)
    (value : V) :
  dict_find (dict_set d key value) other
  = if str_eqb key other then Some value else dict_find d other.
Proof.
  induction d as [| [k v] d IH]; simpl.
  - reflexivity.
  - destruct (str_eqb k key) eqn:Ek; simpl.
    + apply str_eqb_eq in Ek. subst k.
      now destruct (str_eqb key other).
    + destruct (str_eqb k other) eqn:Eo; [| exact IH].
      destruct (str_eqb key other) eqn:Eko; [| reflexivity].
      apply str_eqb_eq in Eo, Eko. subst.
      rewrite (proj2 (str_eqb_eq other other) eq_refl) in Ek. discriminate.
Qed.

Lemma dict_set_length {V : Type} (d : list (str * V)) (key : str)
    (value : V) :
  (List.length (dict_set d key value) <= S (List.length d))%nat.
Proof.
  induction d as [| [k v] d IH]; simpl; [lia |].
  destruct (str_eqb k key); simpl; lia.
Qed.

Lemma answer_questions_returned
    (remote : list call -> call -> outcome (str * Z)) (who : LLMProvider)
    (question_prompt : ParsedDocument -> str -> prompt)
    (parsed_doc : ParsedDocument) (questions : list str) :
  forall answered sent result sent',
  answer_questions remote who question_prompt parsed_doc questions answered
    sent = (Returns result, sent') ->
  (forall question,
      In question questions
      \/ (exists answer, dict_find answered question = Some answer) ->
      exists answer, dict_find result question = Some answer)
  /\ (List.length result
      <= List.length answered + List.length questions)%nat.
Proof.
  induction questions as [| question rest IH];
    intros answered sent result sent' Hrun.
  - simpl in Hrun. unfold ret in Hrun. injection Hrun as <- _.
    split; [| lia]. intros q [[] | H]. exact H.
  - cbn [answer_questions] in Hrun.
    apply bind_returned in Hrun as (answer & sent1 & _ & Hrest).
    apply IH in Hrest as [Hfind Hlen]. split.
    + intros q Hq. apply Hfind. rewrite dict_find_set.
      destruct (str_eqb question q) eqn:E; [right; now eexists |].
      destruct Hq as [[-> | Hin] | Hold].
      * rewrite (proj2 (str_eqb_eq q q) eq_refl) in E. discriminate.
      * now left.
      * now right.
    + pose proof (dict_set_length answered question answer).
      simpl List.length. lia.
Qed.

(** X20. In an analysis that is returned, every question asked has an answer
    under its own text, and there are no more entries than questions (a
    question asked twice has one entry). Without questions the mapping is
    empty. *)
Theorem analyze_document_answers
    (remote : list call -> call -> outcome (str * Z))
    (json_loads : str -> decoding) (who : LLMProvider)
    (summary_prompt recommendations_prompt : ParsedDocument -> prompt)
    (question_prompt : ParsedDocument -> str -> prompt)
    (parsed_doc : ParsedDocument) (questions : option (list str))
    (sent sent' : list call) (analysis : DocumentAnalysis) :
  analyze_document remote json_loads who summary_prompt
    recommendations_prompt question_prompt parsed_doc questions sent
  = (Returns analysis, sent') ->
  let asked := match questions with Some qs => qs | None => [] end in
  (forall question, In question asked ->
     exists answer,
       dict_find (questions_answered analysis) question = Some answer)
  /\ len (questions_answered analysis) <= len asked
  /\ (asked = [] -> questions_answered analysis = []).
Proof.
  intros Hrun asked. unfold analyze_document in Hrun.
  apply bind_returned in Hrun as (summary & s1 & _ & Hrun).
  apply bind_returned in Hrun as (key_info & s2 & _ & Hrun).
  apply bind_returned in Hrun as (form_analysis & s3 & _ & Hrun).
  apply bind_returned in Hrun as (recs & s4 & _ & Hrun).
  apply bind_returned in Hrun as (answered & s5 & Hanswered & Hrun).
  apply bind_returned in Hrun as (confidence & s6 & _ & Hrun).
  unfold ret in Hrun. injection Hrun as <- _.
  cbn [questions_answered].
  assert (answer_questions remote who question_prompt parsed_doc asked [] s4
          = (Returns answered, s5)) as Hloop.
  { unfold asked. destruct questions as [[| question rest] |];
      exact Hanswered. }
  apply answer_questions_returned in Hloop as [Hfind Hlen].
  repeat split.
  - intros question Hin. apply Hfind. now left.
  - unfold len. simpl in Hlen. lia.
  - intros Hnone. rewrite Hnone in Hlen. now destruct answered.
Qed.

Lemma analyze_document_answers_witness :
  exists answer,
    dict_find
      [(lit "When?", lit "ok"); (lit "Where?", lit "ok")] (lit "Where?")
    = Some answer.
Proof.
  apply (proj1 (analyze_document_answers
                  (constant_remote (lit "ok") 3) reject_all OPENAI
                  (sample_prompt "summary") (sample_prompt "recommend")
                  sample_question_prompt sample_doc
                  (Some [lit "When?"; lit "Where?"; lit "When?"]) [] _
                  _ eq_refl)).
  simpl. tauto.
Defined.

(** *** Confidence of the analysis *)

(** X21. The confidence is computed on whatever [json.loads] decoded. On a
    dict it is the documented score. A value that is falsy has no effect and
    its length is never taken. A number other than zero, an integer or a
    float (not-a-number and the infinities among them), or [true], is truthy
    and has no length: the computation raises [TypeError], and with it the
    whole analysis. *)
Theorem analysis_confidence_on_decoded (parsed_doc : ParsedDocument)
    (summary : str) :
  (forall items,
      _calculate_analysis_confidence_on parsed_doc summary (JObject items)
      = Returns (_calculate_analysis_confidence parsed_doc summary items))
  /\ (forall key_info,
        py_truthy key_info = false ->
        _calculate_analysis_confidence_on parsed_doc summary key_info
        = Returns (_calculate_analysis_confidence parsed_doc summary []))
  /\ (forall n,
        n <> 0 ->
        _calculate_analysis_confidence_on parsed_doc summary (JInt n)
        = Raises "TypeError")
  /\ _calculate_analysis_confidence_on parsed_doc summary (JBool true)
     = Raises "TypeError"
  /\ (forall x,
        PrimFloat.eqb x 0 = false ->
        _calculate_analysis_confidence_on parsed_doc summary (JFloat x)
        = Raises "TypeError").
Proof.
  repeat split.
  - intros [| item items]; reflexivity.
  - intros key_info Hfalsy. unfold _calculate_analysis_confidence_on.
    now rewrite Hfalsy.
  - intros n Hn. unfold _calculate_analysis_confidence_on.
    cbn [py_truthy py_len omap].
    destruct (Z.eqb_spec n 0); [contradiction | reflexivity].
  - intros x Hx. unfold _calculate_analysis_confidence_on.
    cbn [py_truthy py_len omap]. now rewrite Hx.
Qed.

Lemma analysis_confidence_on_decoded_witness :
  _calculate_analysis_confidence_on sample_doc [] (JInt 42)
  = Raises "TypeError"
  /\ _calculate_analysis_confidence_on sample_doc [] JNull
     = Returns (_calculate_analysis_confidence sample_doc [] [])
  /\ _calculate_analysis_confidence_on sample_doc [] (JFloat 2.5)
     = Raises "TypeError"
  /\ _calculate_analysis_confidence_on sample_doc [] (JFloat nan)
     = Raises "TypeError".
Proof.
  destruct (analysis_confidence_on_decoded sample_doc [])
    as (_ & Hfalsy & Hint & _ & Hfloat).
  split; [apply Hint; discriminate |].
  split; [apply Hfalsy; reflexivity |].
  split; apply Hfloat; reflexivity.
Defined.

Lemma parsed_confidence_is_model (doc : Document)
    (pdf : outcome (list (outcome (list raw_table))))
    (parsed : ParsedDocument) :
  parse_pdf (Returns doc) pdf = Returns parsed ->
  exists long_text has_fields has_tables classified,
    confidence_score parsed
    = confidence_model long_text has_fields has_tables classified.
Proof.
  unfold parse_pdf. destruct (_extract_text _) as [full texts].
  intros H; injection H as <-. cbn [confidence_score].
  unfold _calculate_confidence.
  exists (len (strip full) >? 100), (truthy (_extract_form_fields doc)),
         (truthy (_extract_tables pdf)),
         (negb (str_eqb (_classify_document full) (lit "Unknown Document"))).
  destruct (len (strip full) >? 100), (truthy (_extract_form_fields doc)),
           (truthy (_extract_tables pdf)),
           (negb (str_eqb (_classify_document full)
                    (lit "Unknown Document"))); reflexivity.
Qed.

(** X22. For a document that [parse_pdf] returned, the confidence of an
    analysis lies in [0, 1] whatever the summary and the key information. *)
Theorem analysis_confidence_of_parsed_in_range (doc : Document)
    (pdf : outcome (list (outcome (list raw_table))))
    (parsed : ParsedDocument) (summary : str)
    (key_info : list (str * json)) :
  parse_pdf (Returns doc) pdf = Returns parsed ->
  in_unit_interval (_calculate_analysis_confidence parsed summary key_info)
  = true.
Proof.
  intros Hparse.
  destruct (parsed_confidence_is_model doc pdf parsed Hparse)
    as (b1 & b2 & b3 & b4 & Hscore).
  unfold _calculate_analysis_confidence. rewrite Hscore.
  destruct b1, b2, b3, b4, (len summary >? 200),
           (truthy key_info && (len key_info >? 3)),
           (truthy (form_fields parsed)),
           (negb (str_eqb (document_type parsed) (lit "Unknown Document")));
    reflexivity.
Qed.

Lemma analysis_confidence_of_parsed_in_range_witness :
  exists parsed,
    parse_pdf (Returns sample_document) sample_tables = Returns parsed
    /\ in_unit_interval
         (_calculate_analysis_confidence parsed (repeat "x"%char 300) [])
       = true.
Proof.
  eexists. split; [reflexivity |].
  apply (analysis_confidence_of_parsed_in_range sample_document sample_tables).
  reflexivity.
Defined.

End CompositionCoverage.

(** ** The handlers of api.py *)

Module ApiCoverage.
Import PyFacts ServiceClaims ServiceCoverage AnalysisCoverage
  ClassifierCoverage CompositionCoverage Api.

Set Warnings "-inexact-float".

Lemma dict_find_del_same {V : Type} (d : list (str * V)) (key : str) :
  dict_find (dict_del d key) key = None.
Proof.
  unfold dict_del. induction d as [| [k v] d IH]; simpl; [reflexivity |].
  destruct (str_eqb k key) eqn:E; simpl; [exact IH |]. now rewrite E.
Qed.

Lemma dict_find_del_other {V : Type} (d : list (str * V)) (key other : str) :
  other <> key -> dict_find (dict_del d key) other = dict_find d other.
Proof.
  intros Hne. unfold dict_del.
  induction d as [| [k v] d IH]; simpl; [reflexivity |].
  destruct (str_eqb k key) eqn:E; simpl.
  - apply str_eqb_eq in E. subst k.
    destruct (str_eqb key other) eqn:E'; [| exact IH].
    apply str_eqb_eq in E'. congruence.
  - now rewrite IH.
Qed.

(** Deleting keys one after the other leaves the items whose key is none of
    them. *)
Lemma fold_dict_del {V : Type} (keys : list str) :
  forall d : list (str * V),
  fold_left (fun cache key => dict_del cache key) keys d
  = filter (fun item => negb (existsb (str_eqb (fst item)) keys)) d.
Proof.
  induction keys as [| key keys IH]; intros d; simpl.
  - induction d as [| item d IHd]; simpl; [| rewrite <- IHd]; reflexivity.
  - rewrite IH. unfold dict_del. induction d as [| item d IHd]; simpl;
      [reflexivity |].
    destruct (str_eqb (fst item) key); simpl.
    + exact IHd.
    + destruct (existsb (str_eqb (fst item)) keys); simpl; now rewrite IHd.
Qed.

Lemma key_selected {V : Type} (P : str * V -> bool) (d : list (str * V))
    (item : str * V) :
  P item = true -> In item d ->
  existsb (str_eqb (fst item)) (map fst (filter P d)) = true.
Proof.
  intros HP Hin. apply existsb_exists. exists (fst item). split.
  - apply in_map, filter_In. now split.
  - now apply str_eqb_eq.
Qed.

Lemma key_selected_inv {V : Type} (P : str * V -> bool) (d : list (str * V))
    (item : str * V) :
  NoDup (map fst d) -> In item d ->
  existsb (str_eqb (fst item)) (map fst (filter P d)) = true ->
  P item = true.
Proof.
  intros Hnd Hin Hex. apply existsb_exists in Hex as (key & Hkey & Heq).
  apply str_eqb_eq in Heq. subst key.
  apply in_map_iff in Hkey as ([k v] & Hk & Hsel).
  apply filter_In in Hsel as [Hin' HP].
  destruct item as [k0 v0]. simpl in Hk. subst k.
  now rewrite (keys_functional d k0 v0 v Hnd Hin Hin').
Qed.

(** X23. [upload_pdf] never answers with status 400: the refusals raised in
    its body are caught by its own [except] clause. A file name that does not
    end in ".pdf" (in any letter case), a content of more than 50 MB or a
    parser that raises all end in status 500, and the caches are as they
    were. *)
Theorem upload_pdf_failures
    (parse_pdf_from_bytes : str -> outcome ParsedDocument)
    (document_id now file_name content : str) (st : Caches) :
  (forall e,
      fst (upload_pdf parse_pdf_from_bytes document_id now file_name content
             st) = Raised e ->
      e = HTTPException 500
      /\ snd (upload_pdf parse_pdf_from_bytes document_id now file_name
                content st) = st)
  /\ (endswith (lower file_name) (lit ".pdf") = false
      \/ len content > 50 * 1024 * 1024
      \/ (exists exn, parse_pdf_from_bytes content = Raises exn) ->
      upload_pdf parse_pdf_from_bytes document_id now file_name content st
      = (Raised (HTTPException 500), st)).
Proof.
  unfold upload_pdf. split.
  - intros e.
    destruct (endswith (lower file_name) (lit ".pdf")); cbn [negb];
      [| simpl; intros H; injection H as <-; now split].
    destruct (len content >? 50 * 1024 * 1024);
      [simpl; intros H; injection H as <-; now split |].
    destruct (parse_pdf_from_bytes content); simpl; try discriminate.
    intros H; injection H as <-; now split.
  - intros [Hext | [Hsize | [exn Hexn]]].
    + now rewrite Hext.
    + destruct (endswith (lower file_name) (lit ".pdf")); [| reflexivity].
      cbn [negb]. destruct (Z.gtb_spec (len content) (50 * 1024 * 1024));
        [reflexivity | lia].
    + destruct (endswith (lower file_name) (lit ".pdf")); [| reflexivity].
      cbn [negb]. destruct (len content >? 50 * 1024 * 1024);
        [reflexivity |]. now rewrite Hexn.
Qed.

Lemma upload_pdf_failures_witness :
  upload_pdf (fun _ => Returns sample_doc) (lit "doc-9") (lit "now")
    (lit "petition.docx") (lit "%PDF-1.4") sample_caches
  = (Raised (HTTPException 500), sample_caches).
Proof.
  apply (proj2 (upload_pdf_failures (fun _ => Returns sample_doc)
                  (lit "doc-9") (lit "now") (lit "petition.docx")
                  (lit "%PDF-1.4") sample_caches)).
  left. reflexivity.
Defined.

(** X24. What an upload answers is what the status of the document shows
    afterwards: the same type, page count and confidence, with the file name
    and the size of the content; the status of every other document and the
    analyses are as before. *)
Theorem upload_then_status
    (parse_pdf_from_bytes : str -> outcome ParsedDocument)
    (document_id now file_name content : str) (st st' : Caches)
    (response : DocumentUploadResponse) :
  upload_pdf parse_pdf_from_bytes document_id now file_name content st
  = (Done response, st') ->
  (exists status,
      get_document_status document_id st' = Done status
      /\ status_document_type status = upload_document_type response
      /\ status_page_count status = upload_page_count response
      /\ status_confidence_score status = upload_confidence_score response
      /\ status_filename status = file_name
      /\ status_file_size status = len content)
  /\ (forall other, other <> document_id ->
        get_document_status other st' = get_document_status other st)
  /\ analysis_cache st' = analysis_cache st.
Proof.
  unfold upload_pdf.
  destruct (endswith (lower file_name) (lit ".pdf")); cbn [negb];
    [| discriminate].
  destruct (len content >? 50 * 1024 * 1024); [discriminate |].
  destruct (parse_pdf_from_bytes content) as [parsed | exn |];
    try discriminate.
  simpl. intros H; injection H as <- <-.
  unfold get_document_status. cbn [document_cache analysis_cache].
  repeat split.
  - rewrite dict_find_set, (proj2 (str_eqb_eq document_id document_id) eq_refl).
    eexists. split; [reflexivity |]. now repeat split.
  - intros other Hne. rewrite dict_find_set.
    destruct (str_eqb document_id other) eqn:E; [| reflexivity].
    apply str_eqb_eq in E. congruence.
Qed.

Lemma upload_then_status_witness :
  exists status,
    get_document_status (lit "doc-9")
      (snd (upload_pdf (fun _ => Returns sample_doc) (lit "doc-9")
              (lit "now") (lit "Petition.PDF") (lit "%PDF-1.4")
              sample_caches))
    = Done status
    /\ status_file_size status = 8.
Proof.
  destruct (upload_then_status (fun _ => Returns sample_doc) (lit "doc-9")
              (lit "now") (lit "Petition.PDF") (lit "%PDF-1.4")
              sample_caches _ _ eq_refl)
    as ((status & Hstatus & _ & _ & _ & _ & Hsize) & _).
  exists status. split; [exact Hstatus | exact Hsize].
Defined.

(** X25. Deleting a document that is not cached ends in status 500 (the 404
    raised in the body is caught) and changes nothing. Deleting a cached one
    answers, after which the document is gone, every other document is as it
    was, and no analysis of the deleted document is left; with analysis ids
    that are distinct, as the keys of a dict are, the analyses of the other
    documents all remain, in their order. *)
Theorem delete_document_effect (document_id : str) (st : Caches) :
  (dict_find (document_cache st) document_id = None ->
   delete_document document_id st = (Raised (HTTPException 500), st))
  /\ (forall entry,
        dict_find (document_cache st) document_id = Some entry ->
        let st' := snd (delete_document document_id st) in
        fst (delete_document document_id st) = Done tt
        /\ dict_find (document_cache st') document_id = None
        /\ (forall other, other <> document_id ->
              dict_find (document_cache st') other
              = dict_find (document_cache st) other)
        /\ Forall (fun item => entry_document_id (snd item) <> document_id)
             (analysis_cache st')
        /\ (NoDup (map fst (analysis_cache st)) ->
            analysis_cache st'
            = filter (fun item =>
                        negb (str_eqb (entry_document_id (snd item))
                                document_id))
                (analysis_cache st))).
Proof.
  unfold delete_document. split.
  - now intros ->.
  - intros entry ->. cbn [fst snd document_cache analysis_cache reraise_500].
    repeat split.
    + apply dict_find_del_same.
    + intros other Hne. now apply dict_find_del_other.
    + rewrite fold_dict_del. apply Forall_forall. intros item Hitem.
      apply filter_In in Hitem as [Hin Hkept].
      intros Hdoc. apply negb_true_iff in Hkept.
      rewrite key_selected in Hkept; [discriminate | | exact Hin].
      now apply str_eqb_eq.
    + intros Hnd. rewrite fold_dict_del. apply filter_ext_in.
      intros item Hin. f_equal.
      destruct (str_eqb (entry_document_id (snd item)) document_id) eqn:E.
      * now apply (key_selected
          (fun item => str_eqb (entry_document_id (snd item)) document_id)).
      * destruct (existsb _ _) eqn:Ex; [| reflexivity].
        apply key_selected_inv in Ex; [congruence | exact Hnd | exact Hin].
Qed.

Lemma delete_document_effect_witness :
  fst (delete_document (lit "doc-1") sample_caches) = Done tt
  /\ analysis_cache (snd (delete_document (lit "doc-1") sample_caches))
     = [(lit "an-2", sample_analysis "doc-2")]
  /\ delete_document (lit "doc-7") sample_caches
     = (Raised (HTTPException 500), sample_caches).
Proof.
  destruct (delete_document_effect (lit "doc-1") sample_caches)
    as [_ Hdone].
  destruct (Hdone sample_entry eq_refl) as (Hfst & _ & _ & _ & Hrest).
  split; [exact Hfst |]. split.
  - rewrite Hrest; [reflexivity |].
    repeat (constructor; [cbv; intuition discriminate |]). constructor.
  - apply (proj1 (delete_document_effect (lit "doc-7") sample_caches)).
    reflexivity.
Defined.

End ApiCoverage.

(** ** The handlers that call the service *)

Module ApiServiceCoverage.
Import PyFacts ServiceClaims ServiceCoverage AnalysisCoverage
  CompositionCoverage Api.

Set Warnings "-inexact-float".

Section Handlers.

Variable remote : list call -> call -> outcome (str * Z).
Variable json_loads : str -> decoding.
Variable summary_prompt : ParsedDocument -> prompt.
Variable recommendations_prompt : ParsedDocument -> prompt.
Variable question_prompt : ParsedDocument -> str -> prompt.

(** A step that raises in a handler is an exception other than an
    [HTTPException]. *)
Lemma awaited_raised {A : Type} (m : M A) (sent sent' : list call)
    (e : raised) :
  awaited m sent = (Raised e, sent') ->
  exists exn, e = OtherException exn.
Proof.
  unfold awaited. destruct (m sent) as [[v | exn |] s]; try discriminate.
  intros H; injection H as <- _. now exists exn.
Qed.

Lemma perform_analysis_invalid (request : AnalysisRequest)
    (parsed_doc : ParsedDocument) (sent : list call) :
  str_eqb (request_analysis_type request) (lit "comprehensive") = false ->
  str_eqb (request_analysis_type request) (lit "summary") = false ->
  str_eqb (request_analysis_type request) (lit "qa") = false
  \/ request_questions request = None
  \/ request_questions request = Some [] ->
  perform_analysis remote json_loads summary_prompt recommendations_prompt
    question_prompt request parsed_doc sent
  = (Raised (HTTPException 400), sent).
Proof.
  intros Hc Hs Hqa. unfold perform_analysis. rewrite Hc, Hs.
  destruct Hqa as [Hqa | [-> | ->]]; try reflexivity.
  rewrite Hqa. now destruct (request_questions request) as [[| q qs] |].
Qed.

End Handlers.

(** X26. [ask_question] raises nothing but status 500. For a document that is
    not cached this happens before any request is sent. When it answers, it
    has sent exactly one request, and the confidence it reports is 0.8 times
    the parser's confidence of the document. *)
Theorem ask_question_outcomes
    (remote : list call -> call -> outcome (str * Z))
    (question_prompt : ParsedDocument -> str -> prompt)
    (document_id question : str) (st : Caches) (sent : list call) :
  let run := ask_question remote question_prompt document_id question st sent in
  (forall e, fst run = Raised e -> e = HTTPException 500)
  /\ (dict_find (document_cache st) document_id = None ->
      run = (Raised (HTTPException 500), sent))
  /\ (forall response,
        fst run = Done response ->
        exists doc_info,
          dict_find (document_cache st) document_id = Some doc_info
          /\ question_confidence response
             = (confidence_score (entry_parsed_doc doc_info) * 0.8)%float
          /\ snd run
             = sent ++ [(OPENAI,
                         question_prompt (entry_parsed_doc doc_info) question,
                         400)]).
Proof.
  intros run. unfold run, ask_question.
  destruct (dict_find (document_cache st) document_id) as [doc_info |].
  - unfold awaited, _answer_question, bind.
    destruct (_call_llm remote OPENAI
                (question_prompt (entry_parsed_doc doc_info) question) 400
                sent) as [[r | exn |] sent1] eqn:E; simpl.
    + apply call_llm_returned in E as [-> _].
      repeat split; try discriminate.
      intros response H; injection H as <-. now exists doc_info.
    + repeat split; try discriminate. intros e H; now injection H as <-.
    + repeat split; discriminate.
  - simpl. repeat split; try discriminate.
    intros e H; now injection H as <-.
Qed.

Lemma ask_question_outcomes_witness :
  ask_question (constant_remote (lit "Within 30 days") 5)
    sample_question_prompt (lit "doc-404") (lit "When?") sample_caches []
  = (Raised (HTTPException 500), []).
Proof.
  apply (proj1 (proj2 (ask_question_outcomes
                         (constant_remote (lit "Within 30 days") 5)
                         sample_question_prompt (lit "doc-404") (lit "When?")
                         sample_caches []))).
  reflexivity.
Defined.

(** X27. The analysis handler never raises: it answers "completed" or
    "error". A document that is not cached gives an error response holding
    the 404, and an analysis type other than "comprehensive", "summary" or
    "qa" with at least one question gives one holding the 400 ("translate" and
    "simplify" among them); in both cases nothing is sent and nothing stored.
    An error response never changes the caches. A completed response has its
    data stored under its analysis id, for the document of the request. *)
Theorem analyze_handler_outcomes
    (remote : list call -> call -> outcome (str * Z))
    (json_loads : str -> decoding)
    (summary_prompt recommendations_prompt : ParsedDocument -> prompt)
    (question_prompt : ParsedDocument -> str -> prompt)
    (request : AnalysisRequest) (new_id now : str) (st : Caches)
    (sent : list call) :
  let run :=
    Api.analyze_document remote json_loads summary_prompt
      recommendations_prompt question_prompt request new_id now st sent in
  (forall e, fst (fst run) = Raised e -> False)
  /\ (dict_find (document_cache st) (request_document_id request) = None ->
      exists response,
        run = (Done response, st, sent)
        /\ response_status response = lit "error"
        /\ response_error response = Some (HTTPException 404))
  /\ (forall doc_info,
        dict_find (document_cache st) (request_document_id request)
        = Some doc_info ->
        str_eqb (request_analysis_type request) (lit "comprehensive")
        = false ->
        str_eqb (request_analysis_type request) (lit "summary") = false ->
        str_eqb (request_analysis_type request) (lit "qa") = false
        \/ request_questions request = None
        \/ request_questions request = Some [] ->
        exists response,
          run = (Done response, st, sent)
          /\ response_status response = lit "error"
          /\ response_error response = Some (HTTPException 400))
  /\ (forall response,
        fst (fst run) = Done response ->
        match response_error response with
        | Some _ =>
            response_status response = lit "error"
            /\ response_analysis response = None
            /\ snd (fst run) = st
        | None =>
            response_status response = lit "completed"
            /\ document_cache (snd (fst run)) = document_cache st
            /\ exists entry,
                 dict_find (analysis_cache (snd (fst run)))
                   (analysis_id response) = Some entry
                 /\ entry_document_id entry = request_document_id request
                 /\ response_analysis response
                    = Some (entry_analysis_data entry)
        end).
Proof.
  intros run. unfold run, Api.analyze_document.
  destruct (dict_find (document_cache st) (request_document_id request))
    as [doc_info |] eqn:Hdoc.
  - destruct (perform_analysis remote json_loads summary_prompt
                recommendations_prompt question_prompt request
                (entry_parsed_doc doc_info) sent)
      as [[data | e |] sent1] eqn:Hperform; cbn [fst snd].
    + repeat split; try discriminate.
      * intros d _ Hc Hs Hqa.
        rewrite perform_analysis_invalid in Hperform by assumption.
        discriminate.
      * intros response H; injection H as <-.
        cbn [response_error response_status document_cache analysis_cache
             analysis_id response_analysis].
        repeat split. eexists. rewrite dict_find_set.
        rewrite (proj2 (str_eqb_eq new_id new_id) eq_refl).
        split; [reflexivity |]. now split.
    + repeat split; try discriminate.
      * intros d _ Hc Hs Hqa.
        rewrite perform_analysis_invalid in Hperform by assumption.
        injection Hperform as <- <-. now eexists.
      * intros response H; injection H as <-. now repeat split.
    + repeat split; try discriminate.
      intros d _ Hc Hs Hqa.
      rewrite perform_analysis_invalid in Hperform by assumption.
      discriminate.
  - cbn [fst snd]. repeat split; try discriminate.
    + intros _. now eexists.
    + intros response H; injection H as <-. now repeat split.
Qed.

Lemma analyze_handler_outcomes_witness :
  exists response,
    Api.analyze_document (constant_remote (lit "ok") 3) reject_all
      (sample_prompt "summary") (sample_prompt "recommend")
      sample_question_prompt
      {| request_document_id := lit "doc-1"; request_questions := None;
         request_analysis_type := lit "translate" |}
      (lit "an-9") (lit "now") sample_caches []
    = (Done response, sample_caches, [])
    /\ response_status response = lit "error"
    /\ response_error response = Some (HTTPException 400).
Proof.
  apply (proj1 (proj2 (proj2 (analyze_handler_outcomes
           (constant_remote (lit "ok") 3) reject_all
           (sample_prompt "summary") (sample_prompt "recommend")
           sample_question_prompt
           {| request_document_id := lit "doc-1"; request_questions := None;
              request_analysis_type := lit "translate" |}
           (lit "an-9") (lit "now") sample_caches []))) sample_entry);
    try reflexivity.
  left. reflexivity.
Defined.

End ApiServiceCoverage.

(** ** The handlers of api_demo.py *)

Module DemoCoverage.
Import PyFacts CompositionCoverage ApiDemo.

Set Warnings "-inexact-float".

Lemma dict_find_in {V : Type} (d : list (str * V)) (key : str) (value : V) :
  dict_find d key = Some value -> In (key, value) d.
Proof.
  induction d as [| [k v] d IH]; simpl; [discriminate |].
  destruct (str_eqb k key) eqn:E.
  - apply str_eqb_eq in E. subst k. intros H; injection H as ->. now left.
  - intros H. right. now apply IH.
Qed.

Lemma dict_get_found {V : Type} (d : list (str * V)) (key : str)
    (default : V) :
  In key (map fst d) -> dict_find d key = Some (dict_get d key default).
Proof.
  induction d as [| [k v] d IH]; simpl; [tauto |].
  destruct (str_eqb k key) eqn:E; [reflexivity |].
  intros [-> | Hin]; [| now apply IH].
  rewrite (proj2 (str_eqb_eq key key) eq_refl) in E. discriminate.
Qed.

Lemma dict_get_cases {V : Type} (d : list (str * V)) (key : str)
    (default : V) :
  dict_get d key default = default
  \/ In (dict_get d key default) (map snd d).
Proof.
  induction d as [| [k v] d IH]; simpl; [now left |].
  destruct (str_eqb k key); [right; now left |].
  destruct IH as [IH | IH]; [now left | right; now right].
Qed.

Lemma Forall_dict_set {V : Type} (P : V -> Prop) (d : list (str * V))
    (key : str) (value : V) :
  Forall (fun item => P (snd item)) d -> P value ->
  Forall (fun item => P (snd item)) (dict_set d key value).
Proof.
  intros Hd Hvalue. induction Hd as [| [k v] d Hitem Hd IH]; simpl.
  - now repeat constructor.
  - destruct (str_eqb k key); constructor; assumption.
Qed.

(** A dict filled key after key holds, under each of the keys, the value made
    from that key, and the other keys are as before. *)
Lemma fold_dict_set_find {V : Type} (f : str -> V) (keys : list str) :
  forall (d : list (str * V)) (key : str),
  dict_find (fold_left (fun filled k => dict_set filled k (f k)) keys d) key
  = if existsb (str_eqb key) keys then Some (f key) else dict_find d key.
Proof.
  induction keys as [| k keys IH]; intros d key; simpl; [reflexivity |].
  rewrite IH, dict_find_set.
  destruct (existsb (str_eqb key) keys); [now rewrite orb_true_r |].
  rewrite orb_false_r. destruct (str_eqb k key) eqn:E.
  - apply str_eqb_eq in E. subst k.
    now rewrite (proj2 (str_eqb_eq key key) eq_refl).
  - destruct (str_eqb key k) eqn:E'; [| reflexivity].
    apply str_eqb_eq in E'. subst k.
    rewrite (proj2 (str_eqb_eq key key) eq_refl) in E. discriminate.
Qed.

Lemma fold_dict_set_length {V : Type} (f : str -> V) (keys : list str) :
  forall d : list (str * V),
  (List.length (fold_left (fun filled k => dict_set filled k (f k)) keys d)
   <= List.length d + List.length keys)%nat.
Proof.
  induction keys as [| k keys IH]; intros d; simpl; [lia |].
  pose proof (IH (dict_set d k (f k))).
  pose proof (dict_set_length d k (f k)). lia.
Qed.

Lemma existsb_str_eqb (key : str) (keys : list str) :
  existsb (str_eqb key) keys = true <-> In key keys.
Proof.
  rewrite existsb_exists. split.
  - intros (k & Hin & E). apply str_eqb_eq in E. now subst k.
  - intros Hin. exists key. split; [exact Hin | now apply str_eqb_eq].
Qed.

(** None of the canned analyses has the key "questions_answered". *)
Lemma canned_without_answers (document_type : str)
    (fallback : list (str * json)) :
  dict_find MOCK_RESPONSES (lit "I-130") = Some fallback ->
  dict_find (dict_get MOCK_RESPONSES document_type fallback)
    (lit "questions_answered") = None.
Proof.
  intros Hfallback.
  assert (Forall (fun canned =>
                    dict_find canned (lit "questions_answered") = None)
            (map snd MOCK_RESPONSES)) as Hall.
  { repeat constructor. }
  destruct (dict_get_cases MOCK_RESPONSES document_type fallback)
    as [-> | Hin].
  - apply dict_find_in in Hfallback.
    apply (in_map snd) in Hfallback.
    exact (proj1 (Forall_forall _ _) Hall _ Hfallback).
  - exact (proj1 (Forall_forall _ _) Hall _ Hin).
Qed.

Lemma fallback_exists :
  exists fallback, dict_find MOCK_RESPONSES (lit "I-130") = Some fallback.
Proof. eexists. reflexivity. Qed.

Lemma upload_known (document_id now file_name : str) (st : Caches) :
  known_types st ->
  known_types (snd (upload_pdf document_id now file_name st)).
Proof.
  intros Hst. unfold upload_pdf.
  destruct (endswith (lower file_name) (lit ".pdf")); cbn [negb snd];
    [| exact Hst].
  unfold known_types. cbn [document_cache].
  apply (Forall_dict_set
           (fun info =>
              In (info_document_type info) (map fst MOCK_RESPONSES)
              /\ info_page_count info = 5
              /\ info_confidence_score info = 0.95%float));
    [exact Hst |].
  cbn [info_document_type info_page_count info_confidence_score].
  split; [| now split].
  destruct (contains (lower file_name) (lit "485"));
    [right; left; reflexivity |].
  destruct (contains (lower file_name) (lit "765"));
    [right; right; left; reflexivity | left; reflexivity].
Qed.

Lemma analyze_keeps_documents (request : Api.AnalysisRequest)
    (new_id now : str) (st : Caches) :
  document_cache (snd (analyze_document request new_id now st))
  = document_cache st.
Proof.
  unfold analyze_document.
  destruct (dict_find (document_cache st) (Api.request_document_id request));
    [| reflexivity].
  destruct fallback_exists as [fallback ->]. reflexivity.
Qed.

Lemma reachable_known (st : Caches) : reachable st -> known_types st.
Proof.
  induction 1 as [| st document_id now file_name _ IH
                  | st request new_id now _ IH].
  - constructor.
  - now apply upload_known.
  - unfold known_types. now rewrite analyze_keeps_documents.
Qed.

(** What [analyze_document] does for a document that is cached. *)
Lemma analyze_cached (request : Api.AnalysisRequest) (new_id now : str)
    (st : Caches) (doc_info : DocumentInfo) :
  dict_find (document_cache st) (Api.request_document_id request)
  = Some doc_info ->
  exists fallback,
    dict_find MOCK_RESPONSES (lit "I-130") = Some fallback
    /\ let document_type := info_document_type doc_info in
       let copied := dict_get MOCK_RESPONSES document_type fallback in
       let data :=
         match Api.request_questions request with
         | Some (question :: rest) =>
             dict_set copied (lit "questions_answered")
               (JObject (answer_all document_type (question :: rest)))
         | _ => copied
         end in
       analyze_document request new_id now st
       = (Api.Done {| analysis_id := new_id;
                      response_document_id := Api.request_document_id request;
                      response_status := lit "completed";
                      response_analysis := Some data;
                      response_error := None |},
          {| document_cache := document_cache st;
             analysis_cache :=
               dict_set (analysis_cache st) new_id
                 {| info_document_id := Api.request_document_id request;
                    info_analysis_type := Api.request_analysis_type request;
                    info_analysis_data := data;
                    info_timestamp := now |} |}).
Proof.
  intros Hfind. destruct fallback_exists as [fallback Hfallback].
  exists fallback. split; [exact Hfallback |].
  unfold analyze_document. now rewrite Hfind, Hfallback.
Qed.

(** X28. In every state the demo server can come to from its empty caches,
    a cached document has one of the three types with a canned analysis and
    the page count 5. So the default of [MOCK_RESPONSES.get] is never what
    decides: the analysis of a cached document is completed, and apart from
    the key "questions_answered" it is the canned analysis of the document's
    own type. *)
Theorem demo_analysis_is_of_own_type (st : Caches)
    (request : Api.AnalysisRequest) (new_id now : str)
    (doc_info : DocumentInfo) :
  reachable st ->
  dict_find (document_cache st) (Api.request_document_id request)
  = Some doc_info ->
  In (info_document_type doc_info) [lit "I-130"; lit "I-485"; lit "I-765"]
  /\ info_page_count doc_info = 5
  /\ exists canned data response,
       dict_find MOCK_RESPONSES (info_document_type doc_info) = Some canned
       /\ fst (analyze_document request new_id now st) = Api.Done response
       /\ response_status response = lit "completed"
       /\ response_analysis response = Some data
       /\ (forall key,
             key <> lit "questions_answered" ->
             dict_find data key = dict_find canned key).
Proof.
  intros Hreach Hfind.
  pose proof (reachable_known st Hreach) as Hknown.
  apply dict_find_in in Hfind as Hin.
  pose proof (proj1 (Forall_forall _ _) Hknown _ Hin) as (Htype & Hpages & _).
  cbn [snd] in Htype, Hpages.
  split; [exact Htype |]. split; [exact Hpages |].
  destruct (analyze_cached request new_id now st doc_info Hfind)
    as (fallback & Hfallback & Hrun).
  cbv zeta in Hrun. rewrite Hrun. cbn [fst].
  eexists _, _, _. split; [apply (dict_get_found _ _ fallback Htype) |].
  split; [reflexivity |]. split; [reflexivity |]. split; [reflexivity |].
  intros key Hkey.
  destruct (Api.request_questions request) as [[| question rest] |];
    try reflexivity.
  rewrite dict_find_set.
  destruct (str_eqb (lit "questions_answered") key) eqn:E; [| reflexivity].
  apply str_eqb_eq in E. congruence.
Qed.

Lemma demo_analysis_is_of_own_type_witness :
  exists response,
    fst (analyze_document
           {| Api.request_document_id := lit "doc-1";
              Api.request_questions := None;
              Api.request_analysis_type := lit "comprehensive" |}
           (lit "an-1") (lit "later")
           (snd (upload_pdf (lit "doc-1") (lit "now") (lit "Form-I485.PDF")
                   empty_caches)))
    = Api.Done response
    /\ response_status response = lit "completed".
Proof.
  destruct (demo_analysis_is_of_own_type
              (snd (upload_pdf (lit "doc-1") (lit "now") (lit "Form-I485.PDF")
                      empty_caches))
              {| Api.request_document_id := lit "doc-1";
                 Api.request_questions := None;
                 Api.request_analysis_type := lit "comprehensive" |}
              (lit "an-1") (lit "later") _
              (reach_upload empty_caches (lit "doc-1") (lit "now")
                 (lit "Form-I485.PDF") reach_start)
              eq_refl)
    as (_ & _ & canned & data & response & _ & Hrun & Hstatus & _).
  exists response. split; [exact Hrun | exact Hstatus].
Defined.

(** X29. The analysis of a cached document is stored under its new id, and
    its key "questions_answered" follows the questions of the request:
    without questions the key is absent (the canned analyses are never
    written to, so nothing of an earlier request shows); with questions it
    holds, for each question asked, the answer made from the document's type
    and that question, and nothing else, a question asked twice having one
    entry. *)
Theorem demo_analysis_answers (request : Api.AnalysisRequest)
    (new_id now : str) (st : Caches) (doc_info : DocumentInfo) :
  dict_find (document_cache st) (Api.request_document_id request)
  = Some doc_info ->
  let asked :=
    match Api.request_questions request with Some qs => qs | None => [] end in
  exists data response st',
    analyze_document request new_id now st = (Api.Done response, st')
    /\ analysis_id response = new_id
    /\ response_analysis response = Some data
    /\ (exists stored,
          dict_find (analysis_cache st') new_id = Some stored
          /\ info_analysis_data stored = data
          /\ info_document_id stored = Api.request_document_id request)
    /\ (asked = [] -> dict_find data (lit "questions_answered") = None)
    /\ (asked <> [] ->
        exists answered,
          dict_find data (lit "questions_answered") = Some (JObject answered)
          /\ (forall question,
                In question asked ->
                dict_find answered question
                = Some (JString (detailed_answer
                                   (info_document_type doc_info) question)))
          /\ (forall question,
                ~ In question asked -> dict_find answered question = None)
          /\ (List.length answered <= List.length asked)%nat).
Proof.
  intros Hfind asked.
  destruct (analyze_cached request new_id now st doc_info Hfind)
    as (fallback & Hfallback & Hrun).
  cbv zeta in Hrun. rewrite Hrun. eexists _, _, _.
  split; [reflexivity |]. split; [reflexivity |]. split; [reflexivity |].
  cbn [analysis_cache]. split.
  { eexists. rewrite dict_find_set.
    rewrite (proj2 (str_eqb_eq new_id new_id) eq_refl).
    split; [reflexivity |]. now split. }
  unfold asked.
  destruct (Api.request_questions request) as [[| question rest] |].
  - split; [| congruence]. intros _.
    now apply canned_without_answers.
  - split; [discriminate |]. intros _.
    exists (answer_all (info_document_type doc_info) (question :: rest)).
    split.
    { rewrite dict_find_set.
      now rewrite (proj2 (str_eqb_eq _ _) eq_refl). }
    unfold answer_all. split; [| split].
    + intros q Hq. rewrite fold_dict_set_find.
      now rewrite (proj2 (existsb_str_eqb q (question :: rest)) Hq).
    + intros q Hq. rewrite fold_dict_set_find.
      destruct (existsb (str_eqb q) (question :: rest)) eqn:E;
        [| reflexivity].
      apply existsb_str_eqb in E. contradiction.
    + apply (fold_dict_set_length
               (fun q => JString (detailed_answer
                                    (info_document_type doc_info) q))
               (question :: rest) []).
  - split; [| congruence]. intros _.
    now apply canned_without_answers.
Qed.

Lemma demo_analysis_answers_witness :
  exists data response st',
    analyze_document
      {| Api.request_document_id := lit "doc-1";
         Api.request_questions := Some [lit "When?"; lit "When?"];
         Api.request_analysis_type := lit "qa" |}
      (lit "an-1") (lit "later")
      (snd (upload_pdf (lit "doc-1") (lit "now") (lit "i765.pdf")
              empty_caches))
    = (Api.Done response, st')
    /\ response_analysis response = Some data
    /\ exists answered,
         dict_find data (lit "questions_answered") = Some (JObject answered)
         /\ dict_find answered (lit "When?")
            = Some (JString (detailed_answer (lit "I-765") (lit "When?")))
         /\ (List.length answered <= 2)%nat.
Proof.
  destruct (demo_analysis_answers
              {| Api.request_document_id := lit "doc-1";
                 Api.request_questions := Some [lit "When?"; lit "When?"];
                 Api.request_analysis_type := lit "qa" |}
              (lit "an-1") (lit "later")
              (snd (upload_pdf (lit "doc-1") (lit "now") (lit "i765.pdf")
                      empty_caches))
              _ eq_refl)
    as (data & response & st' & Hrun & _ & Hdata & _ & _ & Hasked).
  destruct Hasked as (answered & Hkey & Hin & _ & Hlen); [discriminate |].
  exists data, response, st'. split; [exact Hrun |].
  split; [exact Hdata |]. exists answered. split; [exact Hkey |].
  split; [apply Hin; now left | exact Hlen].
Defined.

(** X30. How the demo handlers fail. [upload_pdf] answers exactly for the
    file names that end in ".pdf" in any letter case, whatever the content;
    any other name ends in status 500, not 400, and stores nothing. For a
    document that is not cached, [ask_question] and [get_document_status] end
    in status 500, not 404, while [analyze_document] answers with an error
    response that holds the 404 and stores nothing. For a cached document
    none of the three fails. *)
Theorem demo_failures (st : Caches) :
  (forall document_id now file_name,
      let run := upload_pdf document_id now file_name st in
      (endswith (lower file_name) (lit ".pdf") = false ->
       run = (Api.Raised (Api.HTTPException 500), st))
      /\ (endswith (lower file_name) (lit ".pdf") = true ->
          exists response,
            fst run = Api.Done response
            /\ get_document_status document_id (snd run)
               = Api.Done {| status_document_id := document_id;
                             status_filename := file_name;
                             status_upload_time := now;
                             status_document_type :=
                               upload_document_type response;
                             status_page_count := 5;
                             status_confidence_score := 0.95%float;
                             status_status := lit "processed";
                             status_mode := lit "DEMO" |}))
  /\ (forall document_id,
        dict_find (document_cache st) document_id = None ->
        (forall question,
            ask_question document_id question st
            = Api.Raised (Api.HTTPException 500))
        /\ get_document_status document_id st
           = Api.Raised (Api.HTTPException 500)
        /\ (forall questions analysis_type new_id now,
              analyze_document
                {| Api.request_document_id := document_id;
                   Api.request_questions := questions;
                   Api.request_analysis_type := analysis_type |}
                new_id now st
              = (Api.Done {| analysis_id := [];
                             response_document_id := document_id;
                             response_status := lit "error";
                             response_analysis := None;
                             response_error :=
                               Some (Api.HTTPException 404) |}, st)))
  /\ (forall document_id doc_info,
        dict_find (document_cache st) document_id = Some doc_info ->
        (forall question,
            exists response,
              ask_question document_id question st = Api.Done response
              /\ answer response
                 = mock_answer (info_document_type doc_info) question)
        /\ (exists status,
              get_document_status document_id st = Api.Done status
              /\ status_document_type status = info_document_type doc_info)
        /\ (forall questions analysis_type new_id now,
              exists response,
                fst (analyze_document
                       {| Api.request_document_id := document_id;
                          Api.request_questions := questions;
                          Api.request_analysis_type := analysis_type |}
                       new_id now st) = Api.Done response
                /\ response_status response = lit "completed")).
Proof.
  split; [| split].
  - intros document_id now file_name run. unfold run, upload_pdf. split.
    + now intros ->.
    + intros ->. cbn [negb fst snd Api.reraise_500].
      eexists. split; [reflexivity |].
      unfold get_document_status. cbn [document_cache].
      rewrite dict_find_set.
      now rewrite (proj2 (str_eqb_eq document_id document_id) eq_refl).
  - intros document_id Hnone. split; [| split].
    + intros question. unfold ask_question. now rewrite Hnone.
    + unfold get_document_status. now rewrite Hnone.
    + intros questions analysis_type new_id now. unfold analyze_document.
      cbn [Api.request_document_id]. now rewrite Hnone.
  - intros document_id doc_info Hsome. split; [| split].
    + intros question. unfold ask_question. rewrite Hsome.
      eexists. split; reflexivity.
    + unfold get_document_status. rewrite Hsome.
      eexists. split; reflexivity.
    + intros questions analysis_type new_id now.
      destruct (analyze_cached
                  {| Api.request_document_id := document_id;
                     Api.request_questions := questions;
                     Api.request_analysis_type := analysis_type |}
                  new_id now st doc_info Hsome) as (fallback & _ & Hrun).
      cbv zeta in Hrun. rewrite Hrun. eexists. split; reflexivity.
Qed.

Lemma demo_failures_witness :
  upload_pdf (lit "doc-1") (lit "now") (lit "petition.docx") empty_caches
  = (Api.Raised (Api.HTTPException 500), empty_caches)
  /\ ask_question (lit "doc-1") (lit "When?") empty_caches
     = Api.Raised (Api.HTTPException 500).
Proof.
  destruct (demo_failures empty_caches) as (Hupload & Hmissing & _).
  split.
  - apply (proj1 (Hupload (lit "doc-1") (lit "now") (lit "petition.docx"))).
    reflexivity.
  - apply (proj1 (Hmissing (lit "doc-1") eq_refl)).
Defined.

End DemoCoverage.
